(** * duckdb-webdavfs: a shallow embedding of the WebDAV file system

    The development follows the C++ sources:
    - [StdString]  : the [std::string] operations the sources rely on;
    - [CurlClient] : [src/httpfs_curl_client.cpp] (retry loop, back-off,
                     header callback);
    - [WebDAV]     : [src/webdavfs.cpp] and [src/include/webdavfs.hpp]
                     (URLs, Base64, write buffering, commit, the end of a
                     handle, directory creation, listing and glob
                     matching).

    Sizes and offsets ([size_t], [idx_t]) are numbers in [N]; arithmetic on
    them is reduced modulo 2^64 where the source computes in 64 bits.
    The definitions come first; the properties follow from [StdStringFacts]
    on. *)

From Stdlib Require Import String Ascii List ZArith NArith Lia Bool DecimalString.
From stdpp Require Import base option gmap strings.

Local Open Scope N_scope.

(* ===================================================================== *)
(** ** [std::string] *)
(* ===================================================================== *)

Module StdString.

(** [std::string::npos], the largest [size_t]. *)
Definition npos : N := 2 ^ 64 - 1.

Definition wrap64 (n : N) : N := n mod 2 ^ 64.

Definition size (s : string) : N := N.of_nat (String.length s).

Fixpoint drop (n : nat) (s : string) : string :=
  match n, s with
  | O, _ => s
  | S n', String _ s' => drop n' s'
  | S _, EmptyString => EmptyString
  end.

(** [s.substr(pos, len)] for [pos <= s.size()]; every call in the sources
    is made with such a [pos].  Past the end the model yields the empty
    string where C++ raises [std::out_of_range]. *)
Definition substr (s : string) (pos len : N) : string :=
  if size s <? pos then EmptyString
  else String.substring (N.to_nat pos) (N.to_nat (N.min len (size s - pos))) s.

(** [s.substr(pos)] *)
Definition substr_from (s : string) (pos : N) : string := substr s pos npos.

(** First position [>= i] (counted from [i] at the head of [s]) where
    [needle] occurs. *)
Fixpoint search (needle s : string) (i : N) : N :=
  if String.prefix needle s then i
  else match s with
       | EmptyString => npos
       | String _ s' => search needle s' (N.succ i)
       end.

(** [s.find(needle, pos)] *)
Definition find (s needle : string) (pos : N) : N :=
  if size s <? pos then npos else search needle (drop (N.to_nat pos) s) pos.

(** [s.find(c, pos)] *)
Definition find_char (s : string) (c : ascii) (pos : N) : N :=
  find s (String c EmptyString) pos.

Fixpoint mem_char (c : ascii) (chars : string) : bool :=
  match chars with
  | EmptyString => false
  | String a chars' => Ascii.eqb a c || mem_char c chars'
  end.

Fixpoint search_first_of (chars s : string) (i : N) : N :=
  match s with
  | EmptyString => npos
  | String a s' => if mem_char a chars then i else search_first_of chars s' (N.succ i)
  end.

(** [s.find_first_of(chars)] *)
Definition find_first_of (s chars : string) : N := search_first_of chars s 0.

Fixpoint rfind_from (c : ascii) (s : string) (i limit best : N) : N :=
  match s with
  | EmptyString => best
  | String a s' =>
      rfind_from c s' (N.succ i) limit
        (if Ascii.eqb a c && (i <=? limit) then i else best)
  end.

(** [s.rfind(c, pos)]: the last position [<= pos] holding [c]. *)
Definition rfind (s : string) (c : ascii) (pos : N) : N :=
  rfind_from c s 0 pos npos.

(** [StringUtil::StartsWith] and [StringUtil::EndsWith]. *)
Definition StartsWith (s prefix : string) : bool := String.prefix prefix s.

Definition EndsWith (s suffix : string) : bool :=
  (size suffix <=? size s)
  && String.eqb (substr_from s (size s - size suffix)) suffix.

Definition empty (s : string) : bool :=
  match s with EmptyString => true | _ => false end.

(** Whether [s] holds one of the characters of [chars] (used to state
    properties, not by the sources). *)
Fixpoint contains_any (chars s : string) : bool :=
  match s with
  | EmptyString => false
  | String a s' => mem_char a chars || contains_any chars s'
  end.

(** [std::to_string] and the [%d], [%llu] conversions on a number. *)
Definition to_string (n : N) : string := NilZero.string_of_uint (N.to_uint n).

End StdString.

(* ===================================================================== *)
(** ** The curl client: [src/httpfs_curl_client.cpp] *)
(* ===================================================================== *)

Module CurlClient.
Import StdString.

(** libcurl's result codes: the ones the client names, and the rest. *)
Inductive CURLcode : Type :=
| CURLE_OK
| CURLE_COULDNT_RESOLVE_PROXY
| CURLE_COULDNT_RESOLVE_HOST
| CURLE_COULDNT_CONNECT
| CURLE_PARTIAL_FILE
| CURLE_OPERATION_TIMEDOUT
| CURLE_GOT_NOTHING
| CURLE_SEND_ERROR
| CURLE_RECV_ERROR
| CURLE_other (code : N).

Definition is_CURLE_OK (res : CURLcode) : bool :=
  match res with CURLE_OK => true | _ => false end.

Definition IsRetryableCurlError (res : CURLcode) : bool :=
  match res with
  | CURLE_COULDNT_CONNECT
  | CURLE_COULDNT_RESOLVE_HOST
  | CURLE_COULDNT_RESOLVE_PROXY
  | CURLE_OPERATION_TIMEDOUT
  | CURLE_SEND_ERROR
  | CURLE_RECV_ERROR
  | CURLE_PARTIAL_FILE
  | CURLE_GOT_NOTHING => true
  | _ => false
  end.

Definition IsRetryableHTTPStatus (status : N) : bool :=
  (status =? 429) || (status =? 500) || (status =? 502)
  || (status =? 503) || (status =? 504).

(** The delay [ExponentialBackoff(attempt)] sleeps, in milliseconds.  The
    source computes [100 * (1 << attempt)] in [int]; the model is exact as
    long as that product fits (attempt below 25). *)
Definition backoff_delay_ms (attempt : Z) : Z :=
  let delay_ms := (100 * 2 ^ attempt)%Z in
  if (delay_ms >? 5000)%Z then 5000%Z else delay_ms.

(** What one [curl->Execute()] does: its result code, the response code
    [curl_easy_getinfo] reports afterwards, and the body bytes the write
    callback appended meanwhile. *)
Record Transfer : Type := mkTransfer {
  t_res : CURLcode;
  t_response_code : N;
  t_received : string
}.

(** The part of [RequestInfo] the retry loop touches, and what the loop
    did: how many times it executed the request and how long it slept. *)
Record RequestInfo : Type := mkRequestInfo {
  body : string;
  response_code : N
}.

Record Run : Type := mkRun {
  returned : option CURLcode;   (* [None]: [res] was never assigned *)
  info : RequestInfo;
  attempts : nat;
  sleeps : list Z
}.

Section ExecuteWithRetry.

(** [max_retries] is the client's field ([webdav_max_retries], 3 unless
    set otherwise); [execute i] is the [i]-th call of [curl->Execute()]. *)
Variable max_retries : Z.
Variable execute : nat -> Transfer.

(** The [for (attempt = 0; attempt <= max_retries; attempt++)] loop;
    [fuel] bounds the iterations left. *)
Fixpoint retry_loop (fuel : nat) (attempt : Z) (ri : RequestInfo)
    (n : nat) (slept : list Z) : Run :=
  match fuel with
  | O => mkRun None ri n slept
  | S fuel' =>
      if (attempt <=? max_retries)%Z then
        let t := execute n in
        let res := t_res t in
        let ri := mkRequestInfo (body ri +:+ t_received t) (t_response_code t) in
        let n := S n in
        if is_CURLE_OK res && negb (IsRetryableHTTPStatus (response_code ri))
        then mkRun (Some res) ri n slept
        else
          let should_retry :=
            if negb (is_CURLE_OK res) && IsRetryableCurlError res then true
            else if IsRetryableHTTPStatus (response_code ri) then true
            else false in
          if (attempt >=? max_retries)%Z then mkRun (Some res) ri n slept
          else if should_retry then
            retry_loop fuel' (attempt + 1)%Z (mkRequestInfo "" 0) n
              (slept ++ [backoff_delay_ms attempt])
          else mkRun (Some res) ri n slept
      else mkRun None ri n slept
  end.

Definition ExecuteWithRetry (ri : RequestInfo) : Run :=
  retry_loop (S (Z.to_nat (max_retries + 1))) 0%Z ri O [].

End ExecuteWithRetry.

(** The three classes of outcome the loop distinguishes. *)
Definition succeeded (t : Transfer) : bool :=
  is_CURLE_OK (t_res t) && negb (IsRetryableHTTPStatus (t_response_code t)).

Definition retryable (t : Transfer) : bool :=
  (negb (is_CURLE_OK (t_res t)) && IsRetryableCurlError (t_res t))
  || IsRetryableHTTPStatus (t_response_code t).


(** A server that answers every transfer with 503. *)
Definition always_503 : nat -> Transfer := fun _ => mkTransfer CURLE_OK 503 "".


(** *** The header callback: [RequestHeaderCallback] *)

(** [HTTPHeaders] is DuckDB's; the callback only calls [Insert] on it.  A
    header set is modelled by the calls of [Insert] made on it, oldest
    first, and the collector by the list of its header sets. *)
Definition HTTPHeaders : Type := list (string * string).

(** How a call of the callback ends: it returns the number of bytes it
    took, with the collector as it left it; or [part2.at(0)] raises
    [std::out_of_range]; or it calls [back()] on an empty collector,
    which C++ leaves undefined. *)
Inductive callback_outcome : Type :=
| Returned (taken : N) (header_collection : list HTTPHeaders)
| OutOfRange
| BackOfEmpty.

(** [s.back()] and [s.pop_back()] on a string that is not empty. *)
Fixpoint back (s : string) : option ascii :=
  match s with
  | EmptyString => None
  | String c EmptyString => Some c
  | String _ s' => back s'
  end.

Definition pop_back (s : string) : string := substr s 0 (size s - 1).

(** [header_collection.back().Insert(key, value)]. *)
Definition insert_in_back (key value : string) (header_collection : list HTTPHeaders)
    : option (list HTTPHeaders) :=
  match rev header_collection with
  | [] => None
  | headers :: earlier => Some (rev earlier ++ [headers ++ [(key, value)]])
  end.

Definition RequestHeaderCallback (contents : string)
    (header_collection : list HTTPHeaders) : callback_outcome :=
  let totalSize := size contents in
  let header := contents in
  (* Trim trailing \r\n *)
  let header :=
    if negb (empty header) && bool_decide (back header = Some "010"%char) then
      let header := pop_back header in
      if negb (empty header) && bool_decide (back header = Some "013"%char)
      then pop_back header
      else header
    else header in
  (* [header.rfind("HTTP/", 0) == 0]: the header starts with "HTTP/" *)
  let header_collection :=
    if StartsWith header "HTTP/"
    then header_collection ++ [[("__RESPONSE_STATUS__", header)]]
    else header_collection in
  let colonPos := find_char header ":" 0 in
  if negb (colonPos =? npos) then
    let part1 := substr header 0 colonPos in
    let part2 := substr_from header (colonPos + 1) in
    match part2 with
    | EmptyString => OutOfRange
    | String c part2' =>
        let part2 := if Ascii.eqb c " " then part2' else part2 in
        match insert_in_back part1 part2 header_collection with
        | Some header_collection => Returned totalSize header_collection
        | None => BackOfEmpty
        end
    end
  else Returned totalSize header_collection.

End CurlClient.

(* ===================================================================== *)
(** ** The WebDAV file system: [src/webdavfs.cpp] *)
(* ===================================================================== *)

Module WebDAV.
Import StdString.

(** *** Exceptions and results *)

Inductive exception : Type :=
| IOException (msg : string)
| NotImplementedException (msg : string)
| HTTPException (msg : string)
| InvalidArgument (what : string).      (* [std::invalid_argument] *)

(** The outcome of a call: a value, a raised exception, or [OutOfFuel] when
    the bound put on a recursion of the model was too small. *)
Inductive result (A : Type) : Type :=
| Ok (a : A)
| Throw (e : exception)
| OutOfFuel.
Arguments Ok {A} a.
Arguments Throw {A} e.
Arguments OutOfFuel {A}.

Definition is_IOException (e : exception) : bool :=
  match e with IOException _ => true | _ => false end.

Definition is_HTTPException (e : exception) : bool :=
  match e with HTTPException _ => true | _ => false end.

(** [e.what()] *)
Definition what (e : exception) : string :=
  match e with
  | IOException msg | NotImplementedException msg
  | HTTPException msg | InvalidArgument msg => msg
  end.

(** *** Handles, requests and the world *)

(** [FileOpenFlags], through the accessors the sources call. *)
Record FileOpenFlags : Type := mkFlags {
  OpenForReading : bool;
  OpenForWriting : bool;
  OpenForAppending : bool;
  CreateFileIfNotExists : bool;
  OverwriteExistingFile : bool
}.

Definition FILE_FLAGS_READ : FileOpenFlags := mkFlags true false false false false.
Definition FILE_FLAGS_WRITE : FileOpenFlags := mkFlags false true false false false.

(** [HTTPFSParams]: the settings the file system reads. *)
Record HTTPFSParams : Type := mkParams {
  webdav_streaming_threshold_mb : N;
  webdav_max_retries : Z;
  webdav_debug_logging : bool
}.

Record WebDAVFileHandle : Type := mkHandle {
  path : string;                 (* [FileHandle::path] *)
  flags : FileOpenFlags;
  http_params : HTTPFSParams;
  file_offset : N;               (* [HTTPFileHandle::file_offset] *)
  write_buffer : string;
  buffer_dirty : bool;
  temp_file_path : string;
  using_temp_file : bool
}.

Definition set_file_offset (v : N) (h : WebDAVFileHandle) : WebDAVFileHandle :=
  mkHandle (path h) (flags h) (http_params h) v (write_buffer h)
           (buffer_dirty h) (temp_file_path h) (using_temp_file h).
Definition set_write_buffer (v : string) (h : WebDAVFileHandle) : WebDAVFileHandle :=
  mkHandle (path h) (flags h) (http_params h) (file_offset h) v
           (buffer_dirty h) (temp_file_path h) (using_temp_file h).
Definition set_buffer_dirty (v : bool) (h : WebDAVFileHandle) : WebDAVFileHandle :=
  mkHandle (path h) (flags h) (http_params h) (file_offset h) (write_buffer h)
           v (temp_file_path h) (using_temp_file h).
Definition set_temp_file_path (v : string) (h : WebDAVFileHandle) : WebDAVFileHandle :=
  mkHandle (path h) (flags h) (http_params h) (file_offset h) (write_buffer h)
           (buffer_dirty h) v (using_temp_file h).
Definition set_using_temp_file (v : bool) (h : WebDAVFileHandle) : WebDAVFileHandle :=
  mkHandle (path h) (flags h) (http_params h) (file_offset h) (write_buffer h)
           (buffer_dirty h) (temp_file_path h) v.

(** The remote operations.  [PutRequestFromFile] carries the bytes streamed
    from the staging file; [InitializeRequest] is the probe
    [HTTPFileHandle::Initialize] sends for a handle. *)
Inductive Request : Type :=
| PutRequest (url body : string)
| PutRequestFromFile (url file_path : string) (file_size : N) (streamed : string)
| MkcolRequest (url : string)
| PropfindRequest (url : string) (depth : Z)
| InitializeRequest (url : string).

Record HTTPResponse : Type := mkResponse {
  status : N;
  body : string
}.

(** The state a call runs in: the open handle, the local files and the
    requests sent so far (oldest first). *)
Record World : Type := mkWorld {
  wfh : WebDAVFileHandle;
  disk : gmap string string;
  net : list Request
}.

Definition set_wfh (h : WebDAVFileHandle) (w : World) : World :=
  mkWorld h (disk w) (net w).
Definition set_disk (d : gmap string string) (w : World) : World :=
  mkWorld (wfh w) d (net w).
Definition set_net (l : list Request) (w : World) : World :=
  mkWorld (wfh w) (disk w) l.

(** Calls are state transformers that may raise. *)
Definition M (A : Type) : Type := World -> result A * World.

#[export] Instance M_ret : MRet M := fun A a w => (Ok a, w).
#[export] Instance M_bind : MBind M := fun A B f c w =>
  match c w with
  | (Ok a, w') => f a w'
  | (Throw e, w') => (Throw e, w')
  | (OutOfFuel, w') => (OutOfFuel, w')
  end.

Definition throw {A : Type} (e : exception) : M A := fun w => (Throw e, w).
Definition out_of_fuel {A : Type} : M A := fun w => (OutOfFuel, w).

(** [try { c } catch (E &e) { handler e }] for the exceptions [catches]
    selects; the others propagate. *)
Definition try_catch {A : Type} (catches : exception -> bool) (c : M A)
    (handler : exception -> M A) : M A := fun w =>
  match c w with
  | (Throw e, w') => if catches e then handler e w' else (Throw e, w')
  | r => r
  end.

Definition lift {A : Type} (r : result A) : M A := fun w => (r, w).
Definition get_handle : M WebDAVFileHandle := fun w => (Ok (wfh w), w).
Definition modify_handle (f : WebDAVFileHandle -> WebDAVFileHandle) : M unit :=
  fun w => (Ok tt, set_wfh (f (wfh w)) w).
Definition get_disk : M (gmap string string) := fun w => (Ok (disk w), w).
Definition put_disk (d : gmap string string) : M unit :=
  fun w => (Ok tt, set_disk d w).

Definition catch_all (e : exception) : bool := true.

(** *** URLs *)

Record ParsedWebDAVUrl : Type := mkParsed {
  http_proto : string;
  host : string;
  url_path : string              (* the [path] member *)
}.

Definition GetHTTPUrl (u : ParsedWebDAVUrl) : string :=
  http_proto u +:+ "://" +:+ host u +:+ url_path u.

Definition ParseUrl (url : string) : result ParsedWebDAVUrl :=
  if StartsWith url "storagebox://" then
    let remainder := substr_from url 13 in
    let slash_pos := find_char remainder "/" 0 in
    let '(username, p) :=
      if negb (slash_pos =? npos)
      then (substr remainder 0 slash_pos, substr_from remainder slash_pos)
      else (remainder, "/") in
    Ok (mkParsed "https" (username +:+ ".your-storagebox.de") p)
  else
    let split_host (proto rest : string) : result ParsedWebDAVUrl :=
      let slash_pos := find_char rest "/" 0 in
      if negb (slash_pos =? npos)
      then Ok (mkParsed proto (substr rest 0 slash_pos) (substr_from rest slash_pos))
      else Ok (mkParsed proto rest "/") in
    if StartsWith url "webdav://" then split_host "http" (substr_from url 9)
    else if StartsWith url "webdavs://" then split_host "https" (substr_from url 10)
    else if StartsWith url "https://" then split_host "https" (substr_from url 8)
    else if StartsWith url "http://" then split_host "http" (substr_from url 7)
    else Throw (IOException ("Invalid WebDAV URL: " +:+ url)).

(** The [storagebox://user], [webdav://host], [webdavs://host] or
    [proto://host] prefix that [CreateDirectoryRecursive] and [Glob] put
    back in front of a path. *)
Definition original_prefix (original : string) (parsed_url : ParsedWebDAVUrl) : string :=
  if StartsWith original "storagebox://" then
    let remainder := substr_from original 13 in
    let slash_pos := find_char remainder "/" 0 in
    let username := substr remainder 0 slash_pos in
    "storagebox://" +:+ username
  else if StartsWith original "webdav://" then "webdav://" +:+ host parsed_url
  else if StartsWith original "webdavs://" then "webdavs://" +:+ host parsed_url
  else http_proto parsed_url +:+ "://" +:+ host parsed_url.

(** [FileOpener]: only its presence matters to the code modelled here. *)
Definition FileOpener : Type := unit.

(** *** Opening a handle *)

(** The constructor of [WebDAVFileHandle] ([webdavfs.hpp]): the base class
    sets the offset to 0, then the flags are checked. *)
Definition WebDAVFileHandle_new (file_path : string) (fl : FileOpenFlags)
    (params : HTTPFSParams) : result WebDAVFileHandle :=
  if OpenForReading fl && OpenForWriting fl then
    Throw (NotImplementedException
             "Cannot open a WebDAV file for both reading and writing")
  else if OpenForAppending fl then
    Throw (NotImplementedException "Cannot open a WebDAV file for appending")
  else Ok (mkHandle file_path fl params 0 "" false "" false).

Section Environment.

(** What the file system runs against:
    - [server history request] is the response to [request] after the
      requests of [history];
    - [params] are the settings [InitializeParameters] reads;
    - [mkstemp d] is the name [mkstemp] picks on the disk [d] ([None]: it
      failed), [fopen_ok d p] tells whether [fopen] opens [p];
    - [Split] is [StringUtil::Split] and [duckdb_Glob] the single-segment
      matcher [Glob(s, slen, pattern, plen)], both of DuckDB. *)
Variable server : list Request -> Request -> HTTPResponse.
Variable params : HTTPFSParams.
Variable mkstemp : gmap string string -> option string.
Variable fopen_ok : gmap string string -> string -> bool.
Variable Split : string -> string -> list string.
Variable duckdb_Glob : string -> string -> bool.

(** Sends [r] and returns the server's answer. *)
Definition send (r : Request) : M HTTPResponse := fun w =>
  (Ok (server (net w) r), set_net (net w ++ [r]) w).

Definition CreateHandle (file_path : string) (fl : FileOpenFlags)
    (opener : option FileOpener) : M WebDAVFileHandle :=
  parsed_url ← lift (ParseUrl file_path);
  let converted_url := GetHTTPUrl parsed_url in
  lift (WebDAVFileHandle_new converted_url fl params).

(** Modelled from the spec: [HTTPFileHandle::Initialize] belongs to the
    surrounding HTTP file system (not under src/); it probes the remote
    resource of the handle and raises [HTTPException] when the probe does
    not answer with a 2xx status. *)
Definition Initialize (h : WebDAVFileHandle) : M unit :=
  response ← send (InitializeRequest (path h));
  if (200 <=? status response) && (status response <? 300) then mret tt
  else throw (HTTPException ("HTTP error on " +:+ path h)).

(** *** Writing: [WebDAVFileSystem::Write] *)

Definition Write (buffer : string) (location : N) : M unit :=
  h ← get_handle;
  let expected_location :=
    if using_temp_file h then file_offset h else size (write_buffer h) in
  if negb (location =? expected_location) then
    throw (IOException
      ("WebDAV does not support non-sequential writes. Expected location "
       +:+ to_string expected_location +:+ " but got " +:+ to_string location))
  else
  let nr_bytes := size buffer in
  let streaming_threshold :=
    wrap64 (webdav_streaming_threshold_mb (http_params h) * 1024 * 1024) in
  (if negb (using_temp_file h)
      && (streaming_threshold <? wrap64 (size (write_buffer h) + nr_bytes))
   then
     d ← get_disk;
     match mkstemp d with
     | None => throw (IOException "Failed to create temp file for streaming upload")
     | Some temp_template =>
         put_disk (<[temp_template := ""]> d);;
         modify_handle (set_temp_file_path temp_template);;
         d ← get_disk;
         if negb (fopen_ok d temp_template) then
           throw (IOException ("Failed to open temp file " +:+ temp_template))
         else
           put_disk (<[temp_template := write_buffer h]> d);;
           modify_handle (set_using_temp_file true);;
           modify_handle (set_write_buffer "")
     end
   else mret tt);;
  h ← get_handle;
  (if using_temp_file h then
     d ← get_disk;
     if negb (fopen_ok d (temp_file_path h)) then
       throw (IOException ("Failed to open temp file " +:+ temp_file_path h
                           +:+ " for append"))
     else
       put_disk (<[temp_file_path h := default "" (d !! temp_file_path h) +:+ buffer]> d)
   else
     modify_handle (set_write_buffer (write_buffer h +:+ buffer)));;
  modify_handle (set_buffer_dirty true);;
  modify_handle (fun h => set_file_offset (wrap64 (file_offset h + nr_bytes)) h).

(** *** Creating directories *)

Definition is_created (response : HTTPResponse) : bool :=
  negb (negb (status response =? 201) && negb (status response =? 200)
        && negb (status response =? 204)).

Definition storage_full_message (directory : string) : string :=
  "Failed to create directory " +:+ directory
  +:+ ": Storage is full. The WebDAV server has "
  +:+ "insufficient storage space available. Free up space or resize your storage.".

Definition create_failed_message (directory : string) (st : N) : string :=
  "Failed to create directory " +:+ directory +:+ ": HTTP " +:+ to_string st.

(** The loop of [CreateDirectoryRecursive] that cuts the path at ['/'],
    dropping empty components. *)
Fixpoint split_components (p current : string) (path_parts : list string)
    : list string :=
  match p with
  | EmptyString =>
      if negb (empty current) then path_parts ++ [current] else path_parts
  | String c rest =>
      if Ascii.eqb c "/" then
        if negb (empty current)
        then split_components rest "" (path_parts ++ [current])
        else split_components rest current path_parts
      else split_components rest (current +:+ String c "") path_parts
  end.

(** The loop over the components: one [CreateDirectory] per prefix, from
    the shortest on.  [create] is [CreateDirectory]. *)
Fixpoint create_each_level (create : string -> option FileOpener -> M unit)
    (protocol_prefix accumulated_path : string) (path_parts : list string)
    (opener : option FileOpener) : M unit :=
  match path_parts with
  | [] => mret tt
  | part :: rest =>
      let accumulated_path := accumulated_path +:+ ("/" +:+ part) in
      let full_path := protocol_prefix +:+ accumulated_path in
      try_catch is_IOException (create full_path opener)
        (fun e =>
           let error_msg := what e in
           if negb (find error_msg "Storage is full" 0 =? npos)
              || negb (find error_msg "insufficient storage" 0 =? npos)
           then throw e
           else mret tt);;
      create_each_level create protocol_prefix accumulated_path rest opener
  end.

(** [CreateDirectoryRecursive], given [CreateDirectory]. *)
Definition CreateDirectoryRecursive_with
    (create : string -> option FileOpener -> M unit)
    (directory : string) (opener : option FileOpener) : M unit :=
  parsed_url ← lift (ParseUrl directory);
  let path_parts := split_components (url_path parsed_url) "" [] in
  let protocol_prefix := original_prefix directory parsed_url in
  create_each_level create protocol_prefix "" path_parts opener.

(** [CreateDirectory]; [fuel] bounds the depth of the calls that go through
    [CreateDirectoryRecursive] and back. *)
Fixpoint CreateDirectory (fuel : nat) (directory : string)
    (opener : option FileOpener) : M unit :=
  match fuel with
  | O => out_of_fuel
  | S fuel' =>
      parsed_url ← lift (ParseUrl directory);
      let http_url := GetHTTPUrl parsed_url in
      let http_url :=
        if negb (EndsWith http_url "/") then http_url +:+ "/" else http_url in
      handle ← CreateHandle directory FILE_FLAGS_READ opener;
      try_catch is_HTTPException (Initialize handle) (fun _ => mret tt);;
      response ← send (MkcolRequest http_url);
      if negb (is_created response) then
        (if status response =? 507
         then throw (IOException (storage_full_message directory))
         else mret tt);;
        response ←
          (if (status response =? 404) || (status response =? 409) then
             let last_slash := rfind directory "/" npos in
             if negb (last_slash =? npos) && (0 <? last_slash) then
               let parent_dir := substr directory 0 last_slash in
               let protocol_end := find parent_dir "://" 0 in
               if negb (protocol_end =? npos) then
                 let first_slash_after_protocol :=
                   find_char parent_dir "/" (protocol_end + 3) in
                 if negb (first_slash_after_protocol =? npos)
                    && (first_slash_after_protocol <? last_slash)
                 then
                   CreateDirectoryRecursive_with (CreateDirectory fuel')
                     parent_dir opener;;
                   send (MkcolRequest http_url)
                 else mret response
               else mret response
             else mret response
           else mret response);
        if negb (is_created response) then
          if status response =? 507
          then throw (IOException (storage_full_message directory))
          else if negb (status response =? 405)
          then throw (IOException
                        (create_failed_message directory (status response)))
          else mret tt
        else mret tt
      else mret tt
  end.

(** The depth a directory name can need: each round trip shortens it. *)
Definition depth_bound (directory : string) : nat := S (String.length directory).

Definition CreateDirectoryRecursive (directory : string)
    (opener : option FileOpener) : M unit :=
  CreateDirectoryRecursive_with (CreateDirectory (depth_bound directory))
    directory opener.

(** *** Committing: [WebDAVFileHandle::FlushBuffer], [Close], [FileSync] *)

Definition wants_parent (response : HTTPResponse) : bool :=
  (status response =? 400) || (status response =? 404) || (status response =? 409).

Definition is_written (response : HTTPResponse) : bool :=
  negb (negb (status response =? 200) && negb (status response =? 201)
        && negb (status response =? 204)).

(** [WebDAVFileSystem::PutRequestFromFile] *)
Definition PutFromFile (url file_path : string) (file_size : N) : M HTTPResponse :=
  d ← get_disk;
  match d !! file_path with
  | Some content =>
      if fopen_ok d file_path
      then send (PutRequestFromFile url file_path file_size content)
      else throw (IOException ("Failed to open temp file " +:+ file_path
                               +:+ " for streaming upload"))
  | None => throw (IOException ("Failed to open temp file " +:+ file_path
                                +:+ " for streaming upload"))
  end.

(** The upload proper: streamed from the staging file once spilled, from
    the memory buffer otherwise. *)
Definition upload_buffer (h : WebDAVFileHandle) (http_url : string)
    : M HTTPResponse :=
  if using_temp_file h then
    (if negb (empty (write_buffer h)) then
       d ← get_disk;
       if fopen_ok d (temp_file_path h) then
         put_disk (<[temp_file_path h :=
                       default "" (d !! temp_file_path h) +:+ write_buffer h]> d);;
         modify_handle (set_write_buffer "")
       else mret tt
     else mret tt);;
    d ← get_disk;
    match d !! temp_file_path h with
    | None => throw (IOException ("Failed to stat temp file " +:+ temp_file_path h))
    | Some content => PutFromFile http_url (temp_file_path h) (size content)
    end
  else send (PutRequest http_url (write_buffer h)).

(** "If write failed with 400, 404, or 409, try to create parent
    directories and retry": the response the commit goes on with. *)
Definition retry_with_parents (h : WebDAVFileHandle) (http_url : string)
    (response : HTTPResponse) : M HTTPResponse :=
  if wants_parent response then
    let last_slash := rfind (path h) "/" npos in
    if negb (last_slash =? npos) then
      let dir_path := substr (path h) 0 last_slash in
      try_catch catch_all
        (CreateDirectoryRecursive dir_path None;;
         h' ← get_handle;
         send (PutRequest http_url (write_buffer h')))
        (fun _ => mret response)
    else mret response
  else mret response.

Definition FlushBuffer : M unit :=
  h ← get_handle;
  if negb (buffer_dirty h) && negb (using_temp_file h) then mret tt else
  parsed_url ← lift (ParseUrl (path h));
  let http_url := GetHTTPUrl parsed_url in
  response ← upload_buffer h http_url;
  response ← retry_with_parents h http_url response;
  if negb (is_written response) then
    throw (IOException ("Failed to write to file " +:+ path h +:+ ": HTTP "
                        +:+ to_string (status response)))
  else
    modify_handle (set_write_buffer "");;
    modify_handle (set_buffer_dirty false).

Definition Close : M unit :=
  FlushBuffer;;
  h ← get_handle;
  if using_temp_file h && negb (empty (temp_file_path h)) then
    d ← get_disk;
    put_disk (delete (temp_file_path h) d);;
    modify_handle (set_temp_file_path "");;
    modify_handle (set_using_temp_file false)
  else mret tt.

Definition FileSync : M unit := FlushBuffer.

(** *** Listing: [ParsePropfindResponse] *)

Definition hex_digit (c : ascii) : option Z :=
  let n := Z.of_N (N_of_ascii c) in
  if ((48 <=? n) && (n <=? 57))%Z then Some (n - 48)%Z
  else if ((97 <=? n) && (n <=? 102))%Z then Some (n - 87)%Z
  else if ((65 <=? n) && (n <=? 70))%Z then Some (n - 55)%Z
  else None.

(** [isspace] in the C locale. *)
Definition is_space (c : ascii) : bool :=
  let n := N_of_ascii c in (n =? 32) || ((9 <=? n) && (n <=? 13)).

(** [std::stoi(hex, nullptr, 16)] on the two characters after a ['%']:
    blanks and a sign may come first, the digits stop at the first
    character that is not one, and no digit at all is
    [std::invalid_argument]. *)
Definition stoi16 (c1 c2 : ascii) : result Z :=
  match hex_digit c1 with
  | Some d1 =>
      match hex_digit c2 with
      | Some d2 => Ok (16 * d1 + d2)%Z
      | None => Ok d1
      end
  | None =>
      if is_space c1 || Ascii.eqb c1 "+" then
        match hex_digit c2 with
        | Some d2 => Ok d2
        | None => Throw (InvalidArgument "stoi")
        end
      else if Ascii.eqb c1 "-" then
        match hex_digit c2 with
        | Some d2 => Ok (- d2)%Z
        | None => Throw (InvalidArgument "stoi")
        end
      else Throw (InvalidArgument "stoi")
  end.

(** [static_cast<char>] of an [int]. *)
Definition char_of_int (v : Z) : ascii := ascii_of_N (Z.to_N (v mod 256)).

(** The decoding loop: a ['%'] followed by at least two characters stands
    for the character with that code. *)
Fixpoint url_decode (href : string) : result string :=
  match href with
  | EmptyString => Ok EmptyString
  | String c rest =>
      match rest with
      | String h1 (String h2 rest') =>
          if Ascii.eqb c "%" then
            match stoi16 h1 h2 with
            | Ok v =>
                match url_decode rest' with
                | Ok decoded => Ok (String (char_of_int v) decoded)
                | Throw e => Throw e
                | OutOfFuel => OutOfFuel
                end
            | Throw e => Throw e
            | OutOfFuel => OutOfFuel
            end
          else
            match url_decode rest with
            | Ok decoded => Ok (String c decoded)
            | Throw e => Throw e
            | OutOfFuel => OutOfFuel
            end
      | _ =>
          match url_decode rest with
          | Ok decoded => Ok (String c decoded)
          | Throw e => Throw e
          | OutOfFuel => OutOfFuel
          end
      end
  end.

(** The condition of the scanning loop,
    [(pos = xml.find("<D:href>", pos)) != npos ||
     (pos = xml.find("<href>", pos)) != npos]:
    the position the body is entered with, [npos] when the loop ends.  The
    second search starts from what the first one left in [pos]. *)
Definition next_href (xml : string) (pos : N) : N :=
  let pos := find xml "<D:href>" pos in
  if negb (pos =? npos) then pos
  else
    let pos := find xml "<href>" pos in
    pos.

Definition tag_open_at (xml : string) (pos : N) : string :=
  if String.eqb (substr xml pos 8) "<D:href>" then "<D:href>" else "<href>".

Definition tag_close_of (tag_open : string) : string :=
  if String.eqb tag_open "<D:href>" then "</D:href>" else "</href>".

(** The loop of [ParsePropfindResponse]; [fuel] bounds its iterations. *)
Fixpoint parse_loop (fuel : nat) (xml_response : string) (pos : N)
    (found : list string) : result (list string) :=
  match fuel with
  | O => OutOfFuel
  | S fuel' =>
      let pos := next_href xml_response pos in
      if pos =? npos then Ok found else
      let tag_open := tag_open_at xml_response pos in
      let tag_close := tag_close_of tag_open in
      let start := pos + size tag_open in
      let end_ := find xml_response tag_close start in
      if end_ =? npos then Ok found else
      let href := substr xml_response start (end_ - start) in
      match url_decode href with
      | Ok decoded_href =>
          let found :=
            if negb (EndsWith decoded_href "/") then found ++ [decoded_href]
            else found in
          parse_loop fuel' xml_response (end_ + size tag_close) found
      | Throw e => Throw e
      | OutOfFuel => OutOfFuel
      end
  end.

(** The paths of the entries that are not collections. *)
Definition ParsePropfindResponse (xml_response base_path : string)
    : result (list string) :=
  parse_loop (S (String.length xml_response)) xml_response 0 [].

(** The same scan inside [Glob], keeping the collections other than the
    listed one as URLs to list in turn. *)
Fixpoint subdirs_loop (fuel : nat) (parsed_url : ParsedWebDAVUrl)
    (prefix_path response_body : string) (pos : N) (subdirs : list string)
    : result (list string) :=
  match fuel with
  | O => OutOfFuel
  | S fuel' =>
      let pos := next_href response_body pos in
      if pos =? npos then Ok subdirs else
      let tag_open := tag_open_at response_body pos in
      let tag_close := tag_close_of tag_open in
      let start := pos + size tag_open in
      let end_ := find response_body tag_close start in
      if end_ =? npos then Ok subdirs else
      let href := substr response_body start (end_ - start) in
      match url_decode href with
      | Ok decoded_href =>
          let subdirs :=
            if EndsWith decoded_href "/" && negb (String.eqb decoded_href prefix_path)
            then subdirs ++ [http_proto parsed_url +:+ "://" +:+ host parsed_url
                             +:+ decoded_href]
            else subdirs in
          subdirs_loop fuel' parsed_url prefix_path response_body
            (end_ + size tag_close) subdirs
      | Throw e => Throw e
      | OutOfFuel => OutOfFuel
      end
  end.

(** *** Matching: [Match] *)

(** The inner loop of [Match] at a [**]: the rest of the pattern is tried
    on [key] and then on each of its shorter non-empty suffixes. *)
Fixpoint try_each_suffix (match_rest : list string -> bool) (key : list string)
    : bool :=
  match key with
  | [] => false
  | _ :: rest =>
      if match_rest key then true else try_each_suffix match_rest rest
  end.

(** [Match(key, key_end, pattern, pattern_end)] on the segments that are
    left of the path ([key]) and of the pattern. *)
Fixpoint Match (key pattern : list string) {struct pattern} : bool :=
  match pattern with
  | [] => match key with [] => true | _ :: _ => false end
  | p :: pattern' =>
      match key with
      | [] => false
      | k :: key' =>
          if String.eqb p "**" then
            match pattern' with
            | [] => true
            | _ :: _ => try_each_suffix (fun key => Match key pattern') (k :: key')
            end
          else if negb (duckdb_Glob k p) then false
          else Match key' pattern'
      end
  end.

(** *** Globbing: [WebDAVFileSystem::Glob] *)

Definition is_listing (response : HTTPResponse) : bool :=
  negb (negb (status response =? 207) && negb (status response =? 200)).

(** The loop over the sub-collections found at the first level. *)
Fixpoint list_subdirs (subdirs : list string) (prefix_path : string)
    (files : list string) : M (list string) :=
  match subdirs with
  | [] => mret files
  | subdir_url :: rest =>
      subdir_response ← send (PropfindRequest subdir_url 1);
      if is_listing subdir_response then
        subdir_files ← lift (ParsePropfindResponse (body subdir_response) prefix_path);
        list_subdirs rest prefix_path (files ++ subdir_files)
      else list_subdirs rest prefix_path files
  end.

(** The final loop: the listed paths that match, as full URLs. *)
Fixpoint match_files (glob_pattern : string) (parsed_url : ParsedWebDAVUrl)
    (pattern_splits : list string) (files : list string) : list string :=
  match files with
  | [] => []
  | file_info :: rest =>
      let file_path := file_info in
      let path_start := find file_path (host parsed_url) 0 in
      let file_path :=
        if negb (path_start =? npos)
        then substr_from file_path (path_start + size (host parsed_url))
        else file_path in
      let key_splits := Split file_path "/" in
      let is_match := Match key_splits pattern_splits in
      if is_match then
        (original_prefix glob_pattern parsed_url +:+ file_path)
          :: match_files glob_pattern parsed_url pattern_splits rest
      else match_files glob_pattern parsed_url pattern_splits rest
  end.

(** The part of [Glob] after the first listing has been answered: parse
    it, list the sub-collections, and match. *)
Definition collect_matches (glob_pattern : string) (parsed_url : ParsedWebDAVUrl)
    (prefix_path : string) (response : HTTPResponse) : M (list string) :=
  if empty (body response) then mret [] else
  files ← lift (ParsePropfindResponse (body response) prefix_path);
  let response_body := body response in
  subdirs ← lift (subdirs_loop (S (String.length response_body)) parsed_url
                    prefix_path response_body 0 []);
  files ← list_subdirs subdirs prefix_path files;
  let pattern_splits := Split (url_path parsed_url) "/" in
  mret (match_files glob_pattern parsed_url pattern_splits files).

Definition Glob (glob_pattern : string) (opener : option FileOpener)
    : M (list string) :=
  match opener with
  | None => mret [glob_pattern]
  | Some _ =>
      parsed_url ← lift (ParseUrl glob_pattern);
      let p := url_path parsed_url in
      let first_wildcard_pos := find_first_of p "*[\" in
      if first_wildcard_pos =? npos then mret [glob_pattern] else
      let last_slash_before_wildcard := rfind p "/" first_wildcard_pos in
      let prefix_path :=
        if negb (last_slash_before_wildcard =? npos)
        then substr p 0 (last_slash_before_wildcard + 1)
        else "/" in
      let list_url_pattern :=
        http_proto parsed_url +:+ "://" +:+ host parsed_url +:+ prefix_path in
      let non_wildcard_path :=
        original_prefix glob_pattern parsed_url +:+ prefix_path in
      opened ←
        try_catch is_HTTPException
          (handle ← CreateHandle non_wildcard_path FILE_FLAGS_READ opener;
           Initialize handle;;
           mret true)
          (fun _ => mret false);
      if negb opened then mret [] else
      response ← send (PropfindRequest list_url_pattern 1);
      if negb (is_listing response) then mret [] else
      collect_matches glob_pattern parsed_url prefix_path response
  end.

End Environment.

(** *** DuckDB's helpers, for running the model on examples *)

(** Modelled from the spec: [StringUtil::Split] (DuckDB, not under src/)
    cuts the input at every occurrence of the delimiter; empty pieces are
    dropped, and an input without any piece is returned whole. *)
Fixpoint split_go (delim s current : string) (skip : nat) : list string :=
  match s with
  | EmptyString => if empty current then [] else [current]
  | String c s' =>
      match skip with
      | S skip' => split_go delim s' current skip'
      | O =>
          if String.prefix delim s && negb (empty delim) then
            (if empty current then [] else [current])
              ++ split_go delim s' "" (String.length delim - 1)%nat
          else split_go delim s' (current +:+ String c "") O
      end
  end.

Definition StringUtil_Split (input split : string) : list string :=
  match split_go split input "" O with
  | [] => [input]
  | splits => splits
  end.

(** Modelled from the spec: DuckDB's [Glob(s, slen, pattern, plen)] (not
    under src/) matches one segment against one pattern segment with the
    usual file-name wildcards: [*] for any run of characters, [?] for any
    one character, [[...]] for a set (ranges [a-z], negation by a leading
    [!]), and a backslash before a character to take it literally. *)
Fixpoint glob_segment (pattern s : string) {struct pattern} : bool :=
  match pattern with
  | EmptyString => empty s
  | String p pattern' =>
      if Ascii.eqb p "*" then
        (fix star (s : string) : bool :=
           if glob_segment pattern' s then true
           else match s with
                | EmptyString => false
                | String _ s' => star s'
                end) s
      else
        match s with
        | EmptyString => false
        | String c s' =>
            if Ascii.eqb p "?" then glob_segment pattern' s'
            else if Ascii.eqb p "[" then
              (fix bracket (set : string) (first negate hit : bool) : bool :=
                 match set with
                 | EmptyString => false
                 | String a set' =>
                     if first && Ascii.eqb a "!" then bracket set' false true hit
                     else if negb first && Ascii.eqb a "]" then
                       if xorb negate hit then glob_segment set' s' else false
                     else
                       match set' with
                       | String dash (String b set'') =>
                           if Ascii.eqb dash "-" && negb (Ascii.eqb b "]") then
                             bracket set'' false negate
                               (hit || ((N_of_ascii a <=? N_of_ascii c)
                                        && (N_of_ascii c <=? N_of_ascii b)))
                           else bracket set' false negate (hit || Ascii.eqb a c)
                       | _ => bracket set' false negate (hit || Ascii.eqb a c)
                       end
                 end) pattern' true false false
            else if Ascii.eqb p "\" then
              match pattern' with
              | EmptyString => false
              | String q pattern'' => Ascii.eqb q c && glob_segment pattern'' s'
              end
            else Ascii.eqb p c && glob_segment pattern' s'
        end
  end.

Definition duckdb_Glob_model (s pattern : string) : bool := glob_segment pattern s.

(** *** Which URLs the file system takes *)

(** [WebDAVFileSystem::IsWebDAVUrl] *)
Definition IsWebDAVUrl (url : string) : bool :=
  if StartsWith url "storagebox://" then true
  else if StartsWith url "webdav://" || StartsWith url "webdavs://" then true
  else if (StartsWith url "https://" || StartsWith url "http://")
          && negb (find url ".your-storagebox.de/" 0 =? npos) then true
  else false.

(** [WebDAVFileSystem::CanHandleFile] *)
Definition CanHandleFile (fpath : string) : bool := IsWebDAVUrl fpath.

(** *** [WebDAVFileSystem::Base64Encode] *)

Definition base64_chars : string :=
  "ABCDEFGHIJKLMNOPQRSTUVWXYZabcdefghijklmnopqrstuvwxyz0123456789+/".

(** [int] arithmetic: results are kept in 32 bits, two's complement. *)
Definition int32 (z : Z) : Z := ((z + 2 ^ 31) mod 2 ^ 32 - 2 ^ 31)%Z.

(** [base64_chars[i]]. *)
Definition base64_char (i : Z) : ascii :=
  match String.get (Z.to_nat i) base64_chars with
  | Some c => c
  | None => "000"%char
  end.

(** The inner loop [while (valb >= 0)]: it pushes the six bits of [val]
    from bit [valb] on and lowers [valb] by 6; [fuel] bounds the rounds. *)
Fixpoint push_sextets (fuel : nat) (val valb : Z) (result : string)
    : string * Z :=
  match fuel with
  | O => (result, valb)
  | S fuel' =>
      if (valb >=? 0)%Z then
        push_sextets fuel' val (valb - 6)%Z
          (result +:+ String (base64_char (Z.land (Z.shiftr val valb) 63)) "")
      else (result, valb)
  end.

(** The loop over the bytes of the input. *)
Fixpoint encode_bytes (input : string) (val valb : Z) (result : string)
    : Z * Z * string :=
  match input with
  | EmptyString => (val, valb, result)
  | String c input' =>
      let val := int32 (int32 (Z.shiftl val 8) + Z.of_N (N_of_ascii c)) in
      let valb := (valb + 8)%Z in
      let '(result, valb) := push_sextets (S (Z.to_nat valb)) val valb result in
      encode_bytes input' val valb result
  end.

(** The closing loop [while (result.size() % 4)]. *)
Fixpoint pad_to_four (fuel : nat) (result : string) : string :=
  match fuel with
  | O => result
  | S fuel' =>
      if negb (size result mod 4 =? 0)
      then pad_to_four fuel' (result +:+ "=")
      else result
  end.

Definition Base64Encode (input : string) : string :=
  let '(val, valb, result) := encode_bytes input 0%Z (-6)%Z "" in
  let result :=
    if (valb >? -6)%Z then
      result +:+ String (base64_char
                           (Z.land (Z.shiftr (int32 (Z.shiftl val 8)) (valb + 8)) 63)) ""
    else result in
  pad_to_four 4 result.

(** *** The end of a handle *)

(** [WebDAVFileHandle::~WebDAVFileHandle] *)
Definition WebDAVFileHandle_destroy : M unit :=
  h ← get_handle;
  if using_temp_file h && negb (empty (temp_file_path h)) then
    d ← get_disk;
    put_disk (delete (temp_file_path h) d)
  else mret tt.

(** *** [WebDAVFileSystem::ListFiles] *)

Section Listing.
Variable server : list Request -> Request -> HTTPResponse.
Variable params : HTTPFSParams.
Variable Split : string -> string -> list string.
Variable duckdb_Glob : string -> string -> bool.

(** [ListFiles]: what it returns, and the calls of [callback] it made, in
    order, each with the path and the flag it was given. *)
Definition ListFiles (directory : string) (opener : option FileOpener)
    : M (bool * list (string * bool)) :=
  let trimmed_dir :=
    if EndsWith directory "/"
    then substr directory 0 (wrap64 (size directory + (2 ^ 64 - 1)))
    else directory in
  glob_res ← Glob server params Split duckdb_Glob (trimmed_dir +:+ "/**") opener;
  match glob_res with
  | [] => mret (false, [])
  | _ :: _ => mret (true, map (fun file => (file, false)) glob_res)
  end.

End Listing.

(** *** Creating directories through an open handle *)

Section WithHandle.
Variable server : list Request -> Request -> HTTPResponse.

(** [WebDAVFileSystem::CreateDirectoryWithHandle]; the handle only lends
    its credentials to the request. *)
Definition CreateDirectoryWithHandle (directory : string) : M unit :=
  http_url ←
    (if StartsWith directory "http://" || StartsWith directory "https://"
     then mret directory
     else
       parsed_url ← lift (ParseUrl directory);
       mret (GetHTTPUrl parsed_url));
  let http_url :=
    if negb (EndsWith http_url "/") then http_url +:+ "/" else http_url in
  response ← send server (MkcolRequest http_url);
  if negb (is_created response) then
    if status response =? 405 then mret tt
    else if status response =? 404 then mret tt
    else if status response =? 507
    then throw (IOException (storage_full_message directory))
    else throw (IOException (create_failed_message directory (status response)))
  else mret tt.

(** The loop over the components in
    [CreateDirectoryRecursiveWithHandle]. *)
Fixpoint create_each_level_with_handle (protocol_prefix accumulated_path : string)
    (path_parts : list string) : M unit :=
  match path_parts with
  | [] => mret tt
  | part :: rest =>
      let accumulated_path := accumulated_path +:+ ("/" +:+ part) in
      let full_path := protocol_prefix +:+ accumulated_path in
      try_catch is_IOException (CreateDirectoryWithHandle full_path)
        (fun _ => mret tt);;
      create_each_level_with_handle protocol_prefix accumulated_path rest
  end.

(** [WebDAVFileSystem::CreateDirectoryRecursiveWithHandle] *)
Definition CreateDirectoryRecursiveWithHandle (directory : string) : M unit :=
  let directory_to_use := directory in
  if StartsWith directory "http://" || StartsWith directory "https://" then
    CreateDirectoryWithHandle directory_to_use
  else
    parsed_url ← lift (ParseUrl directory_to_use);
    let path_parts := split_components (url_path parsed_url) "" [] in
    let protocol_prefix := original_prefix directory parsed_url in
    create_each_level_with_handle protocol_prefix "" path_parts.

End WithHandle.

End WebDAV.

(* ===================================================================== *)
(** ** Notions used to state the properties *)
(* ===================================================================== *)

Module WebDAVSpec.
Import StdString WebDAV.

(** The threshold [Write] compares with, in bytes. *)
Definition streaming_threshold (h : WebDAVFileHandle) : N :=
  wrap64 (webdav_streaming_threshold_mb (http_params h) * 1024 * 1024).

(** The location [Write] insists on. *)
Definition expected_location (h : WebDAVFileHandle) : N :=
  if using_temp_file h then file_offset h else size (write_buffer h).

Definition non_sequential_message (expected location : N) : string :=
  "WebDAV does not support non-sequential writes. Expected location "
  +:+ to_string expected +:+ " but got " +:+ to_string location.

(** The handle a successful open for writing yields. *)
Definition opened_for_writing (p : string) (params : HTTPFSParams) : WebDAVFileHandle :=
  mkHandle p FILE_FLAGS_WRITE params 0 "" false "" false.

(** A local disk on which [mkstemp] and [fopen] do not fail. *)
Definition reliable_disk (mkstemp : gmap string string -> option string)
    (fopen_ok : gmap string string -> string -> bool) : Prop :=
  (forall d, is_Some (mkstemp d)) /\ (forall d p, fopen_ok d p = true).

(** A call that only talks to the server: it leaves the handle and the
    local files alone and appends to the requests sent. *)
Definition remote_only {A : Type} (c : M A) : Prop :=
  forall w, wfh (c w).2 = wfh w /\ disk (c w).2 = disk w
            /\ exists l, net (c w).2 = net w ++ l.

(** A call that never exhausts the fuel of the model: it returns or
    raises. *)
Definition returns_or_raises {A : Type} (c : M A) : Prop :=
  forall w, (c w).1 <> OutOfFuel.

(** The length of the path made of the components [parts], each behind a
    ['/']. *)
Fixpoint joined_length (parts : list string) : nat :=
  match parts with
  | [] => O
  | part :: rest => S (String.length part) + joined_length rest
  end.

(** What [FlushBuffer] leaves of the handle: the buffer is cleared when it
    returns, and untouched when it raises. *)
Definition after_flush (r : result unit) (h : WebDAVFileHandle) : WebDAVFileHandle :=
  match r with
  | Ok _ => set_buffer_dirty false (set_write_buffer "" h)
  | _ => h
  end.

(** What the handle is about to upload: the staging file once spilled,
    the memory buffer before. *)
Definition upload_source (w : World) : string :=
  if using_temp_file (wfh w)
  then default "" (disk w !! temp_file_path (wfh w))
  else write_buffer (wfh w).

(** The request a commit opens with, for the URL [u] of the handle. *)
Definition first_upload (u : ParsedWebDAVUrl) (w : World) : Request :=
  if using_temp_file (wfh w)
  then PutRequestFromFile (GetHTTPUrl u) (temp_file_path (wfh w))
         (size (upload_source w)) (upload_source w)
  else PutRequest (GetHTTPUrl u) (upload_source w).

(** Sequences of writes: the buffers with their locations. *)
Fixpoint concat_buffers (ws : list (string * N)) : string :=
  match ws with
  | [] => ""
  | (buffer, _) :: ws' => buffer +:+ concat_buffers ws'
  end.

(** Every write is made at the running total of the bytes written before
    it, [start] being the total so far. *)
Fixpoint sequential_from (start : N) (ws : list (string * N)) : Prop :=
  match ws with
  | [] => True
  | (buffer, location) :: ws' =>
      location = start /\ sequential_from (start + size buffer) ws'
  end.

(** What a client does with an open handle, and the bytes the handle has
    taken: [accepted] since it was opened, [segment] since the last
    [FileSync] that returned while the handle was still in memory. *)
Inductive op : Type :=
| Op_Write (buffer : string) (location : N)
| Op_Sync.

Record Ghost : Type := mkGhost {
  accepted : string;
  segment : string
}.

Section Runs.
Variable server : list Request -> Request -> HTTPResponse.
Variable params : HTTPFSParams.
Variable mkstemp : gmap string string -> option string.
Variable fopen_ok : gmap string string -> string -> bool.

Fixpoint write_all (ws : list (string * N)) : M unit :=
  match ws with
  | [] => mret tt
  | (buffer, location) :: ws' =>
      Write mkstemp fopen_ok buffer location;; write_all ws'
  end.

Definition step (s : World * Ghost) (o : op) : World * Ghost :=
  let '(w, g) := s in
  match o with
  | Op_Write buffer location =>
      match Write mkstemp fopen_ok buffer location w with
      | (Ok _, w') =>
          (w', mkGhost (accepted g +:+ buffer) (segment g +:+ buffer))
      | (_, w') => (w', g)
      end
  | Op_Sync =>
      match FileSync server params fopen_ok w with
      | (Ok _, w') =>
          (w', if using_temp_file (wfh w) then g else mkGhost (accepted g) "")
      | (_, w') => (w', g)
      end
  end.

Definition run (ops : list op) (s : World * Ghost) : World * Ghost :=
  fold_left step ops s.

End Runs.

(** The state of a handle for [p] against what it has taken. *)
Definition consistent (p : string) (params : HTTPFSParams)
    (w : World) (g : Ghost) : Prop :=
  path (wfh w) = p /\ http_params (wfh w) = params
  /\ file_offset (wfh w) = size (accepted g)
  /\ size (segment g) <= size (accepted g)
  /\ using_temp_file (wfh w) = (streaming_threshold (wfh w) <? size (segment g))
  /\ (using_temp_file (wfh w) = false ->
      write_buffer (wfh w) = segment g
      /\ (buffer_dirty (wfh w) = false -> segment g = ""))
  /\ (using_temp_file (wfh w) = true ->
      write_buffer (wfh w) = ""
      /\ disk w !! temp_file_path (wfh w) = Some (segment g)).


(** The URL [CreateDirectory] sends its [MKCOL] to. *)
Definition mkcol_url (u : ParsedWebDAVUrl) : string :=
  if negb (EndsWith (GetHTTPUrl u) "/") then GetHTTPUrl u +:+ "/"
  else GetHTTPUrl u.

(** The test [CreateDirectoryRecursive] applies to the message of an
    error to tell a quota error from the others. *)
Definition reads_as_quota_error (error_msg : string) : bool :=
  negb (find error_msg "Storage is full" 0 =? npos)
  || negb (find error_msg "insufficient storage" 0 =? npos).

(** Whether the path [file_path] matches [pattern], both cut at ['/'], with
    DuckDB's helpers as modelled. *)
Definition glob_matches (pattern file_path : string) : bool :=
  Match duckdb_Glob_model (StringUtil_Split file_path "/")
    (StringUtil_Split pattern "/").

(** *** A concrete environment, for running the model *)

(** A server that answers every request with [st] and an empty body. *)
Definition always (st : N) : list Request -> Request -> HTTPResponse :=
  fun _ _ => mkResponse st "".

Definition temp_name : string := "/tmp/webdav_upload_a1B2c3".

(** A disk on which [mkstemp] yields [temp_name] and [fopen] succeeds. *)
Definition mkstemp_fixed : gmap string string -> option string :=
  fun _ => Some temp_name.
Definition fopen_fine : gmap string string -> string -> bool :=
  fun _ _ => true.

(** The default settings, and the same with the threshold set to 0 MB so
    that the first byte spills. *)
Definition default_params : HTTPFSParams := mkParams 50 3 false.
Definition spill_at_once : HTTPFSParams := mkParams 0 3 false.

Definition file_url : string := "http://host/dir/file.csv".
Definition file_url_parsed : ParsedWebDAVUrl := mkParsed "http" "host" "/dir/file.csv".

(** A server on which the parent collection is missing until it has been
    created: uploads are answered 404 before the first [MkcolRequest] and
    201 after it. *)
Definition parent_missing : list Request -> Request -> HTTPResponse :=
  fun history r =>
    match r with
    | PutRequest _ _ | PutRequestFromFile _ _ _ _ =>
        if existsb (fun q => match q with MkcolRequest _ => true | _ => false end)
             history
        then mkResponse 201 "" else mkResponse 404 ""
    | MkcolRequest _ => mkResponse 201 ""
    | _ => mkResponse 200 ""
    end.

(** A freshly opened handle on [file_url] with nothing on disk or sent. *)
Definition fresh (params : HTTPFSParams) : World :=
  mkWorld (opened_for_writing file_url params) ∅ [].

(** *** Base64 as RFC 4648 lays it out *)

Definition byte_value (c : ascii) : Z := Z.of_N (N_of_ascii c).

(** The encoding of RFC 4648, three bytes at a time: each group gives
    four characters, a last group of one or two bytes gives two or three
    characters and is filled up with ['=']. *)
Fixpoint base64_rfc4648 (input : string) : string :=
  match input with
  | EmptyString => ""
  | String a EmptyString =>
      String (base64_char (byte_value a / 4))
        (String (base64_char (byte_value a mod 4 * 16)) "==")
  | String a (String b EmptyString) =>
      String (base64_char (byte_value a / 4))
        (String (base64_char (byte_value a mod 4 * 16 + byte_value b / 16))
           (String (base64_char (byte_value b mod 16 * 4)) "="))
  | String a (String b (String c rest)) =>
      String (base64_char (byte_value a / 4))
        (String (base64_char (byte_value a mod 4 * 16 + byte_value b / 16))
           (String (base64_char (byte_value b mod 16 * 4 + byte_value c / 64))
              (String (base64_char (byte_value c mod 64))
                 (base64_rfc4648 rest))))
  end%Z.

(** Reading an encoding back: the place of a character in the alphabet,
    and the bytes of each group of four characters. *)
Fixpoint index_in (c : ascii) (chars : string) (i : Z) : option Z :=
  match chars with
  | EmptyString => None
  | String a chars' => if Ascii.eqb a c then Some i else index_in c chars' (i + 1)%Z
  end.

Definition base64_index (c : ascii) : option Z := index_in c base64_chars 0%Z.

Definition byte_of (z : Z) : ascii := ascii_of_N (Z.to_N z).

Fixpoint Base64Decode (encoded : string) : option string :=
  match encoded with
  | EmptyString => Some ""
  | String c1 (String c2 (String c3 (String c4 rest))) =>
      match base64_index c1, base64_index c2 with
      | Some i1, Some i2 =>
          let b1 := byte_of (i1 * 4 + i2 / 16) in
          if Ascii.eqb c3 "=" then
            if Ascii.eqb c4 "=" && empty rest then Some (String b1 "") else None
          else
            match base64_index c3 with
            | Some i3 =>
                let b2 := byte_of (i2 mod 16 * 16 + i3 / 4) in
                if Ascii.eqb c4 "=" then
                  if empty rest then Some (String b1 (String b2 "")) else None
                else
                  match base64_index c4, Base64Decode rest with
                  | Some i4, Some bytes =>
                      Some (String b1 (String b2
                              (String (byte_of (i3 mod 4 * 64 + i4)) bytes)))
                  | _, _ => None
                  end
            | None => None
            end
      | _, _ => None
      end
  | _ => None
  end%Z.

(** *** What a handle still has to upload *)

(** The bytes a handle holds for the next commit: the staging file and
    what is left in the memory buffer once spilled, the memory buffer
    before. *)
Definition pending_bytes (w : World) : string :=
  if using_temp_file (wfh w)
  then default "" (disk w !! temp_file_path (wfh w)) +:+ write_buffer (wfh w)
  else write_buffer (wfh w).

(** [w'] is [w] up to the memory buffer, its dirty flag, the staging file
    and the requests sent. *)
Definition same_handle (w w' : World) : Prop :=
  path (wfh w') = path (wfh w)
  /\ flags (wfh w') = flags (wfh w)
  /\ http_params (wfh w') = http_params (wfh w)
  /\ file_offset (wfh w') = file_offset (wfh w)
  /\ temp_file_path (wfh w') = temp_file_path (wfh w)
  /\ using_temp_file (wfh w') = using_temp_file (wfh w)
  /\ forall p, p <> temp_file_path (wfh w) -> disk w' !! p = disk w !! p.

(** *** The levels of a directory *)

(** The requests [CreateDirectoryRecursive] makes when no level needs a
    second attempt: for each level, shortest first, the probe of the
    handle and the [MKCOL]. *)
Fixpoint level_requests (proto host accumulated : string) (parts : list string)
    : list Request :=
  match parts with
  | [] => []
  | part :: rest =>
      let accumulated := accumulated +:+ ("/" +:+ part) in
      let u := mkParsed proto host accumulated in
      InitializeRequest (GetHTTPUrl u) :: MkcolRequest (mkcol_url u)
        :: level_requests proto host accumulated rest
  end.

(** A server that takes every [MKCOL]: it answers that the collection was
    created, or that it exists already. *)
Definition takes_every_mkcol (server : list Request -> Request -> HTTPResponse)
    : Prop :=
  forall history url,
    is_created (server history (MkcolRequest url)) = true
    \/ status (server history (MkcolRequest url)) = 405.

(** *** What a call returns *)

(** Every value the call [c] returns satisfies [P]. *)
Definition returns_only {A : Type} (P : A -> Prop) (c : M A) : Prop :=
  forall w a, (c w).1 = Ok a -> P a.

(** One [MKCOL] per level, shortest first. *)
Fixpoint level_mkcols (proto host accumulated : string) (parts : list string)
    : list Request :=
  match parts with
  | [] => []
  | part :: rest =>
      let accumulated := accumulated +:+ ("/" +:+ part) in
      MkcolRequest (mkcol_url (mkParsed proto host accumulated))
        :: level_mkcols proto host accumulated rest
  end.

End WebDAVSpec.

(* ===================================================================== *)
(** * Properties *)
(* ===================================================================== *)

Module StdStringFacts.
Import StdString.

Lemma str_app_cons (x : ascii) (a b : string) : String x a +:+ b = String x (a +:+ b).
Proof. reflexivity. Qed.

Lemma str_app_nil_l (b : string) : "" +:+ b = b.
Proof. reflexivity. Qed.

Lemma str_app_assoc (a b c : string) : (a +:+ b) +:+ c = a +:+ (b +:+ c).
Proof.
  induction a as [|x a IH]; [reflexivity|].
  rewrite !str_app_cons. now rewrite IH.
Qed.

Lemma str_app_empty_r (a : string) : a +:+ "" = a.
Proof.
  induction a as [|x a IH]; [reflexivity|].
  rewrite str_app_cons. now rewrite IH.
Qed.

Lemma size_app (a b : string) : size (a +:+ b) = size a + size b.
Proof.
  unfold size. induction a as [|x a IH].
  - rewrite str_app_nil_l. simpl. lia.
  - rewrite str_app_cons. simpl String.length. rewrite !Nat2N.inj_succ, IH. lia.
Qed.

Lemma empty_spec (s : string) : empty s = true <-> s = "".
Proof. destruct s; simpl; split; congruence. Qed.

Lemma size_empty : size "" = 0.
Proof. reflexivity. Qed.

Lemma wrap64_small (n : N) : n < 2 ^ 64 -> wrap64 n = n.
Proof. intros H. unfold wrap64. now apply N.mod_small. Qed.

Lemma size_cons (c : ascii) (s : string) : size (String c s) = 1 + size s.
Proof. unfold size. simpl String.length. lia. Qed.

(** *** Searching *)






Lemma substring_prefix (x y : string) :
  String.substring 0 (String.length x) (x +:+ y) = x.
Proof.
  induction x as [|a x IH].
  - rewrite str_app_nil_l. destruct y; reflexivity.
  - rewrite str_app_cons. simpl. now rewrite IH.
Qed.

Lemma substr_prefix (x y : string) : substr (x +:+ y) 0 (size x) = x.
Proof.
  unfold substr.
  assert (H : (size (x +:+ y) <? 0) = false) by (apply N.ltb_ge; lia).
  rewrite H, N.sub_0_r, size_app.
  replace (N.min (size x) (size x + size y)) with (size x) by lia.
  unfold size. rewrite Nat2N.id. apply substring_prefix.
Qed.

End StdStringFacts.

(* ===================================================================== *)
(** ** The retry loop *)
(* ===================================================================== *)

Module CurlClientFacts.
Import StdString CurlClient.

Lemma retryable_not_succeeded (t : Transfer) :
  retryable t = true -> succeeded t = false.
Proof.
  unfold retryable, succeeded.
  destruct (is_CURLE_OK (t_res t)), (IsRetryableHTTPStatus (t_response_code t));
    simpl; intros H; try reflexivity; discriminate H.
Qed.

Section Loop.
Variable max_retries : Z.
Variable execute : nat -> Transfer.





End Loop.

(** With [max_retries >= 0] the loop always assigns [res] before it
    returns. *)
Lemma retry_loop_returns (max_retries : Z) (execute : nat -> Transfer) (fuel : nat) :
  forall (attempt : Z) (ri : RequestInfo) (n : nat) (slept : list Z),
  (attempt <= max_retries)%Z ->
  (Z.to_nat (max_retries - attempt) < fuel)%nat ->
  returned (retry_loop max_retries execute fuel attempt ri n slept) <> None.
Proof.
  induction fuel as [|fuel IH]; intros attempt ri n slept Hle Hfuel; [lia|].
  simpl retry_loop.
  assert (Hleb : (attempt <=? max_retries)%Z = true) by (apply Z.leb_le; lia).
  rewrite Hleb.
  repeat match goal with
         | |- context [if ?b then _ else _] => destruct b eqn:?
         end; cbn [returned]; try discriminate.
  apply IH; lia.
Qed.





(* ===================================================================== *)
(** ** More on the retry loop: waits, bodies, and a negative limit *)
(* ===================================================================== *)

(** The waits of a run that retries to the end, from attempt [attempt]
    on. *)
Lemma retry_loop_waits (max_retries : Z) (execute : nat -> Transfer) (fuel : nat) :
  forall (attempt : Z) (ri : RequestInfo) (n : nat) (slept : list Z),
  (forall i, retryable (execute i) = true) ->
  (0 <= attempt <= max_retries)%Z ->
  (Z.to_nat (max_retries - attempt) < fuel)%nat ->
  let k := Z.to_nat (max_retries - attempt) in
  let r := retry_loop max_retries execute fuel attempt ri n slept in
  sleeps r
  = slept ++ map (fun i => backoff_delay_ms (attempt + Z.of_nat i)) (seq 0 k)
  /\ body (info r)
     = match k with
       | O => body ri +:+ t_received (execute n)
       | S _ => t_received (execute (n + k)%nat)
       end.
Proof.
  induction fuel as [|fuel IH]; intros attempt ri n slept Hall Hrange Hfuel; [lia|].
  cbn zeta. simpl retry_loop.
  assert (Hle : (attempt <=? max_retries)%Z = true) by (apply Z.leb_le; lia).
  rewrite Hle.
  pose proof (retryable_not_succeeded _ (Hall n)) as Hns.
  unfold succeeded in Hns. cbn [response_code]. rewrite Hns.
  pose proof (Hall n) as Hr. unfold retryable in Hr.
  assert (Hsr : (if negb (is_CURLE_OK (t_res (execute n)))
                    && IsRetryableCurlError (t_res (execute n)) then true
                 else if IsRetryableHTTPStatus (t_response_code (execute n))
                 then true else false) = true).
  { destruct (negb (is_CURLE_OK (t_res (execute n)))
              && IsRetryableCurlError (t_res (execute n))); [reflexivity|].
    simpl in Hr. now rewrite Hr. }
  rewrite Hsr.
  destruct (attempt >=? max_retries)%Z eqn:Hge.
  - assert (attempt = max_retries) by lia. subst attempt.
    replace (Z.to_nat (max_retries - max_retries)) with 0%nat by lia.
    cbn [sleeps info body seq map]. now rewrite app_nil_r.
  - assert (Hlt : (attempt < max_retries)%Z) by lia.
    specialize (IH (attempt + 1)%Z (mkRequestInfo "" 0) (S n)
                  (slept ++ [backoff_delay_ms attempt]) Hall).
    cbn zeta in IH. destruct IH as (A & B); [lia | lia |].
    replace (Z.to_nat (max_retries - attempt))
      with (S (Z.to_nat (max_retries - (attempt + 1)))) by lia.
    rewrite A, B. split.
    + rewrite <- app_assoc. f_equal. cbn [seq map app].
      rewrite Z.add_0_r. f_equal.
      rewrite <- seq_shift, map_map. apply map_ext. intros i. f_equal. lia.
    + cbn [body].
      destruct (Z.to_nat (max_retries - (attempt + 1))) as [|k'].
      * replace (n + 1)%nat with (S n) by lia. reflexivity.
      * do 2 f_equal. lia.
Qed.

(** X24.  A client whose transfers all fail in a way worth retrying
    waits before each retry and only then: with [max_retries] retries it
    sleeps [max_retries] times, for 100 ms doubled at each retry and
    never more than 5 s, and what it returns as the body is what the last
    transfer received, nothing of the earlier ones. *)
Theorem retries_wait_and_start_afresh
    (max_retries : Z) (execute : nat -> Transfer) (ri : RequestInfo) :
  (forall i, retryable (execute i) = true) ->
  (1 <= max_retries < 25)%Z ->
  sleeps (ExecuteWithRetry max_retries execute ri)
  = map (fun i => Z.min 5000 (100 * 2 ^ Z.of_nat i)) (seq 0 (Z.to_nat max_retries))
  /\ body (info (ExecuteWithRetry max_retries execute ri))
     = t_received (execute (Z.to_nat max_retries)).
Proof.
  intros Hall Hm. unfold ExecuteWithRetry.
  destruct (retry_loop_waits max_retries execute (S (Z.to_nat (max_retries + 1)))
              0%Z ri 0%nat [] Hall) as (A & B); [lia | lia |].
  cbn zeta in A, B. rewrite Z.sub_0_r in A, B. rewrite A, B. split.
  - cbn [app]. apply map_ext. intros i. rewrite Z.add_0_l.
    unfold backoff_delay_ms.
    destruct (100 * 2 ^ Z.of_nat i >? 5000)%Z eqn:E; lia.
  - destruct (Z.to_nat max_retries) eqn:E; [lia | reflexivity].
Qed.

Example retries_wait_and_start_afresh_witness :
  sleeps (ExecuteWithRetry 3 always_503 (mkRequestInfo "" 0))
  = [100; 200; 400]%Z.
Proof.
  refine (proj1 (retries_wait_and_start_afresh 3 always_503 (mkRequestInfo "" 0)
                   _ _)).
  - intros i. reflexivity.
  - lia.
Defined.

(** X25.  With a negative limit the loop is not entered: the request is
    never executed, nothing is waited for, and the result code the
    function returns was never assigned. *)
Theorem a_negative_limit_sends_nothing
    (max_retries : Z) (execute : nat -> Transfer) (ri : RequestInfo) :
  (max_retries < 0)%Z ->
  ExecuteWithRetry max_retries execute ri = mkRun None ri 0 [].
Proof.
  intros H. unfold ExecuteWithRetry.
  replace (Z.to_nat (max_retries + 1)) with 0%nat by lia.
  cbn [retry_loop].
  assert (E : (0 <=? max_retries)%Z = false) by (apply Z.leb_gt; exact H).
  now rewrite E.
Qed.

Example a_negative_limit_sends_nothing_witness :
  ExecuteWithRetry (-1) always_503 (mkRequestInfo "" 0)
  = mkRun None (mkRequestInfo "" 0) 0 [].
Proof.
  apply a_negative_limit_sends_nothing. reflexivity.
Defined.

End CurlClientFacts.

(* ===================================================================== *)
(** ** The write buffer and the commit *)
(* ===================================================================== *)

Module WebDAVFacts.
Import StdString StdStringFacts WebDAV WebDAVSpec.

(** Runs the state-passing operations of a call on the world at hand. *)
Ltac run_M :=
  cbv [mbind mret M_bind M_ret throw lift get_handle modify_handle get_disk
       put_disk out_of_fuel];
  cbn [fst snd wfh disk net set_wfh set_disk set_net
       path flags http_params file_offset write_buffer buffer_dirty
       temp_file_path using_temp_file set_file_offset set_write_buffer
       set_buffer_dirty set_temp_file_path set_using_temp_file].

(** *** [Write], case by case *)

Section WriteFacts.
Variable mkstemp : gmap string string -> option string.
Variable fopen_ok : gmap string string -> string -> bool.

Lemma Write_rejected (buffer : string) (location : N) (w : World) :
  location <> expected_location (wfh w) ->
  Write mkstemp fopen_ok buffer location w
  = (Throw (IOException
              (non_sequential_message (expected_location (wfh w)) location)), w).
Proof.
  intros Hne. unfold Write. run_M.
  fold (expected_location (wfh w)).
  apply N.eqb_neq in Hne. rewrite Hne. reflexivity.
Qed.

Hypothesis mkstemp_ok : forall d, is_Some (mkstemp d).
Hypothesis fopen_always : forall d p, fopen_ok d p = true.

Lemma Write_in_memory (buffer : string) (w : World) :
  using_temp_file (wfh w) = false ->
  size (write_buffer (wfh w)) + size buffer < 2 ^ 64 ->
  size (write_buffer (wfh w)) + size buffer <= streaming_threshold (wfh w) ->
  Write mkstemp fopen_ok buffer (size (write_buffer (wfh w))) w
  = (Ok tt,
     set_wfh (set_file_offset (wrap64 (file_offset (wfh w) + size buffer))
               (set_buffer_dirty true
                 (set_write_buffer (write_buffer (wfh w) +:+ buffer) (wfh w)))) w).
Proof.
  intros Hm Hlt Hthr. unfold Write. run_M. rewrite Hm.
  rewrite N.eqb_refl. cbn [negb andb].
  fold (streaming_threshold (wfh w)).
  assert (Hw : wrap64 (size (write_buffer (wfh w)) + size buffer)
               = size (write_buffer (wfh w)) + size buffer).
  { unfold wrap64. apply N.mod_small. exact Hlt. }
  rewrite Hw.
  assert (Hnb : (streaming_threshold (wfh w)
                 <? size (write_buffer (wfh w)) + size buffer) = false)
    by (apply N.ltb_ge; exact Hthr).
  rewrite Hnb. run_M. rewrite Hm. run_M. reflexivity.
Qed.

Lemma Write_spills (buffer : string) (w : World) :
  using_temp_file (wfh w) = false ->
  size (write_buffer (wfh w)) + size buffer < 2 ^ 64 ->
  streaming_threshold (wfh w) < size (write_buffer (wfh w)) + size buffer ->
  exists temp_template,
    mkstemp (disk w) = Some temp_template /\
    Write mkstemp fopen_ok buffer (size (write_buffer (wfh w))) w
    = (Ok tt,
       set_disk (<[temp_template := write_buffer (wfh w) +:+ buffer]> (disk w))
         (set_wfh (set_file_offset (wrap64 (file_offset (wfh w) + size buffer))
                    (set_buffer_dirty true
                      (set_write_buffer ""
                        (set_using_temp_file true
                          (set_temp_file_path temp_template (wfh w)))))) w)).
Proof.
  intros Hm Hlt Hthr.
  destruct (mkstemp_ok (disk w)) as [t Ht]. exists t. split; [exact Ht|].
  unfold Write. run_M. rewrite Hm.
  rewrite N.eqb_refl. cbn [negb andb].
  fold (streaming_threshold (wfh w)).
  assert (Hw : wrap64 (size (write_buffer (wfh w)) + size buffer)
               = size (write_buffer (wfh w)) + size buffer).
  { unfold wrap64. apply N.mod_small. exact Hlt. }
  rewrite Hw.
  assert (Hnb : (streaming_threshold (wfh w)
                 <? size (write_buffer (wfh w)) + size buffer) = true)
    by (apply N.ltb_lt; exact Hthr).
  rewrite Hnb. run_M. rewrite Ht. run_M.
  rewrite !fopen_always. cbn [negb]. run_M.
  rewrite !fopen_always. cbn [negb]. run_M.
  rewrite lookup_insert_eq. cbn [default].
  rewrite !insert_insert_eq.
  unfold set_disk, set_wfh. cbn. reflexivity.
Qed.

Lemma Write_appends_to_file (buffer : string) (w : World) :
  using_temp_file (wfh w) = true ->
  Write mkstemp fopen_ok buffer (file_offset (wfh w)) w
  = (Ok tt,
     set_disk (<[temp_file_path (wfh w) :=
                   default "" (disk w !! temp_file_path (wfh w)) +:+ buffer]> (disk w))
       (set_wfh (set_file_offset (wrap64 (file_offset (wfh w) + size buffer))
                  (set_buffer_dirty true (wfh w))) w)).
Proof.
  intros Hm. unfold Write. run_M. rewrite Hm.
  rewrite N.eqb_refl. cbn [negb andb]. run_M. rewrite Hm. run_M.
  rewrite fopen_always. cbn [negb]. run_M.
  unfold set_disk, set_wfh. cbn. reflexivity.
Qed.

End WriteFacts.

(** *** Calls that only talk to the server *)

Lemma remote_only_ret {A : Type} (a : A) : remote_only (mret a).
Proof. intros w. cbn. repeat split; try reflexivity. exists []. now rewrite app_nil_r. Qed.

Lemma remote_only_throw {A : Type} (e : exception) : remote_only (@throw A e).
Proof. intros w. cbn. repeat split; try reflexivity. exists []. now rewrite app_nil_r. Qed.

Lemma remote_only_out_of_fuel {A : Type} : remote_only (@out_of_fuel A).
Proof. intros w. cbn. repeat split; try reflexivity. exists []. now rewrite app_nil_r. Qed.

Lemma remote_only_lift {A : Type} (r : result A) : remote_only (lift r).
Proof. intros w. cbn. repeat split; try reflexivity. exists []. now rewrite app_nil_r. Qed.

Lemma remote_only_bind {A B : Type} (c : M A) (f : A -> M B) :
  remote_only c -> (forall a, remote_only (f a)) -> remote_only (c ≫= f).
Proof.
  intros Hc Hf w. unfold mbind, M_bind.
  destruct (Hc w) as (H1 & H2 & l & H3).
  destruct (c w) as [[a|e|] w']; cbn [snd] in *.
  - destruct (Hf a w') as (G1 & G2 & l' & G3).
    rewrite G1, G2, G3, H1, H2, H3. repeat split; try reflexivity.
    exists (l ++ l'). now rewrite app_assoc.
  - repeat split; eauto.
  - repeat split; eauto.
Qed.

Lemma remote_only_try_catch {A : Type} (catches : exception -> bool)
    (c : M A) (handler : exception -> M A) :
  remote_only c -> (forall e, remote_only (handler e)) ->
  remote_only (try_catch catches c handler).
Proof.
  intros Hc Hh w. unfold try_catch.
  destruct (Hc w) as (H1 & H2 & l & H3).
  destruct (c w) as [[a|e|] w']; cbn [snd] in *.
  - repeat split; eauto.
  - destruct (catches e); cbn [snd].
    + destruct (Hh e w') as (G1 & G2 & l' & G3).
      rewrite G1, G2, G3, H1, H2, H3. repeat split; try reflexivity.
      exists (l ++ l'). now rewrite app_assoc.
    + repeat split; eauto.
  - repeat split; eauto.
Qed.

Lemma remote_only_send (server : list Request -> Request -> HTTPResponse)
    (r : Request) :
  remote_only (send server r).
Proof. intros w. cbn. repeat split; try reflexivity. now exists [r]. Qed.

(** One step through a call built from the operations above. *)
Ltac remote_only_step :=
  first
    [ apply remote_only_ret | apply remote_only_throw
    | apply remote_only_out_of_fuel | apply remote_only_lift
    | apply remote_only_send
    | apply remote_only_bind; [|intros ?]
    | apply remote_only_try_catch; [|intros ?]
    | match goal with
      | |- remote_only (if ?b then _ else _) => destruct b
      | |- remote_only (match ?x with _ => _ end) => destruct x
      end ].

Section Remote.
Variable server : list Request -> Request -> HTTPResponse.
Variable params : HTTPFSParams.

Lemma remote_only_CreateHandle (file_path : string) (fl : FileOpenFlags)
    (opener : option FileOpener) :
  remote_only (CreateHandle params file_path fl opener).
Proof. unfold CreateHandle. repeat remote_only_step. Qed.

Lemma remote_only_Initialize (h : WebDAVFileHandle) :
  remote_only (Initialize server h).
Proof. unfold Initialize. repeat remote_only_step. Qed.

Lemma remote_only_create_each_level
    (create : string -> option FileOpener -> M unit)
    (protocol_prefix : string) (path_parts : list string)
    (opener : option FileOpener) :
  (forall d o, remote_only (create d o)) ->
  forall accumulated_path,
  remote_only (create_each_level create protocol_prefix accumulated_path
                 path_parts opener).
Proof.
  intros Hcreate. induction path_parts as [|part rest IH]; intros acc; simpl.
  - apply remote_only_ret.
  - apply remote_only_bind; [|intros ?; apply IH].
    apply remote_only_try_catch; [apply Hcreate|].
    intros e. repeat remote_only_step.
Qed.

Lemma remote_only_CreateDirectoryRecursive_with
    (create : string -> option FileOpener -> M unit)
    (directory : string) (opener : option FileOpener) :
  (forall d o, remote_only (create d o)) ->
  remote_only (CreateDirectoryRecursive_with create directory opener).
Proof.
  intros Hcreate. unfold CreateDirectoryRecursive_with.
  apply remote_only_bind; [apply remote_only_lift|]. intros u.
  now apply remote_only_create_each_level.
Qed.

Lemma remote_only_CreateDirectory (fuel : nat) :
  forall directory opener,
  remote_only (CreateDirectory server params fuel directory opener).
Proof.
  induction fuel as [|fuel IH]; intros directory opener; simpl.
  - apply remote_only_out_of_fuel.
  - apply remote_only_bind; [apply remote_only_lift|]. intros u.
    apply remote_only_bind; [apply remote_only_CreateHandle|]. intros h.
    apply remote_only_bind.
    { apply remote_only_try_catch; [apply remote_only_Initialize|].
      intros; apply remote_only_ret. }
    intros _.
    apply remote_only_bind; [apply remote_only_send|]. intros response.
    destruct (negb (is_created response)); [|apply remote_only_ret].
    apply remote_only_bind; [repeat remote_only_step|]. intros _.
    apply remote_only_bind.
    { repeat first
        [ apply remote_only_CreateDirectoryRecursive_with; [exact IH]
        | remote_only_step ]. }
    intros response'. repeat remote_only_step.
Qed.

Lemma remote_only_CreateDirectoryRecursive (directory : string)
    (opener : option FileOpener) :
  remote_only (CreateDirectoryRecursive server params directory opener).
Proof.
  apply remote_only_CreateDirectoryRecursive_with.
  apply remote_only_CreateDirectory.
Qed.

Lemma remote_only_retry_with_parents (h : WebDAVFileHandle) (http_url : string)
    (response : HTTPResponse) :
  remote_only (retry_with_parents server params h http_url response).
Proof.
  unfold retry_with_parents.
  repeat first
    [ apply remote_only_CreateDirectoryRecursive
    | intros w; cbn; repeat split; try reflexivity; exists []; now rewrite app_nil_r
    | remote_only_step ].
Qed.


(** *** [FlushBuffer] *)

Variable mkstemp : gmap string string -> option string.
Variable fopen_ok : gmap string string -> string -> bool.

Lemma FlushBuffer_nothing_to_flush (w : World) :
  buffer_dirty (wfh w) = false -> using_temp_file (wfh w) = false ->
  FlushBuffer server params fopen_ok w = (Ok tt, w).
Proof.
  intros Hd Hu. unfold FlushBuffer. run_M. rewrite Hd, Hu. reflexivity.
Qed.

(** The commit once the first upload has been answered. *)
Lemma FlushBuffer_tail (h : WebDAVFileHandle) (http_url : string)
    (response : HTTPResponse) (w : World) :
  wfh w = h ->
  exists r w' rest,
    (response' ← retry_with_parents server params h http_url response;
     if negb (is_written response') then
       throw (IOException ("Failed to write to file " +:+ path h +:+ ": HTTP "
                           +:+ to_string (status response')))
     else
       modify_handle (set_write_buffer "");;
       modify_handle (set_buffer_dirty false)) w = (r, w')
    /\ net w' = net w ++ rest /\ disk w' = disk w
    /\ wfh w' = after_flush r h
    /\ (wants_parent response = false -> rest = []).
Proof.
  intros Hh. unfold mbind at 1. unfold M_bind at 1.
  destruct (wants_parent response) eqn:Hwp.
  - destruct (remote_only_retry_with_parents h http_url response w)
      as (H1 & H2 & l & H3).
    destruct (retry_with_parents server params h http_url response w)
      as [[response'|e|] w1]; cbn [snd] in *.
    + destruct (negb (is_written response')).
      * eexists _, _, l. split; [reflexivity|]. cbn.
        rewrite H1, H2, H3, Hh. repeat split; auto; discriminate.
      * eexists _, _, l. run_M. split; [reflexivity|]. cbn.
        rewrite H1, H2, H3, Hh. repeat split; auto; discriminate.
    + eexists _, _, l. split; [reflexivity|]. cbn.
      rewrite H1, H2, H3, Hh. repeat split; auto; discriminate.
    + eexists _, _, l. split; [reflexivity|]. cbn.
      rewrite H1, H2, H3, Hh. repeat split; auto; discriminate.
  - unfold retry_with_parents. rewrite Hwp. run_M.
    destruct (negb (is_written response)).
    + eexists _, _, []. split; [reflexivity|]. cbn.
      rewrite app_nil_r, Hh. repeat split; auto.
    + eexists _, _, []. split; [reflexivity|]. cbn.
      rewrite app_nil_r, Hh. repeat split; auto.
Qed.

Lemma FlushBuffer_from_memory (w : World) (u : ParsedWebDAVUrl) :
  using_temp_file (wfh w) = false -> buffer_dirty (wfh w) = true ->
  ParseUrl (path (wfh w)) = Ok u ->
  let upload := PutRequest (GetHTTPUrl u) (write_buffer (wfh w)) in
  exists r w' rest,
    FlushBuffer server params fopen_ok w = (r, w')
    /\ net w' = net w ++ upload :: rest
    /\ disk w' = disk w
    /\ wfh w' = after_flush r (wfh w)
    /\ (wants_parent (server (net w) upload) = false -> rest = []).
Proof.
  intros Hu Hd Hp upload. unfold FlushBuffer. run_M. rewrite Hd, Hu, Hp.
  cbn [negb andb]. unfold upload_buffer. rewrite Hu.
  cbv [send]. fold upload.
  destruct (FlushBuffer_tail (wfh w) (GetHTTPUrl u) (server (net w) upload)
              (set_net (net w ++ [upload]) w) eq_refl)
    as (r & w' & rest & E & N1 & D1 & W1 & R1).
  exists r, w', rest. split; [exact E|].
  cbn in N1, D1. rewrite N1, <- app_assoc. auto.
Qed.

Lemma FlushBuffer_from_file (w : World) (u : ParsedWebDAVUrl) (content : string) :
  using_temp_file (wfh w) = true -> write_buffer (wfh w) = "" ->
  disk w !! temp_file_path (wfh w) = Some content ->
  fopen_ok (disk w) (temp_file_path (wfh w)) = true ->
  ParseUrl (path (wfh w)) = Ok u ->
  let upload := PutRequestFromFile (GetHTTPUrl u) (temp_file_path (wfh w))
                  (size content) content in
  exists r w' rest,
    FlushBuffer server params fopen_ok w = (r, w')
    /\ net w' = net w ++ upload :: rest
    /\ disk w' = disk w
    /\ wfh w' = after_flush r (wfh w)
    /\ (wants_parent (server (net w) upload) = false -> rest = []).
Proof.
  intros Hu Hb Hf Ho Hp upload. unfold FlushBuffer. run_M. rewrite Hu, Hp.
  rewrite andb_false_r. unfold upload_buffer. rewrite Hu, Hb.
  cbn [empty negb]. run_M. rewrite Hf. unfold PutFromFile. run_M.
  rewrite Hf, Ho. cbv [send]. fold upload.
  destruct (FlushBuffer_tail (wfh w) (GetHTTPUrl u) (server (net w) upload)
              (set_net (net w ++ [upload]) w) eq_refl)
    as (r & w' & rest & E & N1 & D1 & W1 & R1).
  exists r, w', rest. split; [exact E|].
  cbn in N1, D1. rewrite N1, <- app_assoc. auto.
Qed.

(** *** The upload a commit returns on *)

Lemma wants_parent_not_written (response : HTTPResponse) :
  wants_parent response = true -> is_written response = false.
Proof.
  unfold wants_parent, is_written. intros H.
  destruct (N.eqb_spec (status response) 400) as [->|_]; [reflexivity|].
  destruct (N.eqb_spec (status response) 404) as [->|_]; [reflexivity|].
  destruct (N.eqb_spec (status response) 409) as [->|_]; [reflexivity|].
  discriminate H.
Qed.

(** When the retry step hands on another response than the one it was
    given, that response is the answer to one more upload, sent last, and
    this upload carries the memory buffer of the handle. *)
Lemma retry_with_parents_returns (h : WebDAVFileHandle) (http_url : string)
    (response response' : HTTPResponse) (w w' : World) :
  retry_with_parents server params h http_url response w = (Ok response', w') ->
  response' = response
  \/ exists mid,
       net w' = net w ++ mid ++ [PutRequest http_url (write_buffer (wfh w))]
       /\ response'
          = server (net w ++ mid) (PutRequest http_url (write_buffer (wfh w))).
Proof.
  unfold retry_with_parents.
  destruct (wants_parent response); [|run_M; intros [= <- <-]; now left].
  destruct (negb (rfind (path h) "/" npos =? npos));
    [|run_M; intros [= <- <-]; now left].
  unfold try_catch, mbind, M_bind.
  destruct (remote_only_CreateDirectoryRecursive
              (substr (path h) 0 (rfind (path h) "/" npos)) None w)
    as (Hh & _ & mid & Hn).
  destruct (CreateDirectoryRecursive server params
              (substr (path h) 0 (rfind (path h) "/" npos)) None w)
    as [[[]|e|] w1]; cbn [snd] in Hh, Hn.
  - cbv [get_handle send]. intros [= <- <-]. right. exists mid.
    cbn [net set_net]. rewrite Hh, Hn, <- app_assoc. split; reflexivity.
  - cbn [catch_all]. run_M. intros [= <- <-]. now left.
  - discriminate.
Qed.

(** The commit once the first upload has been answered, when it
    returns: either that answer was a success and nothing more is sent,
    or it was 400, 404 or 409 and the commit returns on the answer to a
    second upload, which carries the memory buffer. *)
Lemma FlushBuffer_tail_accepted (h : WebDAVFileHandle) (http_url : string)
    (response : HTTPResponse) (w w' : World) :
  (response' ← retry_with_parents server params h http_url response;
   if negb (is_written response') then
     throw (IOException ("Failed to write to file " +:+ path h +:+ ": HTTP "
                         +:+ to_string (status response')))
   else
     modify_handle (set_write_buffer "");;
     modify_handle (set_buffer_dirty false)) w = (Ok tt, w') ->
  if wants_parent response
  then exists mid,
         net w' = net w ++ mid ++ [PutRequest http_url (write_buffer (wfh w))]
         /\ is_written (server (net w ++ mid)
                          (PutRequest http_url (write_buffer (wfh w)))) = true
  else net w' = net w /\ is_written response = true.
Proof.
  unfold mbind at 1. unfold M_bind at 1.
  destruct (retry_with_parents server params h http_url response w)
    as [[response'|e|] w1] eqn:ER; [|discriminate|discriminate].
  destruct (is_written response') eqn:Hw; cbn [negb]; [|discriminate].
  run_M. intros [= <-]. cbn [net].
  destruct (wants_parent response) eqn:Hwp.
  - apply retry_with_parents_returns in ER as [->|(mid & Hn & ->)].
    + rewrite (wants_parent_not_written _ Hwp) in Hw. discriminate Hw.
    + exists mid. split; assumption.
  - unfold retry_with_parents in ER. rewrite Hwp in ER.
    injection ER as <- <-. split; [reflexivity | exact Hw].
Qed.

Lemma FlushBuffer_from_memory_accepted (w w' : World) (u : ParsedWebDAVUrl) :
  using_temp_file (wfh w) = false -> buffer_dirty (wfh w) = true ->
  ParseUrl (path (wfh w)) = Ok u ->
  FlushBuffer server params fopen_ok w = (Ok tt, w') ->
  let upload := PutRequest (GetHTTPUrl u) (write_buffer (wfh w)) in
  if wants_parent (server (net w) upload)
  then exists mid,
         net w' = net w ++ upload :: mid ++ [upload]
         /\ is_written (server (net w ++ upload :: mid) upload) = true
  else net w' = net w ++ [upload] /\ is_written (server (net w) upload) = true.
Proof.
  intros Hu Hd Hp E upload. revert E.
  unfold FlushBuffer. run_M. rewrite Hd, Hu, Hp.
  cbn [negb andb]. unfold upload_buffer. rewrite Hu.
  cbv [send]. fold upload. intros E.
  pose proof (FlushBuffer_tail_accepted (wfh w) (GetHTTPUrl u)
                (server (net w) upload) (set_net (net w ++ [upload]) w) w' E)
    as T.
  cbn [net wfh set_net] in T. fold upload in T.
  destruct (wants_parent (server (net w) upload)).
  - destruct T as (mid & Hn & Hw). exists mid.
    rewrite <- !app_assoc in Hn, Hw. split; assumption.
  - exact T.
Qed.

Lemma FlushBuffer_from_file_accepted (w w' : World) (u : ParsedWebDAVUrl)
    (content : string) :
  using_temp_file (wfh w) = true -> write_buffer (wfh w) = "" ->
  disk w !! temp_file_path (wfh w) = Some content ->
  fopen_ok (disk w) (temp_file_path (wfh w)) = true ->
  ParseUrl (path (wfh w)) = Ok u ->
  FlushBuffer server params fopen_ok w = (Ok tt, w') ->
  let upload := PutRequestFromFile (GetHTTPUrl u) (temp_file_path (wfh w))
                  (size content) content in
  let retry := PutRequest (GetHTTPUrl u) "" in
  if wants_parent (server (net w) upload)
  then exists mid,
         net w' = net w ++ upload :: mid ++ [retry]
         /\ is_written (server (net w ++ upload :: mid) retry) = true
  else net w' = net w ++ [upload] /\ is_written (server (net w) upload) = true.
Proof.
  intros Hu Hb Hf Ho Hp E upload retry. revert E.
  unfold FlushBuffer. run_M. rewrite Hu, Hp.
  rewrite andb_false_r. unfold upload_buffer. rewrite Hu, Hb.
  cbn [empty negb]. run_M. rewrite Hf. unfold PutFromFile. run_M.
  rewrite Hf, Ho. cbv [send]. fold upload. intros E.
  pose proof (FlushBuffer_tail_accepted (wfh w) (GetHTTPUrl u)
                (server (net w) upload) (set_net (net w ++ [upload]) w) w' E)
    as T.
  cbn [net wfh set_net] in T. rewrite Hb in T. fold retry in T.
  destruct (wants_parent (server (net w) upload)).
  - destruct T as (mid & Hn & Hw). exists mid.
    rewrite <- !app_assoc in Hn, Hw. split; assumption.
  - exact T.
Qed.

End Remote.


(** *** Writes and syncs against what the handle has taken *)

Section Buffering.
Variable server : list Request -> Request -> HTTPResponse.
Variable params : HTTPFSParams.
Variable mkstemp : gmap string string -> option string.
Variable fopen_ok : gmap string string -> string -> bool.
Variable p : string.
Variable prm : HTTPFSParams.
Variable u : ParsedWebDAVUrl.
Hypothesis disk_ok : reliable_disk mkstemp fopen_ok.
Hypothesis path_ok : ParseUrl p = Ok u.

Lemma consistent_threshold (w : World) (g : Ghost) :
  consistent p prm w g ->
  streaming_threshold (wfh w)
  = wrap64 (webdav_streaming_threshold_mb prm * 1024 * 1024).
Proof.
  intros (_ & Hprm & _). unfold streaming_threshold. now rewrite Hprm.
Qed.

Lemma consistent_opened (d : gmap string string) (l : list Request) :
  consistent p prm (mkWorld (opened_for_writing p prm) d l) (mkGhost "" "").
Proof.
  unfold consistent, streaming_threshold. cbn.
  repeat split; try reflexivity; try lia; try discriminate.
  symmetry. apply N.ltb_ge. change (size "") with 0. lia.
Qed.

Lemma consistent_expected_location (w : World) (g : Ghost) :
  consistent p prm w g ->
  expected_location (wfh w)
  = if using_temp_file (wfh w) then size (accepted g) else size (segment g).
Proof.
  intros (_ & _ & Hoff & _ & _ & Hmem & _). unfold expected_location.
  destruct (using_temp_file (wfh w)); [exact Hoff|].
  destruct (Hmem eq_refl) as [-> _]. reflexivity.
Qed.

Ltac finish_consistent :=
  try (apply wrap64_small; lia);
  try (symmetry; first [apply N.ltb_lt; lia | apply N.ltb_ge; lia]);
  try (cbv [id]; apply lookup_insert_eq);
  try congruence.

(** An accepted write: the handle takes the bytes, nothing is sent, and
    the handle is on the staging file afterwards exactly when it was
    before or the buffer would have outgrown the threshold. *)
Lemma Write_step (w : World) (g : Ghost) (buffer : string) :
  consistent p prm w g ->
  size (accepted g +:+ buffer) < 2 ^ 64 ->
  exists w',
    Write mkstemp fopen_ok buffer (expected_location (wfh w)) w = (Ok tt, w')
    /\ consistent p prm w'
         (mkGhost (accepted g +:+ buffer) (segment g +:+ buffer))
    /\ net w' = net w
    /\ buffer_dirty (wfh w') = true
    /\ using_temp_file (wfh w')
       = using_temp_file (wfh w)
         || (streaming_threshold (wfh w)
             <? size (write_buffer (wfh w)) + size buffer).
Proof.
  intros Hc Hbound. pose proof (consistent_threshold w g Hc) as Hthr.
  destruct Hc as (Hp & Hprm & Hoff & Hle & Hus & Hmem & Hfile).
  destruct disk_ok as [Hmk Hfo].
  rewrite size_app in Hbound.
  unfold expected_location.
  destruct (using_temp_file (wfh w)) eqn:Hu.
  - (* on the staging file *)
    destruct (Hfile eq_refl) as [Hwb Hlk].
    rewrite (Write_appends_to_file mkstemp fopen_ok Hfo buffer w Hu).
    eexists. split; [reflexivity|].
    symmetry in Hus. apply N.ltb_lt in Hus.
    split; [|split; [reflexivity|split; [reflexivity|cbn; now rewrite Hu]]].
    unfold consistent, streaming_threshold in *. cbn.
    rewrite Hu, Hprm, Hlk, Hoff, !size_app. cbn [default].
    rewrite Hprm in Hus.
    repeat split; try assumption; try discriminate; try lia; finish_consistent.
  - (* in memory *)
    destruct (Hmem eq_refl) as [Hwb Hclean].
    symmetry in Hus. apply N.ltb_ge in Hus.
    assert (Hsz : size (write_buffer (wfh w)) + size buffer < 2 ^ 64)
      by (rewrite Hwb; lia).
    destruct (N.ltb_spec (streaming_threshold (wfh w))
                (size (write_buffer (wfh w)) + size buffer)) as [Hspill|Hfit].
    + destruct (Write_spills mkstemp fopen_ok Hmk Hfo buffer w Hu Hsz Hspill)
        as (t & Ht & ->).
      eexists. split; [reflexivity|].
      split; [|split; [reflexivity|split; [reflexivity|cbn; rewrite ?Hu; reflexivity]]].
      unfold consistent, streaming_threshold in *. cbn.
      rewrite Hprm, Hoff, !size_app, Hwb in *.
      repeat split; try assumption; try discriminate; try lia; finish_consistent.
    + rewrite (Write_in_memory mkstemp fopen_ok buffer w Hu Hsz Hfit).
      eexists. split; [reflexivity|].
      split; [|split; [reflexivity|split; [reflexivity|cbn; rewrite ?Hu; reflexivity]]].
      unfold consistent, streaming_threshold in *. cbn.
      rewrite Hu, Hprm, Hoff, !size_app, Hwb in *.
      repeat split; try assumption; try discriminate; try lia; finish_consistent.
Qed.

(** A write at the expected location goes through whatever the sizes. *)
Lemma Write_accepted (w : World) (buffer : string) :
  exists w',
    Write mkstemp fopen_ok buffer (expected_location (wfh w)) w = (Ok tt, w')
    /\ net w' = net w
    /\ using_temp_file (wfh w')
       = using_temp_file (wfh w)
         || (streaming_threshold (wfh w)
             <? wrap64 (size (write_buffer (wfh w)) + size buffer)).
Proof.
  destruct disk_ok as [Hmk Hfo].
  unfold Write, expected_location. run_M.
  rewrite N.eqb_refl. cbn [negb]. fold (streaming_threshold (wfh w)).
  destruct (using_temp_file (wfh w)) eqn:Hu; cbn [negb andb orb].
  - run_M. rewrite Hu. run_M. rewrite Hfo. cbn [negb]. run_M.
    eexists. split; [reflexivity|]. cbn. now rewrite Hu.
  - destruct (streaming_threshold (wfh w)
              <? wrap64 (size (write_buffer (wfh w)) + size buffer)) eqn:Hs.
    + run_M. destruct (Hmk (disk w)) as [t Ht]. rewrite Ht. run_M.
      rewrite !Hfo. cbn [negb]. run_M. rewrite !Hfo. cbn [negb]. run_M.
      eexists. split; [reflexivity|]. cbn. auto.
    + run_M. rewrite Hu. run_M.
      eexists. split; [reflexivity|]. cbn. now rewrite Hu.
Qed.

Lemma write_all_sequential (ws : list (string * N)) :
  forall (w : World) (g : Ghost),
  consistent p prm w g -> segment g = accepted g ->
  sequential_from (size (accepted g)) ws ->
  size (accepted g +:+ concat_buffers ws) < 2 ^ 64 ->
  exists w',
    write_all mkstemp fopen_ok ws w = (Ok tt, w')
    /\ consistent p prm w'
         (mkGhost (accepted g +:+ concat_buffers ws)
                  (accepted g +:+ concat_buffers ws))
    /\ net w' = net w
    /\ (ws <> [] -> buffer_dirty (wfh w') = true).
Proof.
  induction ws as [|[buffer location] ws IH]; intros w g Hc Hseg Hseq Hbound.
  - cbn. exists w. rewrite str_app_empty_r.
    destruct g as [a s]. cbn in *. subst s.
    split; [reflexivity|]. split; [exact Hc|]. split; [reflexivity|].
    intros H. now contradiction H.
  - cbn [sequential_from concat_buffers] in *. destruct Hseq as [-> Hseq].
    rewrite <- str_app_assoc in Hbound.
    assert (Hb1 : size (accepted g +:+ buffer) < 2 ^ 64).
    { rewrite size_app in Hbound. lia. }
    destruct (Write_step w g buffer Hc Hb1) as (w1 & E1 & Hc1 & N1 & D1 & _).
    rewrite (consistent_expected_location w g Hc), Hseg in E1.
    assert (E1' : Write mkstemp fopen_ok buffer (size (accepted g)) w = (Ok tt, w1))
      by (destruct (using_temp_file (wfh w)); exact E1).
    rewrite Hseg in Hc1.
    destruct (IH w1 _ Hc1 eq_refl) as (w2 & E2 & Hc2 & N2 & D2).
    { cbn. now rewrite size_app. }
    { exact Hbound. }
    exists w2. cbn [accepted] in *.
    rewrite <- str_app_assoc.
    split; [|split; [exact Hc2|split; [congruence|]]].
    + cbn [write_all]. unfold mbind, M_bind. rewrite E1'. exact E2.
    + intros _. destruct ws as [|x ws'].
      * cbn in E2. injection E2 as <-. exact D1.
      * apply D2. discriminate.
Qed.

(** The state of the handle determines what a commit uploads. *)
Lemma consistent_upload_source (w : World) (g : Ghost) :
  consistent p prm w g -> upload_source w = segment g.
Proof.
  intros (_ & _ & _ & _ & _ & Hmem & Hfile). unfold upload_source.
  destruct (using_temp_file (wfh w)).
  - destruct (Hfile eq_refl) as [_ ->]. reflexivity.
  - now destruct (Hmem eq_refl).
Qed.

(** A commit of a handle that holds data opens with the upload of all of
    its source, then leaves the local files alone; the upload is the only
    request unless it is answered 400, 404 or 409. *)
Lemma FlushBuffer_step (w : World) (g : Ghost) :
  consistent p prm w g ->
  buffer_dirty (wfh w) || using_temp_file (wfh w) = true ->
  exists r w' rest,
    FlushBuffer server params fopen_ok w = (r, w')
    /\ net w' = net w ++ first_upload u w :: rest
    /\ disk w' = disk w
    /\ wfh w' = after_flush r (wfh w)
    /\ (wants_parent (server (net w) (first_upload u w)) = false -> rest = []).
Proof.
  intros Hc Hdata. destruct disk_ok as [Hmk Hfo].
  pose proof (consistent_upload_source w g Hc) as Hsrc.
  destruct Hc as (Hp & Hprm & Hoff & Hle & Hus & Hmem & Hfile).
  assert (Hpath : ParseUrl (path (wfh w)) = Ok u) by (rewrite Hp; exact path_ok).
  unfold first_upload. rewrite Hsrc.
  destruct (using_temp_file (wfh w)) eqn:Hu.
  - destruct (Hfile eq_refl) as [Hwb Hlk].
    exact (FlushBuffer_from_file server params fopen_ok w u (segment g)
             Hu Hwb Hlk (Hfo _ _) Hpath).
  - rewrite orb_false_r in Hdata.
    destruct (Hmem eq_refl) as [Hwb _]. rewrite <- Hwb.
    exact (FlushBuffer_from_memory server params fopen_ok w u Hu Hdata Hpath).
Qed.

(** The upload a commit returns on: the first one when its answer is a
    success, and otherwise, the first answer being 400, 404 or 409, a
    second one sent last, which carries the memory buffer: every byte of
    the segment in memory, none once the handle is on the staging file. *)
Lemma FlushBuffer_accepted (w w' : World) (g : Ghost) :
  consistent p prm w g ->
  buffer_dirty (wfh w) || using_temp_file (wfh w) = true ->
  FlushBuffer server params fopen_ok w = (Ok tt, w') ->
  let upload := first_upload u w in
  let retry := PutRequest (GetHTTPUrl u)
                 (if using_temp_file (wfh w) then "" else segment g) in
  if wants_parent (server (net w) upload)
  then exists mid,
         net w' = net w ++ upload :: mid ++ [retry]
         /\ is_written (server (net w ++ upload :: mid) retry) = true
  else net w' = net w ++ [upload] /\ is_written (server (net w) upload) = true.
Proof.
  intros Hc Hdata E. destruct disk_ok as [Hmk Hfo].
  pose proof (consistent_upload_source w g Hc) as Hsrc.
  destruct Hc as (Hp & Hprm & Hoff & Hle & Hus & Hmem & Hfile).
  assert (Hpath : ParseUrl (path (wfh w)) = Ok u) by (rewrite Hp; exact path_ok).
  unfold first_upload. rewrite Hsrc.
  destruct (using_temp_file (wfh w)) eqn:Hu.
  - destruct (Hfile eq_refl) as [Hwb Hlk].
    exact (FlushBuffer_from_file_accepted server params fopen_ok w w' u
             (segment g) Hu Hwb Hlk (Hfo _ _) Hpath E).
  - rewrite orb_false_r in Hdata.
    destruct (Hmem eq_refl) as [Hwb _]. rewrite <- Hwb.
    exact (FlushBuffer_from_memory_accepted server params fopen_ok w w' u
             Hu Hdata Hpath E).
Qed.

(** [consistent] looks at the handle and the local files only. *)
Lemma consistent_same (w w' : World) (g : Ghost) :
  wfh w' = wfh w -> disk w' = disk w ->
  consistent p prm w g -> consistent p prm w' g.
Proof. unfold consistent. intros -> ->. auto. Qed.

Lemma consistent_after_flush (w w' : World) (g : Ghost) :
  wfh w' = after_flush (Ok tt) (wfh w) -> disk w' = disk w ->
  consistent p prm w g ->
  consistent p prm w'
    (if using_temp_file (wfh w) then g else mkGhost (accepted g) "").
Proof.
  intros Hw Hd (Hp & Hprm & Hoff & Hle & Hus & Hmem & Hfile).
  unfold consistent, streaming_threshold in *. rewrite Hw, Hd. cbn.
  destruct (using_temp_file (wfh w)) eqn:Hu.
  - destruct (Hfile eq_refl) as [Hwb Hlk].
    repeat split; try assumption; try discriminate.
  - cbn. change (size "") with 0.
    repeat split; try assumption; try discriminate; try lia.
    symmetry. apply N.ltb_ge. lia.
Qed.

Lemma step_accepted_grows (s : World * Ghost) (o : op) :
  size (accepted s.2)
  <= size (accepted (step server params mkstemp fopen_ok s o).2).
Proof.
  destruct s as [w g]. destruct o as [buffer location|]; cbn [step snd].
  - destruct (Write mkstemp fopen_ok buffer location w) as [[[]|e|] w'];
      cbn [snd accepted]; rewrite ?size_app; lia.
  - destruct (FileSync server params fopen_ok w) as [[[]|e|] w'];
      cbn [snd]; try lia.
    destruct (using_temp_file (wfh w)); cbn [accepted]; lia.
Qed.

Lemma run_accepted_grows (ops : list op) :
  forall s : World * Ghost,
  size (accepted s.2)
  <= size (accepted (run server params mkstemp fopen_ok ops s).2).
Proof.
  induction ops as [|o ops IH]; intros s; cbn [run fold_left]; [lia|].
  pose proof (step_accepted_grows s o).
  pose proof (IH (step server params mkstemp fopen_ok s o)).
  unfold run in *. lia.
Qed.

Lemma step_consistent (s : World * Ghost) (o : op) :
  consistent p prm s.1 s.2 ->
  size (accepted (step server params mkstemp fopen_ok s o).2) < 2 ^ 64 ->
  consistent p prm (step server params mkstemp fopen_ok s o).1
    (step server params mkstemp fopen_ok s o).2.
Proof.
  destruct s as [w g]. cbn [fst snd]. intros Hc.
  destruct o as [buffer location|]; cbn [step].
  - destruct (N.eq_dec location (expected_location (wfh w))) as [->|Hne].
    + destruct (Write_accepted w buffer) as (w' & E & _).
      rewrite E. cbn [fst snd accepted]. intros Hbound.
      destruct (Write_step w g buffer Hc Hbound) as (w'' & E' & Hc' & _).
      rewrite E in E'. injection E' as <-. exact Hc'.
    + rewrite (Write_rejected mkstemp fopen_ok buffer location w Hne).
      cbn [fst snd]. intros _. exact Hc.
  - unfold FileSync.
    destruct (buffer_dirty (wfh w) || using_temp_file (wfh w)) eqn:Hdata.
    + destruct (FlushBuffer_step w g Hc Hdata) as (r & w' & rest & E & _ & Hd & Hw & _).
      rewrite E. destruct r as [[]|e|]; cbn [fst snd]; intros _.
      * now apply (consistent_after_flush w).
      * now apply (consistent_same w).
      * now apply (consistent_same w).
    + apply orb_false_iff in Hdata as [Hdirty Hu].
      rewrite (FlushBuffer_nothing_to_flush server params fopen_ok w Hdirty Hu).
      rewrite Hu. cbn [fst snd]. intros _.
      destruct Hc as (Hp & Hprm & Hoff & Hle & Hus & Hmem & Hfile).
      destruct (Hmem Hu) as [Hwb Hclean]. specialize (Hclean Hdirty).
      destruct g as [a sg]. cbn in *. subst sg.
      unfold consistent. cbn. rewrite Hclean in *.
      repeat split; auto; try congruence; intros; congruence.
Qed.

Lemma run_consistent (ops : list op) :
  forall s : World * Ghost,
  consistent p prm s.1 s.2 ->
  size (accepted (run server params mkstemp fopen_ok ops s).2) < 2 ^ 64 ->
  consistent p prm (run server params mkstemp fopen_ok ops s).1
    (run server params mkstemp fopen_ok ops s).2.
Proof.
  induction ops as [|o ops IH]; intros s Hc Hbound; cbn [run fold_left] in *.
  - exact Hc.
  - apply IH; [|exact Hbound].
    apply step_consistent; [exact Hc|].
    pose proof (run_accepted_grows ops (step server params mkstemp fopen_ok s o)).
    unfold run in *. lia.
Qed.

End Buffering.

(** *** Writing and syncing, end to end *)

Lemma Close_requests (server : list Request -> Request -> HTTPResponse)
    (params : HTTPFSParams) (fopen_ok : gmap string string -> string -> bool)
    (w : World) :
  net (Close server params fopen_ok w).2
  = net (FlushBuffer server params fopen_ok w).2.
Proof.
  unfold Close. unfold mbind at 1. unfold M_bind at 1.
  destruct (FlushBuffer server params fopen_ok w) as [[[]|e|] w']; cbn [snd];
    try reflexivity.
  run_M. destruct (using_temp_file (wfh w') && negb (empty (temp_file_path (wfh w'))));
    reflexivity.
Qed.

Lemma run_writes_only (server : list Request -> Request -> HTTPResponse)
    (params : HTTPFSParams) (mkstemp : gmap string string -> option string)
    (fopen_ok : gmap string string -> string -> bool) (ops : list op) :
  forall s : World * Ghost,
  Forall (fun o => o <> Op_Sync) ops ->
  segment s.2 = accepted s.2 ->
  segment (run server params mkstemp fopen_ok ops s).2
  = accepted (run server params mkstemp fopen_ok ops s).2.
Proof.
  induction ops as [|o ops IH]; intros s Hw Hs; cbn [run fold_left]; [exact Hs|].
  inversion Hw as [|? ? Ho Hops]; subst.
  apply IH; [exact Hops|].
  destruct s as [w g]. destruct o as [buffer location|]; [|congruence].
  cbn [step]. cbn [snd] in Hs.
  destruct (Write mkstemp fopen_ok buffer location w) as [[[]|e|] w'];
    cbn [snd accepted segment]; congruence.
Qed.

(** X30.  Writes made one after the other, each at the running total of
    the bytes written before it, all go through without a request being
    sent; what the handle then uploads is the concatenation of the buffers,
    from memory when their total size is at most the threshold and from
    the staging file when it is above; the commit ([FlushBuffer], and
    [Close] through it) opens with the upload of exactly these bytes, and
    sends nothing else unless that upload is answered 400, 404 or 409.
    When the commit returns, it does so on a success given to that upload
    or, after a 400, 404 or 409, on a success given to a second upload,
    sent last, which carries the memory buffer: the concatenation while
    the handle is in memory, no byte once it is on the staging file.  A
    write is on the staging file afterwards exactly when the handle was on
    it before or the buffered size plus the incoming size exceeds the
    threshold. *)
Theorem sequential_writes_upload_their_concatenation
    (server : list Request -> Request -> HTTPResponse)
    (params : HTTPFSParams) (mkstemp : gmap string string -> option string)
    (fopen_ok : gmap string string -> string -> bool)
    (p : string) (u : ParsedWebDAVUrl) (ws : list (string * N))
    (d : gmap string string) (l : list Request) :
  reliable_disk mkstemp fopen_ok ->
  ParseUrl p = Ok u ->
  sequential_from 0 ws ->
  size (concat_buffers ws) < 2 ^ 64 ->
  let w0 := mkWorld (opened_for_writing p params) d l in
  let all := concat_buffers ws in
  let spilled := streaming_threshold (wfh w0) <? size all in
  exists w1,
    write_all mkstemp fopen_ok ws w0 = (Ok tt, w1)
    /\ net w1 = l
    /\ upload_source w1 = all
    /\ using_temp_file (wfh w1) = spilled
    /\ (ws <> [] ->
        let upload :=
          if spilled
          then PutRequestFromFile (GetHTTPUrl u) (temp_file_path (wfh w1))
                 (size all) all
          else PutRequest (GetHTTPUrl u) all in
        let retry := PutRequest (GetHTTPUrl u) (if spilled then "" else all) in
        exists rest,
          net (FlushBuffer server params fopen_ok w1).2 = l ++ upload :: rest
          /\ net (Close server params fopen_ok w1).2
             = net (FlushBuffer server params fopen_ok w1).2
          /\ (wants_parent (server l upload) = false -> rest = [])
          /\ ((FlushBuffer server params fopen_ok w1).1 = Ok tt ->
              if wants_parent (server l upload)
              then exists mid,
                     rest = mid ++ [retry]
                     /\ is_written (server (l ++ upload :: mid) retry) = true
              else is_written (server l upload) = true))
    /\ (forall w buffer,
        exists w',
          Write mkstemp fopen_ok buffer (expected_location (wfh w)) w = (Ok tt, w')
          /\ using_temp_file (wfh w')
             = using_temp_file (wfh w)
               || (streaming_threshold (wfh w)
                   <? wrap64 (size (write_buffer (wfh w)) + size buffer))).
Proof.
  intros Hdisk Hpath Hseq Hbound w0 all spilled.
  pose proof (consistent_opened p params d l) as Hc0.
  destruct (write_all_sequential mkstemp fopen_ok p params Hdisk ws w0
              (mkGhost "" "") Hc0 eq_refl Hseq Hbound)
    as (w1 & E & Hc1 & Hn & Hdirty).
  cbn [accepted] in Hc1. rewrite str_app_nil_l in Hc1. fold all in Hc1.
  pose proof (consistent_upload_source p params w1 _ Hc1) as Hsrc.
  cbn [segment] in Hsrc.
  assert (Hthr : streaming_threshold (wfh w1) = streaming_threshold (wfh w0)).
  { destruct Hc1 as (_ & Hprm & _). unfold streaming_threshold. now rewrite Hprm. }
  assert (Hus : using_temp_file (wfh w1) = spilled).
  { destruct Hc1 as (_ & _ & _ & _ & Hus & _). unfold spilled. now rewrite <- Hthr. }
  exists w1. repeat split; try assumption.
  - intros Hne. specialize (Hdirty Hne).
    assert (Hdata : buffer_dirty (wfh w1) || using_temp_file (wfh w1) = true)
      by now rewrite Hdirty.
    destruct (FlushBuffer_step server params mkstemp fopen_ok p params u
                Hdisk Hpath w1 _ Hc1 Hdata)
      as (r & w2 & rest & E2 & N2 & _ & _ & R2).
    pose proof (fun H => FlushBuffer_accepted server params mkstemp fopen_ok
                           p params u Hdisk Hpath w1 w2 _ Hc1 Hdata H) as A2.
    cbn zeta in A2. cbn [segment] in A2.
    assert (Hup : first_upload u w1
                  = if spilled
                    then PutRequestFromFile (GetHTTPUrl u)
                           (temp_file_path (wfh w1)) (size all) all
                    else PutRequest (GetHTTPUrl u) all).
    { unfold first_upload. rewrite Hsrc, Hus. reflexivity. }
    rewrite Hup, Hn, Hus in *. change (net w0) with l in *.
    exists rest. rewrite E2. cbn [fst snd].
    split; [exact N2|]. split; [|split; [exact R2|]].
    + rewrite Close_requests, E2. reflexivity.
    + intros ->. specialize (A2 E2).
      destruct (wants_parent _); [|exact (proj2 A2)].
      destruct A2 as (mid & Hn2 & Hw). exists mid. split; [|exact Hw].
      rewrite Hn2 in N2. apply app_inv_head in N2.
      now injection N2.
  - intros w buffer.
    destruct (Write_accepted mkstemp fopen_ok Hdisk w buffer) as (w' & E' & _ & T).
    now exists w'.
Qed.

Example sequential_writes_upload_their_concatenation_witness :
  let w1 := (write_all mkstemp_fixed fopen_fine [("ab", 0); ("cde", 2)]
               (fresh spill_at_once)).2 in
  upload_source w1 = "abcde"
  /\ using_temp_file (wfh w1) = true
  /\ exists mid,
       net (FlushBuffer parent_missing spill_at_once fopen_fine w1).2
       = PutRequestFromFile file_url (temp_file_path (wfh w1)) 5 "abcde"
         :: mid ++ [PutRequest file_url ""].
Proof.
  intros w1.
  destruct (sequential_writes_upload_their_concatenation
              parent_missing spill_at_once mkstemp_fixed fopen_fine
              file_url file_url_parsed [("ab", 0); ("cde", 2)] ∅ [])
    as (w1' & E & _ & S & U & C & _).
  - split; [intros d; exists temp_name; reflexivity | reflexivity].
  - reflexivity.
  - cbn. repeat split; reflexivity.
  - vm_compute. reflexivity.
  - assert (Hw : w1' = w1) by exact (eq_sym (f_equal snd E)).
    rewrite Hw in S, U, C. clear E Hw w1'.
    destruct C as (rest & N & _ & _ & A); [discriminate|].
    specialize (A ltac:(vm_compute; reflexivity)).
    match type of A with
    | if ?c then _ else _ =>
        replace c with true in A by (vm_compute; reflexivity)
    end.
    destruct A as (mid & -> & _).
    split; [exact S|]. split; [exact U|]. exists mid. exact N.
Defined.

(** C1, at the failing input.  Two writes made one after the other, "ab"
    at 0 and "cde" at 2, on a handle that spills at the first byte: the
    staging file holds "abcde" and the commit opens with the upload of
    these five bytes.  The server lacks the parent collection and answers
    404; the parent is created, and the commit, [FlushBuffer] as well as
    [Close], returns on the 201 given to a second upload that carries no
    byte.  The same writes kept in memory end with a second upload of
    "abcde". *)
Theorem C1_spilled_writes_are_committed_as_an_empty_upload :
  let ws := [("ab", 0); ("cde", 2)] in
  let spilled := write_all mkstemp_fixed fopen_fine ws (fresh spill_at_once) in
  let in_memory := write_all mkstemp_fixed fopen_fine ws (fresh default_params) in
  let creation := [InitializeRequest "http://host/dir";
                   MkcolRequest "http://host/dir/"] in
  sequential_from 0 ws
  /\ concat_buffers ws = "abcde"
  /\ spilled.1 = Ok tt
  /\ using_temp_file (wfh spilled.2) = true
  /\ upload_source spilled.2 = "abcde"
  /\ (FlushBuffer parent_missing spill_at_once fopen_fine spilled.2).1 = Ok tt
  /\ (Close parent_missing spill_at_once fopen_fine spilled.2).1 = Ok tt
  /\ net (Close parent_missing spill_at_once fopen_fine spilled.2).2
     = PutRequestFromFile file_url temp_name 5 "abcde"
       :: creation ++ [PutRequest file_url ""]
  /\ status (parent_missing [] (PutRequestFromFile file_url temp_name 5 "abcde"))
     = 404
  /\ status (parent_missing
               (PutRequestFromFile file_url temp_name 5 "abcde" :: creation)
               (PutRequest file_url "")) = 201
  /\ in_memory.1 = Ok tt
  /\ using_temp_file (wfh in_memory.2) = false
  /\ upload_source in_memory.2 = "abcde"
  /\ (Close parent_missing default_params fopen_fine in_memory.2).1 = Ok tt
  /\ net (Close parent_missing default_params fopen_fine in_memory.2).2
     = PutRequest file_url "abcde" :: creation ++ [PutRequest file_url "abcde"].
Proof. vm_compute. repeat split. Qed.

(** A write is rejected, with the sequencing error and before anything is
    written or sent, exactly when its offset differs from the location
    [Write] computes, and goes through otherwise.  That location is the
    cursor [file_offset], the number of bytes accepted since the handle
    was opened, once the handle is on the staging file, and the length of
    the memory buffer before, which counts the bytes accepted since the
    last sync that returned in memory; the two agree as long as no sync
    was made. *)
Lemma Write_accepted_iff_at_expected_location
    (server : list Request -> Request -> HTTPResponse)
    (params : HTTPFSParams) (mkstemp : gmap string string -> option string)
    (fopen_ok : gmap string string -> string -> bool)
    (p : string) (u : ParsedWebDAVUrl) :
  reliable_disk mkstemp fopen_ok ->
  ParseUrl p = Ok u ->
  (forall w buffer location,
     location <> expected_location (wfh w) ->
     Write mkstemp fopen_ok buffer location w
     = (Throw (IOException
                 (non_sequential_message (expected_location (wfh w)) location)), w))
  /\ (forall w buffer,
      exists w',
        Write mkstemp fopen_ok buffer (expected_location (wfh w)) w = (Ok tt, w')
        /\ net w' = net w)
  /\ (forall ops d l,
      let s := run server params mkstemp fopen_ok ops
                 (mkWorld (opened_for_writing p params) d l, mkGhost "" "") in
      size (accepted s.2) < 2 ^ 64 ->
      file_offset (wfh s.1) = size (accepted s.2)
      /\ expected_location (wfh s.1)
         = (if using_temp_file (wfh s.1) then size (accepted s.2)
            else size (segment s.2))
      /\ (Forall (fun o => o <> Op_Sync) ops -> segment s.2 = accepted s.2)).
Proof.
  intros Hdisk Hpath. split; [|split].
  - intros w buffer location Hne. now apply Write_rejected.
  - intros w buffer.
    destruct (Write_accepted mkstemp fopen_ok Hdisk w buffer) as (w' & E & Hn & _).
    now exists w'.
  - intros ops d l s Hbound.
    pose proof (run_consistent server params mkstemp fopen_ok p params u
                  Hdisk Hpath ops
                  (mkWorld (opened_for_writing p params) d l, mkGhost "" "")
                  (consistent_opened p params d l) Hbound)
      as Hc.
    fold s in Hc. split; [|split].
    + now destruct Hc as (_ & _ & Hoff & _).
    + now apply (consistent_expected_location p params).
    + intros Hw. now apply run_writes_only.
Qed.

(** A sync that returns while the handle is in memory empties the buffer
    and leaves the cursor where it is: from then on [Write] insists on
    location 0, while [file_offset] still is the number of bytes accepted
    since the handle was opened. *)
Lemma sync_in_memory_resets_the_expected_location
    (server : list Request -> Request -> HTTPResponse)
    (params : HTTPFSParams) (mkstemp : gmap string string -> option string)
    (fopen_ok : gmap string string -> string -> bool)
    (p : string) (u : ParsedWebDAVUrl)
    (ops : list op) (d : gmap string string) (l : list Request) (w' : World) :
  reliable_disk mkstemp fopen_ok ->
  ParseUrl p = Ok u ->
  let s := run server params mkstemp fopen_ok ops
             (mkWorld (opened_for_writing p params) d l, mkGhost "" "") in
  size (accepted s.2) < 2 ^ 64 ->
  using_temp_file (wfh s.1) = false ->
  FileSync server params fopen_ok s.1 = (Ok tt, w') ->
  expected_location (wfh w') = 0
  /\ file_offset (wfh w') = size (accepted s.2).
Proof.
  intros Hdisk Hpath s Hbound Hu E.
  pose proof (run_consistent server params mkstemp fopen_ok p params u
                Hdisk Hpath ops
                (mkWorld (opened_for_writing p params) d l, mkGhost "" "")
                (consistent_opened p params d l) Hbound)
    as Hc.
  fold s in Hc. unfold FileSync in E.
  destruct (buffer_dirty (wfh s.1)) eqn:Hdirty.
  - destruct (FlushBuffer_step server params mkstemp fopen_ok p params u
                Hdisk Hpath s.1 s.2 Hc)
      as (r & w'' & rest & E' & _ & _ & Hw & _); [now rewrite Hdirty|].
    rewrite E in E'. injection E' as <- <-.
    destruct Hc as (_ & _ & Hoff & _).
    rewrite Hw. unfold expected_location. cbn. rewrite Hu.
    split; [reflexivity | exact Hoff].
  - rewrite (FlushBuffer_nothing_to_flush server params fopen_ok s.1 Hdirty Hu)
      in E.
    injection E as <-.
    destruct Hc as (_ & _ & Hoff & _ & _ & Hmem & _).
    destruct (Hmem Hu) as [Hwb Hclean].
    unfold expected_location. rewrite Hu, Hwb, (Hclean Hdirty).
    split; [reflexivity | exact Hoff].
Qed.

(** C2, at the failing input.  Two bytes are written at 0 and the handle
    is synced, once in memory and once on the staging file; either way
    the handle has accepted two bytes and its cursor [file_offset] is 2.
    In memory the next write is refused at the cursor, as non-sequential
    with 0 expected, and taken at 0; on the staging file it is taken at
    the cursor and refused at 0.  A refused write leaves everything as it
    was. *)
Theorem C2_write_at_cursor_rejected_after_sync :
  let in_memory := run (always 201) default_params mkstemp_fixed fopen_fine
                     [Op_Write "ab" 0; Op_Sync]
                     (fresh default_params, mkGhost "" "") in
  let spilled := run (always 201) spill_at_once mkstemp_fixed fopen_fine
                   [Op_Write "ab" 0; Op_Sync]
                   (fresh spill_at_once, mkGhost "" "") in
  accepted in_memory.2 = "ab"
  /\ file_offset (wfh in_memory.1) = 2
  /\ using_temp_file (wfh in_memory.1) = false
  /\ net in_memory.1 = [PutRequest file_url "ab"]
  /\ Write mkstemp_fixed fopen_fine "c" 2 in_memory.1
     = (Throw (IOException
                 ("WebDAV does not support non-sequential writes. "
                  +:+ "Expected location 0 but got 2")), in_memory.1)
  /\ (Write mkstemp_fixed fopen_fine "c" 0 in_memory.1).1 = Ok tt
  /\ accepted spilled.2 = "ab"
  /\ file_offset (wfh spilled.1) = 2
  /\ using_temp_file (wfh spilled.1) = true
  /\ net spilled.1 = [PutRequestFromFile file_url temp_name 2 "ab"]
  /\ (Write mkstemp_fixed fopen_fine "c" 2 spilled.1).1 = Ok tt
  /\ Write mkstemp_fixed fopen_fine "c" 0 spilled.1
     = (Throw (IOException
                 ("WebDAV does not support non-sequential writes. "
                  +:+ "Expected location 2 but got 0")), spilled.1).
Proof. vm_compute. repeat split. Qed.

(** On a handle that holds data a sync opens with the upload of the whole
    upload source: the memory buffer, or the whole staging file once
    spilled.  The source holds every byte accepted since the last sync
    that returned while the handle was in memory (since the handle was
    opened if there was none).  When the sync returns, the memory buffer
    is empty and clean; the staging file stays as it is, so a handle on
    the staging file uploads all of it again at the next sync, while a
    handle in memory starts a new segment. *)
Lemma FileSync_uploads_the_whole_source
    (server : list Request -> Request -> HTTPResponse)
    (params : HTTPFSParams) (mkstemp : gmap string string -> option string)
    (fopen_ok : gmap string string -> string -> bool)
    (p : string) (u : ParsedWebDAVUrl)
    (ops : list op) (d : gmap string string) (l : list Request) :
  reliable_disk mkstemp fopen_ok ->
  ParseUrl p = Ok u ->
  let s := run server params mkstemp fopen_ok ops
             (mkWorld (opened_for_writing p params) d l, mkGhost "" "") in
  size (accepted s.2) < 2 ^ 64 ->
  upload_source s.1 = segment s.2
  /\ (buffer_dirty (wfh s.1) || using_temp_file (wfh s.1) = true ->
      exists r w' rest,
        FileSync server params fopen_ok s.1 = (r, w')
        /\ net w' = net s.1 ++ first_upload u s.1 :: rest
        /\ (r = Ok tt ->
            write_buffer (wfh w') = "" /\ buffer_dirty (wfh w') = false)
        /\ using_temp_file (wfh w') = using_temp_file (wfh s.1)
        /\ (using_temp_file (wfh s.1) = true ->
            upload_source w' = upload_source s.1)
        /\ (using_temp_file (wfh s.1) = false -> r = Ok tt ->
            upload_source w' = "")).
Proof.
  intros Hdisk Hpath s Hbound.
  pose proof (run_consistent server params mkstemp fopen_ok p params u
                Hdisk Hpath ops
                  (mkWorld (opened_for_writing p params) d l, mkGhost "" "")
                  (consistent_opened p params d l) Hbound)
    as Hc.
  fold s in Hc. split.
  - now apply (consistent_upload_source p params).
  - intros Hdata.
    destruct (FlushBuffer_step server params mkstemp fopen_ok p params u
                Hdisk Hpath s.1 s.2 Hc Hdata)
      as (r & w' & rest & E & Hn & Hd & Hw & _).
    exists r, w', rest. split; [exact E|]. split; [exact Hn|].
    assert (Hu : using_temp_file (wfh w') = using_temp_file (wfh s.1)).
    { rewrite Hw. destruct r as [[]|e|]; reflexivity. }
    assert (Ht : temp_file_path (wfh w') = temp_file_path (wfh s.1)).
    { rewrite Hw. destruct r as [[]|e|]; reflexivity. }
    split; [|split; [exact Hu|split]].
    + intros ->. rewrite Hw. split; reflexivity.
    + intros Hs. unfold upload_source. now rewrite Hu, Hs, Ht, Hd.
    + intros Hs ->. unfold upload_source. rewrite Hu, Hs, Hw. reflexivity.
Qed.

(** C3, at the failing input.  Two bytes are written and synced, a third
    is written and synced.  On the staging file the third byte goes to the
    cursor and the second sync uploads the three bytes.  In memory the
    write at the cursor is refused, so that the second sync has nothing to
    send; written at 0 instead, the byte is taken, and the second sync
    uploads it alone, in place of the two bytes uploaded first, although
    the handle has accepted three bytes since it was opened. *)
Theorem C3_second_sync_in_memory_uploads_the_new_bytes_only :
  let in_memory := run (always 201) default_params mkstemp_fixed fopen_fine
                     [Op_Write "ab" 0; Op_Sync; Op_Write "c" 0; Op_Sync]
                     (fresh default_params, mkGhost "" "") in
  let at_cursor := run (always 201) default_params mkstemp_fixed fopen_fine
                     [Op_Write "ab" 0; Op_Sync; Op_Write "c" 2; Op_Sync]
                     (fresh default_params, mkGhost "" "") in
  let spilled := run (always 201) spill_at_once mkstemp_fixed fopen_fine
                   [Op_Write "ab" 0; Op_Sync; Op_Write "c" 2; Op_Sync]
                   (fresh spill_at_once, mkGhost "" "") in
  accepted in_memory.2 = "abc"
  /\ using_temp_file (wfh in_memory.1) = false
  /\ net in_memory.1 = [PutRequest file_url "ab"; PutRequest file_url "c"]
  /\ accepted at_cursor.2 = "ab"
  /\ net at_cursor.1 = [PutRequest file_url "ab"]
  /\ accepted spilled.2 = "abc"
  /\ using_temp_file (wfh spilled.1) = true
  /\ net spilled.1 = [PutRequestFromFile file_url temp_name 2 "ab";
                      PutRequestFromFile file_url temp_name 3 "abc"].
Proof. vm_compute. repeat split. Qed.

(** C4, at the failing input.  The handle is on the staging file with the
    bytes "ab" and the first upload is answered 404: the parent is created
    and the upload is retried once, but from the memory buffer, which is
    empty, and the commit returns on the 201 given to that empty upload.
    In memory the retry carries the same bytes as the first upload. *)
Theorem C4_retry_after_spill_uploads_the_empty_buffer :
  let spilled := run parent_missing spill_at_once mkstemp_fixed fopen_fine
                   [Op_Write "ab" 0] (fresh spill_at_once, mkGhost "" "") in
  let in_memory := run parent_missing default_params mkstemp_fixed fopen_fine
                     [Op_Write "ab" 0] (fresh default_params, mkGhost "" "") in
  upload_source spilled.1 = "ab"
  /\ (FlushBuffer parent_missing spill_at_once fopen_fine spilled.1).1 = Ok tt
  /\ net (FlushBuffer parent_missing spill_at_once fopen_fine spilled.1).2
     = [PutRequestFromFile file_url temp_name 2 "ab";
        InitializeRequest "http://host/dir";
        MkcolRequest "http://host/dir/";
        PutRequest file_url ""]
  /\ net (FlushBuffer parent_missing default_params fopen_fine in_memory.1).2
     = [PutRequest file_url "ab";
        InitializeRequest "http://host/dir";
        MkcolRequest "http://host/dir/";
        PutRequest file_url "ab"].
Proof. vm_compute. repeat split. Qed.

(* ===================================================================== *)
(** ** Glob matching *)
(* ===================================================================== *)

Section MatchFacts.
Variable G : string -> string -> bool.

Lemma Match_nil_pattern (key : list string) :
  Match G key [] = true <-> key = [].
Proof. destruct key; simpl; split; congruence. Qed.

Lemma Match_nil_key (pattern : list string) :
  pattern <> [] -> Match G [] pattern = false.
Proof. destruct pattern; [congruence | reflexivity]. Qed.

Lemma try_each_suffix_true (match_rest : list string -> bool) (key : list string) :
  try_each_suffix match_rest key = true
  <-> exists skipped rest,
        key = skipped ++ rest /\ rest <> [] /\ match_rest rest = true.
Proof.
  induction key as [|k key IH]; simpl.
  - split; [discriminate|].
    intros (skipped & rest & E & Hne & _).
    symmetry in E. apply app_eq_nil in E as [_ ->]. now contradiction Hne.
  - destruct (match_rest (k :: key)) eqn:Hm.
    + split; [|reflexivity]. intros _.
      exists [], (k :: key). repeat split; [discriminate | exact Hm].
    + rewrite IH. split.
      * intros (skipped & rest & -> & Hne & Hr).
        exists (k :: skipped), rest. repeat split; assumption.
      * intros (skipped & rest & E & Hne & Hr).
        destruct skipped as [|x skipped]; simpl in E.
        -- subst rest. congruence.
        -- injection E as -> ->. exists skipped, rest. repeat split; assumption.
Qed.

(** A [**] that closes the pattern takes whatever is left, provided
    something is left. *)
Lemma Match_last_double_star (key : list string) :
  Match G key ["**"] = true <-> key <> [].
Proof. destruct key; simpl; split; congruence. Qed.

(** A [**] with more pattern behind it. *)
Lemma Match_double_star (key : list string) (pattern : list string) :
  pattern <> [] ->
  Match G key ("**" :: pattern) = true
  <-> exists skipped rest, key = skipped ++ rest /\ Match G rest pattern = true.
Proof.
  intros Hne. destruct pattern as [|q pattern]; [congruence|].
  destruct key as [|k key].
  - simpl. split; [discriminate|].
    intros (skipped & rest & E & Hm).
    symmetry in E. apply app_eq_nil in E as [_ ->]. discriminate Hm.
  - change (Match G (k :: key) ("**" :: q :: pattern))
      with (try_each_suffix (fun key => Match G key (q :: pattern)) (k :: key)).
    rewrite try_each_suffix_true. split.
    + intros (skipped & rest & E & _ & Hm). now exists skipped, rest.
    + intros (skipped & rest & E & Hm). exists skipped, rest.
      repeat split; try assumption.
      intros ->. discriminate Hm.
Qed.

(** Any other pattern segment takes exactly one segment of the path. *)
Lemma Match_segment (key : list string) (p : string) (pattern : list string) :
  p <> "**" ->
  Match G key (p :: pattern) = true
  <-> exists k rest, key = k :: rest /\ G k p = true /\ Match G rest pattern = true.
Proof.
  intros Hp. apply String.eqb_neq in Hp.
  destruct key as [|k key]; simpl.
  - split; [discriminate|]. intros (k & rest & E & _). discriminate E.
  - rewrite Hp. destruct (G k p) eqn:Hg; simpl.
    + split.
      * intros Hm. now exists k, key.
      * intros (k' & rest & E & _ & Hm). now injection E as <- <-.
    + split; [discriminate|].
      intros (k' & rest & E & Hg' & _). injection E as <- <-. congruence.
Qed.

End MatchFacts.

Lemma StringUtil_Split_not_nil (input split : string) :
  StringUtil_Split input split <> [].
Proof.
  unfold StringUtil_Split. destruct (split_go split input "" 0); discriminate.
Qed.

(** C6 (amended).  Whatever the single-segment matcher: the empty pattern
    matches the empty path only; a [**] that closes the pattern matches
    what is left of the path when at least one segment is left, and fails
    when none is; a [**] followed by more pattern matches when the rest of
    the pattern matches some suffix of what is left; any other segment must
    match exactly one segment.  With the usual file-name wildcards,
    [a/*.csv] matches [a/x.csv] and not [a/b/x.csv], [a/**/x.csv] matches
    [a/x.csv] and [a/b/c/x.csv], and [**] matches every path, a path always
    being split into at least one segment. *)
Theorem C6_Match_walks_segments :
  (forall G key, Match G key [] = true <-> key = [])
  /\ (forall G key, Match G key ["**"] = true <-> key <> [])
  /\ (forall G key pattern,
      pattern <> [] ->
      Match G key ("**" :: pattern) = true
      <-> exists skipped rest,
            key = skipped ++ rest /\ Match G rest pattern = true)
  /\ (forall G key p pattern,
      p <> "**" ->
      Match G key (p :: pattern) = true
      <-> exists k rest,
            key = k :: rest /\ G k p = true /\ Match G rest pattern = true)
  /\ glob_matches "a/*.csv" "a/x.csv" = true
  /\ glob_matches "a/*.csv" "a/b/x.csv" = false
  /\ glob_matches "a/**/x.csv" "a/x.csv" = true
  /\ glob_matches "a/**/x.csv" "a/b/c/x.csv" = true
  /\ (forall file_path, glob_matches "**" file_path = true).
Proof.
  split; [exact Match_nil_pattern|].
  split; [exact Match_last_double_star|].
  split; [exact Match_double_star|].
  split; [exact Match_segment|].
  repeat split; try reflexivity.
  intros file_path. unfold glob_matches.
  change (StringUtil_Split "**" "/") with ["**"].
  apply Match_last_double_star. apply StringUtil_Split_not_nil.
Qed.

(** C6 as stated fails: a closing [**] does not match the empty rest of a
    path. *)
Lemma C6_closing_double_star_needs_a_segment :
  Match duckdb_Glob_model ["a"] ["a"; "**"] = false
  /\ Match duckdb_Glob_model [] ["**"] = false.
Proof. split; reflexivity. Qed.

(* ===================================================================== *)
(** ** Listing bodies *)
(* ===================================================================== *)

(** *** The scan always ends *)

Lemma prefix_size (needle s : string) :
  String.prefix needle s = true -> size needle <= size s.
Proof.
  revert s. induction needle as [|a needle IH]; intros s H.
  - change (size "") with 0. lia.
  - destruct s as [|b s]; simpl in H; [discriminate|].
    destruct (ascii_dec a b); [|discriminate].
    rewrite !size_cons. specialize (IH s H). lia.
Qed.

Lemma search_found (needle s : string) (i r : N) :
  search needle s i = r -> r <> npos ->
  i <= r /\ r - i + size needle <= size s.
Proof.
  revert i. induction s as [|a s IH]; intros i Hs Hr; cbn [search] in Hs.
  - destruct (String.prefix needle "") eqn:Hp;
      [|exfalso; apply Hr; symmetry; exact Hs].
    subst r. apply prefix_size in Hp. lia.
  - destruct (String.prefix needle (String a s)) eqn:Hp.
    + subst r. apply prefix_size in Hp. lia.
    + destruct (IH (N.succ i) Hs Hr) as [H1 H2]. rewrite size_cons. lia.
Qed.

Lemma size_drop (n : nat) (s : string) :
  (n <= String.length s)%nat -> size (drop n s) = size s - N.of_nat n.
Proof.
  revert s. induction n as [|n IH]; intros s H; simpl.
  - lia.
  - destruct s as [|a s]; simpl in H; [lia|].
    rewrite size_cons, IH by lia. lia.
Qed.

(** A position [find] returns lies at or after the start and leaves room
    for the needle. *)
Lemma find_found (s needle : string) (pos r : N) :
  find s needle pos = r -> r <> npos ->
  pos <= r /\ r + size needle <= size s.
Proof.
  unfold find. destruct (N.ltb_spec (size s) pos) as [Hlt|Hle]; [congruence|].
  intros Hs Hr. destruct (search_found _ _ _ _ Hs Hr) as [H1 H2].
  rewrite size_drop in H2 by (unfold size in Hle; lia). lia.
Qed.

Lemma next_href_found (xml : string) (pos r : N) :
  size xml < npos ->
  next_href xml pos = r -> r <> npos -> pos <= r /\ r + 6 <= size xml.
Proof.
  unfold next_href. intros Hsize Hs Hr.
  destruct (N.eqb_spec (find xml "<D:href>" pos) npos) as [He|Hne]; cbn [negb] in Hs.
  - (* the second search starts at [npos], past the end *)
    rewrite He in Hs.
    destruct (find_found _ _ _ _ Hs Hr) as [H1 H2]. lia.
  - subst r. destruct (find_found _ _ _ _ eq_refl Hne) as [H1 H2].
    change (size "<D:href>") with 8 in H2. lia.
Qed.

Lemma stoi16_terminates (c1 c2 : ascii) : stoi16 c1 c2 <> OutOfFuel.
Proof.
  unfold stoi16.
  repeat match goal with
         | |- context [match ?x with _ => _ end] => destruct x
         end; discriminate.
Qed.

Lemma url_decode_unfold (c h1 h2 : ascii) (rest : string) :
  url_decode (String c (String h1 (String h2 rest)))
  = if Ascii.eqb c "%" then
      match stoi16 h1 h2 with
      | Ok v =>
          match url_decode rest with
          | Ok decoded => Ok (String (char_of_int v) decoded)
          | Throw e => Throw e
          | OutOfFuel => OutOfFuel
          end
      | Throw e => Throw e
      | OutOfFuel => OutOfFuel
      end
    else
      match url_decode (String h1 (String h2 rest)) with
      | Ok decoded => Ok (String c decoded)
      | Throw e => Throw e
      | OutOfFuel => OutOfFuel
      end.
Proof. reflexivity. Qed.

Lemma url_decode_terminates (href : string) : url_decode href <> OutOfFuel.
Proof.
  assert (H : forall n s, (String.length s <= n)%nat -> url_decode s <> OutOfFuel).
  { induction n as [|n IH]; intros s Hn.
    - destruct s; simpl in *; [discriminate | lia].
    - destruct s as [|c [|h1 [|h2 rest]]]; try (cbn; discriminate).
      simpl String.length in Hn.
      assert (H1 : url_decode rest <> OutOfFuel) by (apply IH; lia).
      assert (H2 : url_decode (String h1 (String h2 rest)) <> OutOfFuel)
        by (apply IH; simpl; lia).
      pose proof (stoi16_terminates h1 h2) as H3.
      rewrite url_decode_unfold.
      destruct (Ascii.eqb c "%").
      + destruct (stoi16 h1 h2); try discriminate; [|congruence].
        destruct (url_decode rest); congruence.
      + destruct (url_decode (String h1 (String h2 rest))); congruence. }
  apply (H (String.length href)). lia.
Qed.

Lemma tag_sizes (xml : string) (pos : N) :
  6 <= size (tag_open_at xml pos)
  /\ 7 <= size (tag_close_of (tag_open_at xml pos)).
Proof.
  unfold tag_open_at, tag_close_of.
  destruct (String.eqb (substr xml pos 8) "<D:href>"); vm_compute; split; discriminate.
Qed.

(** [parse_loop] never exhausts the fuel [ParsePropfindResponse] gives
    it: every round moves [pos] forward. *)
Lemma parse_loop_terminates (fuel : nat) :
  forall (xml : string) (pos : N) (found : list string),
  size xml < npos ->
  (N.to_nat (size xml - pos) < fuel)%nat ->
  parse_loop fuel xml pos found <> OutOfFuel.
Proof.
  induction fuel as [|fuel IH]; intros xml pos found Hsize Hfuel; [lia|].
  cbn [parse_loop].
  destruct (N.eqb_spec (next_href xml pos) npos) as [He|Hne]; [discriminate|].
  destruct (next_href_found xml pos _ Hsize eq_refl Hne) as [H1 H2].
  set (p := next_href xml pos) in *.
  destruct (tag_sizes xml p) as [Ho Hc].
  destruct (N.eqb_spec (find xml (tag_close_of (tag_open_at xml p))
                          (p + size (tag_open_at xml p))) npos) as [He|Hne'];
    [discriminate|].
  destruct (find_found _ _ _ _ eq_refl Hne') as [H3 H4].
  set (e := find xml (tag_close_of (tag_open_at xml p))
              (p + size (tag_open_at xml p))) in *.
  pose proof (url_decode_terminates (substr xml (p + size (tag_open_at xml p))
                                       (e - (p + size (tag_open_at xml p))))) as Hd.
  destruct (url_decode _) as [decoded|ex|]; [|discriminate|congruence].
  apply IH; [exact Hsize | lia].
Qed.

Lemma ParsePropfindResponse_terminates (xml_response base_path : string) :
  size xml_response < npos ->
  ParsePropfindResponse xml_response base_path <> OutOfFuel.
Proof.
  intros Hsize. unfold ParsePropfindResponse.
  apply parse_loop_terminates; [exact Hsize|]. unfold size. lia.
Qed.

(** *** The two spellings of the reference tag *)

Lemma find_past_the_end (s needle : string) (pos : N) :
  size s < pos -> find s needle pos = npos.
Proof.
  intros H. unfold find. apply N.ltb_lt in H. now rewrite H.
Qed.

(** Once [<D:href>] is not found the scan is over, whether or not an
    [<href>] follows: the second search starts at [npos]. *)
Lemma next_href_needs_the_prefixed_tag (xml : string) (pos : N) :
  size xml < npos ->
  find xml "<D:href>" pos = npos ->
  next_href xml pos = npos.
Proof.
  intros Hsize Hfind. unfold next_href. rewrite Hfind. cbn [N.eqb negb].
  change (negb (npos =? npos)) with false. cbv iota.
  now apply find_past_the_end.
Qed.

Lemma ParsePropfindResponse_without_prefixed_tag (xml base_path : string) :
  size xml < npos ->
  find xml "<D:href>" 0 = npos ->
  ParsePropfindResponse xml base_path = Ok [].
Proof.
  intros Hsize Hfind. unfold ParsePropfindResponse. cbn [parse_loop].
  rewrite (next_href_needs_the_prefixed_tag xml 0 Hsize Hfind).
  reflexivity.
Qed.

(** A valid escape decodes to the character with that code. *)
Lemma url_decode_space : url_decode "my%20file.csv" = Ok "my file.csv".
Proof. reflexivity. Qed.

(** C8, at the failing input.  A body whose two reference tags are spelled
    without the namespace prefix yields no entry at all, neither a file
    nor a collection; the same body with the prefix yields the file, with
    [%20] decoded, and the collection. *)
Theorem C8_unprefixed_reference_tags_are_skipped :
  let unprefixed := "<href>/dir/sub/</href><href>/dir/my%20file.csv</href>" in
  let prefixed :=
    "<D:href>/dir/sub/</D:href><D:href>/dir/my%20file.csv</D:href>" in
  let server_url := mkParsed "http" "host" "/dir/*.csv" in
  ParsePropfindResponse unprefixed "/dir/" = Ok []
  /\ subdirs_loop (S (String.length unprefixed)) server_url "/dir/" unprefixed 0 []
     = Ok []
  /\ ParsePropfindResponse prefixed "/dir/" = Ok ["/dir/my file.csv"]
  /\ subdirs_loop (S (String.length prefixed)) server_url "/dir/" prefixed 0 []
     = Ok ["http://host/dir/sub/"].
Proof. vm_compute. repeat split. Qed.

(* ===================================================================== *)
(** ** Creating directories *)
(* ===================================================================== *)

Section CreateDirectoryFacts.
Variable server : list Request -> Request -> HTTPResponse.
Variable params : HTTPFSParams.

(** [CreateDirectory] up to the answer to its first [MKCOL]. *)
Lemma CreateDirectory_first_answer (fuel : nat) (directory : string)
    (opener : option FileOpener) (u : ParsedWebDAVUrl) (w : World) :
  ParseUrl directory = Ok u ->
  let probed := net w ++ [InitializeRequest (GetHTTPUrl u)] in
  let response := server probed (MkcolRequest (mkcol_url u)) in
  let w' := set_net (probed ++ [MkcolRequest (mkcol_url u)]) w in
  (is_created response = true \/ status response = 405 ->
   CreateDirectory server params (S fuel) directory opener w = (Ok tt, w'))
  /\ (status response = 507 ->
      CreateDirectory server params (S fuel) directory opener w
      = (Throw (IOException (storage_full_message directory)), w')).
Proof.
  intros Hparse probed response w'.
  assert (Hinit : forall b : bool,
            (if b then (Ok tt, set_net probed w)
             else (Ok tt, set_net probed w)) = (Ok tt, set_net probed w))
    by (intros []; reflexivity).
  split; intros Hst; cbn [CreateDirectory];
    unfold CreateHandle, Initialize, WebDAVFileHandle_new;
    rewrite Hparse;
    cbn [FILE_FLAGS_READ OpenForReading OpenForWriting OpenForAppending andb];
    cbv [mbind mret M_bind M_ret lift try_catch send throw];
    cbn [path net set_net wfh disk is_HTTPException];
    fold (mkcol_url u);
    destruct ((200 <=? status (server (net w) (InitializeRequest (GetHTTPUrl u))))
              && (status (server (net w) (InitializeRequest (GetHTTPUrl u))) <? 300));
    cbn [path net set_net wfh disk is_HTTPException];
    fold probed; fold response.
  1,2: destruct (is_created response) eqn:Hc; cbn [negb]; [reflexivity|];
       destruct Hst as [Hst|Hst]; [discriminate|];
       unfold is_created in Hc |- *; rewrite Hst in Hc;
       unfold w', set_net; cbn [wfh disk net];
       repeat (rewrite Hst; cbn [N.eqb Pos.eqb orb negb andb]);
       reflexivity.
  1,2: unfold is_created; unfold w', set_net; cbn [wfh disk net];
       repeat (rewrite Hst; cbn [N.eqb Pos.eqb orb negb andb]);
       reflexivity.
Qed.

(** How [CreateDirectoryRecursive] goes on after a level: an error is
    raised again when it is an [IOException] whose message reads as a
    quota error or when it is not an [IOException]; otherwise the next
    level is tried. *)
Lemma create_each_level_cons (create : string -> option FileOpener -> M unit)
    (protocol_prefix accumulated_path part : string) (rest : list string)
    (opener : option FileOpener) (w : World) :
  let accumulated := accumulated_path +:+ ("/" +:+ part) in
  let next := create_each_level create protocol_prefix accumulated rest opener in
  create_each_level create protocol_prefix accumulated_path (part :: rest) opener w
  = match create (protocol_prefix +:+ accumulated) opener w with
    | (Ok _, w') => next w'
    | (Throw e, w') =>
        if is_IOException e && negb (reads_as_quota_error (what e))
        then next w' else (Throw e, w')
    | (OutOfFuel, w') => (OutOfFuel, w')
    end.
Proof.
  cbn [create_each_level]. cbv [mbind M_bind try_catch]. cbv zeta.
  destruct (create _ opener w) as [[[]|e|] w']; try reflexivity.
  unfold reads_as_quota_error.
  destruct (is_IOException e); [|reflexivity]. cbn [andb].
  destruct (negb (find (what e) "Storage is full" 0 =? npos)
            || negb (find (what e) "insufficient storage" 0 =? npos));
    reflexivity.
Qed.

End CreateDirectoryFacts.

Lemma prefix_app (needle b : string) : String.prefix needle (needle +:+ b) = true.
Proof.
  induction needle as [|a needle IH].
  - rewrite str_app_nil_l. destruct b; reflexivity.
  - rewrite str_app_cons. simpl. destruct (ascii_dec a a); [exact IH | congruence].
Qed.

Lemma search_app_found (needle a b : string) (i : N) :
  search needle (a +:+ needle +:+ b) i <= i + size a.
Proof.
  revert i. induction a as [|x a IH]; intros i.
  - rewrite str_app_nil_l.
    destruct (needle +:+ b) eqn:E; cbn [search]; rewrite <- ?E, prefix_app; lia.
  - rewrite str_app_cons. cbn [search].
    destruct (String.prefix needle (String x (a +:+ needle +:+ b))).
    + lia.
    + specialize (IH (N.succ i)). rewrite size_cons. lia.
Qed.

Lemma find_occurrence (needle a b : string) :
  find (a +:+ needle +:+ b) needle 0 <= size a.
Proof.
  unfold find.
  assert (H : (size (a +:+ needle +:+ b) <? 0) = false) by (apply N.ltb_ge; lia).
  rewrite H. change (N.to_nat 0) with 0%nat. cbn [drop].
  apply (search_app_found needle a b 0).
Qed.

(** So does the message of any other error on a directory whose name
    holds the phrase. *)
Lemma create_failed_message_quoting_the_phrase (a b : string) (st : N) :
  size a + 27 < npos ->
  reads_as_quota_error
    (create_failed_message (a +:+ "Storage is full" +:+ b) st) = true.
Proof.
  intros Hsize.
  assert (E : create_failed_message (a +:+ "Storage is full" +:+ b) st
              = ("Failed to create directory " +:+ a)
                +:+ "Storage is full" +:+ (b +:+ ": HTTP " +:+ to_string st)).
  { unfold create_failed_message. now rewrite !str_app_assoc. }
  unfold reads_as_quota_error. rewrite E.
  apply orb_true_iff. left. apply negb_true_iff, N.eqb_neq.
  match goal with
  | |- find (?x +:+ ?n +:+ ?y) _ 0 <> npos =>
      pose proof (find_occurrence n x y) as H
  end.
  rewrite size_app in H.
  change (size "Failed to create directory ") with 27 in H.
  lia.
Qed.

(** The message of the storage-full error reads as a quota error. *)
Lemma storage_full_reads_as_quota_error (directory : string) :
  size directory + 29 < npos ->
  reads_as_quota_error (storage_full_message directory) = true.
Proof.
  intros Hsize.
  assert (E : storage_full_message directory
              = ("Failed to create directory " +:+ directory +:+ ": ")
                +:+ "Storage is full"
                +:+ ". The WebDAV server has insufficient storage space available. Free up space or resize your storage.").
  { unfold storage_full_message. rewrite !str_app_assoc. reflexivity. }
  unfold reads_as_quota_error. rewrite E.
  apply orb_true_iff. left. apply negb_true_iff, N.eqb_neq.
  match goal with
  | |- find (?a +:+ ?n +:+ ?b) _ 0 <> npos =>
      pose proof (find_occurrence n a b) as H
  end.
  rewrite !size_app in H.
  change (size "Failed to create directory ") with 27 in H.
  change (size ": ") with 2 in H.
  lia.
Qed.

(** C9, at the failing input.  Every [MKCOL] is answered 403, which is not
    a quota error.  For [webdav://host/a/x] both levels are attempted and
    the errors are swallowed.  For [webdav://host/Storage is full/x] the
    error of the first level is raised again, because its message quotes
    the directory name, and the second level is never attempted. *)
Theorem C9_level_named_like_the_quota_message_stops_the_chain :
  let w := fresh default_params in
  CreateDirectoryRecursive (always 403) default_params "webdav://host/a/x" None w
  = (Ok tt,
     set_net [InitializeRequest "http://host/a"; MkcolRequest "http://host/a/";
              InitializeRequest "http://host/a/x"; MkcolRequest "http://host/a/x/"] w)
  /\ CreateDirectoryRecursive (always 403) default_params
       "webdav://host/Storage is full/x" None w
     = (Throw (IOException
                 "Failed to create directory webdav://host/Storage is full: HTTP 403"),
        set_net [InitializeRequest "http://host/Storage is full";
                 MkcolRequest "http://host/Storage is full/"] w).
Proof. vm_compute. split; reflexivity. Qed.

(* ===================================================================== *)
(** ** The bound on the depth of directory creation is never reached *)
(* ===================================================================== *)

(** *** More on [std::string] *)

Lemma length_substring (s : string) :
  forall n m, (n <= String.length s)%nat ->
  String.length (String.substring n m s) = Nat.min m (String.length s - n).
Proof.
  induction s as [|a s IH]; intros n m Hn.
  - destruct n, m; simpl in *; lia.
  - destruct n as [|n].
    + destruct m as [|m]; simpl; [reflexivity|].
      rewrite IH by lia. simpl. lia.
    + simpl in *. rewrite IH by lia. reflexivity.
Qed.

Lemma size_substr (s : string) (pos len : N) :
  pos <= size s -> size (substr s pos len) = N.min len (size s - pos).
Proof.
  intros Hpos. unfold substr.
  assert (H : (size s <? pos) = false) by (apply N.ltb_ge; exact Hpos).
  rewrite H. unfold size in *. rewrite length_substring by lia. lia.
Qed.

Lemma substring_to_the_end (s : string) :
  forall n, String.substring n (String.length s - n) s = drop n s.
Proof.
  induction s as [|a s IH]; intros n.
  - destruct n; reflexivity.
  - destruct n as [|n]; simpl.
    + f_equal. specialize (IH 0%nat). rewrite Nat.sub_0_r in IH. exact IH.
    + apply IH.
Qed.

Lemma substr_from_drop (s : string) (pos : N) :
  size s < npos -> pos <= size s ->
  substr_from s pos = drop (N.to_nat pos) s.
Proof.
  intros Hs Hpos. unfold substr_from, substr.
  assert (H : (size s <? pos) = false) by (apply N.ltb_ge; exact Hpos).
  rewrite H.
  replace (N.to_nat (N.min npos (size s - pos)))
    with (String.length s - N.to_nat pos)%nat by (unfold size in *; lia).
  apply substring_to_the_end.
Qed.

Lemma search_char_found (c : ascii) (s : string) (i r : N) :
  search (String c "") s i = r -> r <> npos ->
  exists t, drop (N.to_nat (r - i)) s = String c t.
Proof.
  revert i. induction s as [|a s IH]; intros i Hs Hr; cbn [search] in Hs.
  - simpl in Hs. congruence.
  - destruct (String.prefix (String c "") (String a s)) eqn:Hp.
    + subst r. rewrite N.sub_diag. simpl in Hp |- *.
      destruct (ascii_dec c a) as [->|]; [|discriminate]. now exists s.
    + destruct (search_found _ _ _ _ Hs Hr) as [H1 _].
      destruct (IH _ Hs Hr) as [t Ht]. exists t.
      replace (N.to_nat (r - i)) with (S (N.to_nat (r - N.succ i))) by lia.
      exact Ht.
Qed.

(** What follows the first [c] of [s], [c] included. *)
Lemma substr_from_find_char (s : string) (c : ascii) (r : N) :
  size s < npos -> find_char s c 0 = r -> r <> npos ->
  exists t, substr_from s r = String c t.
Proof.
  intros Hsize Hf Hr.
  destruct (find_found _ _ _ _ Hf Hr) as [_ Hle].
  unfold find_char, find in Hf.
  assert (H : (size s <? 0) = false) by (apply N.ltb_ge; lia).
  rewrite H in Hf. change (N.to_nat 0) with 0%nat in Hf. cbn [drop] in Hf.
  destruct (search_char_found c s 0 r Hf Hr) as [t Ht].
  rewrite N.sub_0_r in Ht. exists t.
  rewrite substr_from_drop; [exact Ht | exact Hsize | lia].
Qed.

Lemma rfind_from_range (c : ascii) (s : string) :
  forall i limit best,
  rfind_from c s i limit best = best
  \/ (i <= rfind_from c s i limit best < i + size s).
Proof.
  induction s as [|a s IH]; intros i limit best; cbn [rfind_from].
  - now left.
  - rewrite size_cons.
    destruct (IH (N.succ i) limit
                (if Ascii.eqb a c && (i <=? limit) then i else best)) as [E|R].
    + rewrite E. destruct (Ascii.eqb a c && (i <=? limit)); [right; lia | now left].
    + right. lia.
Qed.

Lemma rfind_found (s : string) (c : ascii) (pos : N) :
  rfind s c pos <> npos -> rfind s c pos < size s.
Proof.
  intros Hr. unfold rfind in *.
  destruct (rfind_from_range c s 0 pos npos) as [E|R]; [congruence | lia].
Qed.

(** *** The components of a path *)

Lemma joined_length_app (l1 l2 : list string) :
  joined_length (l1 ++ l2) = (joined_length l1 + joined_length l2)%nat.
Proof. induction l1 as [|x l1 IH]; simpl; [reflexivity | rewrite IH; lia]. Qed.

Lemma length_app_string (a b : string) :
  String.length (a +:+ b) = (String.length a + String.length b)%nat.
Proof.
  induction a as [|x a IH]; [reflexivity|].
  rewrite str_app_cons. simpl. now rewrite IH.
Qed.

(** The components of a path, each with its ['/'], take no more room than
    the path, give or take the ['/'] a path may lack in front. *)
Lemma split_components_length (p : string) :
  forall current path_parts,
  (joined_length (split_components p current path_parts)
   <= joined_length path_parts
      + (if empty current then 0 else S (String.length current))
      + String.length p
      + (if empty current
         then match p with
              | EmptyString => 0
              | String c _ => if Ascii.eqb c "/" then 0 else 1
              end
         else 0))%nat.
Proof.
  induction p as [|c p IH]; intros current path_parts; cbn [split_components].
  - destruct (empty current); cbn [negb]; rewrite ?joined_length_app; simpl; lia.
  - destruct (Ascii.eqb c "/") eqn:Hc.
    + destruct (empty current) eqn:He; cbn [negb].
      * specialize (IH current path_parts). rewrite He in IH.
        simpl String.length. destruct p as [|c' p']; [simpl in *; lia|].
        destruct (Ascii.eqb c' "/"); lia.
      * specialize (IH "" (path_parts ++ [current])).
        rewrite joined_length_app in IH. simpl in IH. simpl String.length.
        destruct p as [|c' p']; [simpl in *; lia|].
        destruct (Ascii.eqb c' "/"); lia.
    + specialize (IH (current +:+ String c "") path_parts).
      assert (He' : empty (current +:+ String c "") = false)
        by (destruct current; reflexivity).
      rewrite He', length_app_string in IH. simpl in IH. simpl String.length.
      destruct (empty current) eqn:He.
      * apply empty_spec in He. subst current. simpl in IH. lia.
      * lia.
Qed.

Lemma split_components_of_path (t : string) :
  (joined_length (split_components (String "/" t) "" [])
   <= String.length (String "/" t))%nat.
Proof.
  pose proof (split_components_length (String "/" t) "" []) as H.
  simpl in H |- *. lia.
Qed.

(** *** What [ParseUrl] hands to [CreateDirectoryRecursive] *)

(** The host and the path a URL is cut into at its first ['/']. *)
Lemma host_and_path_length (rest : string) :
  size rest < npos ->
  let slash_pos := find_char rest "/" 0 in
  (String.length (substr rest 0%N slash_pos)
   + joined_length
       (split_components
          (if negb (slash_pos =? npos)%N then substr_from rest slash_pos else "/")
          "" [])
   <= String.length rest)%nat.
Proof.
  intros Hsize slash_pos.
  destruct (N.eqb_spec slash_pos npos) as [He|Hne]; cbn [negb].
  - change (joined_length (split_components "/" "" [])) with 0%nat.
    assert (H : size (substr rest 0 slash_pos) = N.min slash_pos (size rest - 0))
      by (apply size_substr; lia).
    unfold size in *. lia.
  - destruct (find_found rest (String "/" "") 0 slash_pos eq_refl Hne) as [_ Hle].
    rewrite size_cons in Hle. change (size "") with 0 in Hle.
    destruct (substr_from_find_char rest "/" slash_pos Hsize eq_refl Hne) as [t Ht].
    assert (H1 : size (substr rest 0 slash_pos) = N.min slash_pos (size rest - 0))
      by (apply size_substr; lia).
    assert (H2 : size (substr_from rest slash_pos)
                 = N.min npos (size rest - slash_pos))
      by (apply size_substr; lia).
    pose proof (split_components_of_path t) as H3.
    rewrite <- Ht in H3. unfold size in *. lia.
Qed.

Lemma after_prefix (url pre : string) :
  size url < npos -> StartsWith url pre = true ->
  String.length url
  = (String.length pre + String.length (substr_from url (size pre)))%nat.
Proof.
  intros Hsize Hpre. apply prefix_size in Hpre.
  assert (H : size (substr_from url (size pre))
              = N.min npos (size url - size pre))
    by (apply size_substr; exact Hpre).
  unfold size in *. lia.
Qed.

Lemma split_host_length (proto rest : string) (u : ParsedWebDAVUrl) :
  size rest < npos ->
  (if negb (find_char rest "/" 0 =? npos)
   then Ok (mkParsed proto (substr rest 0 (find_char rest "/" 0))
                     (substr_from rest (find_char rest "/" 0)))
   else Ok (mkParsed proto rest "/")) = Ok u ->
  (String.length (host u) + joined_length (split_components (url_path u) "" [])
   <= String.length rest)%nat.
Proof.
  intros Hsize Hu. pose proof (host_and_path_length rest Hsize) as H.
  cbv zeta in H.
  destruct (negb (find_char rest "/" 0 =? npos)); injection Hu as <-;
    cbn [host url_path].
  - exact H.
  - change (joined_length (split_components "/" "" [])) with 0%nat. lia.
Qed.

(** The directories [CreateDirectoryRecursive] asks for are no longer than
    the one it was given. *)
Lemma levels_fit_in_the_url (url : string) (u : ParsedWebDAVUrl) :
  size url < npos -> ParseUrl url = Ok u ->
  (String.length (original_prefix url u)
   + joined_length (split_components (url_path u) "" [])
   <= String.length url)%nat.
Proof.
  intros Hsize Hu. unfold ParseUrl in Hu. unfold original_prefix.
  assert (Hrest : forall pre, StartsWith url pre = true ->
                  size (substr_from url (size pre)) < npos).
  { intros pre Hpre. pose proof (after_prefix url pre Hsize Hpre).
    unfold size in *. lia. }
  destruct (StartsWith url "storagebox://") eqn:H1.
  - pose proof (after_prefix url _ Hsize H1) as Hlen.
    pose proof (host_and_path_length _ (Hrest _ H1)) as H. cbv zeta in H.
    change (size "storagebox://") with 13 in *.
    rewrite length_app_string.
    change (String.length "storagebox://") with 13%nat in *.
    destruct (negb (find_char (substr_from url 13) "/" 0 =? npos));
      injection Hu as <-; cbn [url_path]; [lia|].
    change (joined_length (split_components "/" "" [])) with 0%nat in *. lia.
  - destruct (StartsWith url "webdav://") eqn:H2.
    { pose proof (after_prefix url _ Hsize H2) as Hlen.
      pose proof (split_host_length _ _ _ (Hrest _ H2) Hu) as H.
      change (size "webdav://") with 9 in *.
      rewrite length_app_string.
      change (String.length "webdav://") with 9%nat in *. lia. }
    destruct (StartsWith url "webdavs://") eqn:H3.
    { pose proof (after_prefix url _ Hsize H3) as Hlen.
      pose proof (split_host_length _ _ _ (Hrest _ H3) Hu) as H.
      change (size "webdavs://") with 10 in *.
      rewrite length_app_string.
      change (String.length "webdavs://") with 10%nat in *. lia. }
    destruct (StartsWith url "https://") eqn:H4.
    { pose proof (after_prefix url _ Hsize H4) as Hlen.
      pose proof (split_host_length _ _ _ (Hrest _ H4) Hu) as H.
      change (size "https://") with 8 in *.
      assert (Hp : http_proto u = "https").
      { destruct (negb (find_char (substr_from url 8) "/" 0 =? npos));
          injection Hu as <-; reflexivity. }
      rewrite Hp, !length_app_string.
      change (String.length "https://") with 8%nat in *.
      change (String.length "https") with 5%nat.
      change (String.length "://") with 3%nat. lia. }
    destruct (StartsWith url "http://") eqn:H5; [|discriminate].
    pose proof (after_prefix url _ Hsize H5) as Hlen.
    pose proof (split_host_length _ _ _ (Hrest _ H5) Hu) as H.
    change (size "http://") with 7 in *.
    assert (Hp : http_proto u = "http").
    { destruct (negb (find_char (substr_from url 7) "/" 0 =? npos));
        injection Hu as <-; reflexivity. }
    rewrite Hp, !length_app_string.
    change (String.length "http://") with 7%nat in *.
    change (String.length "http") with 4%nat.
    change (String.length "://") with 3%nat. lia.
Qed.

(** *** Calls that return or raise *)

Lemma returns_or_raises_ret {A : Type} (a : A) : returns_or_raises (mret a).
Proof. intros w. discriminate. Qed.

Lemma returns_or_raises_throw {A : Type} (e : exception) :
  returns_or_raises (@throw A e).
Proof. intros w. discriminate. Qed.

Lemma returns_or_raises_bind {A B : Type} (c : M A) (k : A -> M B) :
  returns_or_raises c -> (forall a, returns_or_raises (k a)) ->
  returns_or_raises (c ≫= k).
Proof.
  intros Hc Hk w. unfold mbind, M_bind. specialize (Hc w).
  destruct (c w) as [[a|e|] w']; cbn [fst] in *;
    [apply Hk | discriminate | congruence].
Qed.

Lemma returns_or_raises_lift {A : Type} (r : result A) :
  r <> OutOfFuel -> returns_or_raises (lift r).
Proof. intros Hr w. exact Hr. Qed.

(** What follows a pure step may rely on its result. *)
Lemma returns_or_raises_lift_bind {A B : Type} (r : result A) (k : A -> M B) :
  r <> OutOfFuel -> (forall a, r = Ok a -> returns_or_raises (k a)) ->
  returns_or_raises (lift r ≫= k).
Proof.
  intros Hr Hk w. unfold mbind, M_bind, lift.
  destruct r as [a|e|]; [now apply Hk | discriminate | congruence].
Qed.

Lemma returns_or_raises_try_catch {A : Type} (catches : exception -> bool)
    (c : M A) (handler : exception -> M A) :
  returns_or_raises c -> (forall e, returns_or_raises (handler e)) ->
  returns_or_raises (try_catch catches c handler).
Proof.
  intros Hc Hh w. unfold try_catch. specialize (Hc w).
  destruct (c w) as [[a|e|] w']; cbn [fst] in *;
    [discriminate | | congruence].
  destruct (catches e); [apply Hh | discriminate].
Qed.

Lemma ParseUrl_returns_or_raises (url : string) : ParseUrl url <> OutOfFuel.
Proof.
  unfold ParseUrl.
  repeat match goal with
         | |- context [if ?b then _ else _] => destruct b
         end; discriminate.
Qed.

Section Totality.
Variable server : list Request -> Request -> HTTPResponse.
Variable params : HTTPFSParams.

Lemma send_returns (r : Request) : returns_or_raises (send server r).
Proof. intros w. discriminate. Qed.

Lemma CreateHandle_returns_or_raises (file_path : string) (fl : FileOpenFlags)
    (opener : option FileOpener) :
  returns_or_raises (CreateHandle params file_path fl opener).
Proof.
  unfold CreateHandle. apply returns_or_raises_bind.
  - apply returns_or_raises_lift, ParseUrl_returns_or_raises.
  - intros u. apply returns_or_raises_lift. unfold WebDAVFileHandle_new.
    destruct (OpenForReading fl && OpenForWriting fl); [discriminate|].
    destruct (OpenForAppending fl); discriminate.
Qed.

Lemma Initialize_returns_or_raises (h : WebDAVFileHandle) :
  returns_or_raises (Initialize server h).
Proof.
  unfold Initialize. apply returns_or_raises_bind; [apply send_returns|].
  intros response.
  destruct ((200 <=? status response) && (status response <? 300));
    [apply returns_or_raises_ret | apply returns_or_raises_throw].
Qed.

(** The loop over the levels returns or raises when the creation of each
    level does. *)
Lemma create_each_level_returns_or_raises
    (create : string -> option FileOpener -> M unit)
    (protocol_prefix : string) (opener : option FileOpener)
    (path_parts : list string) :
  forall accumulated_path,
  (forall d,
     (String.length d
      <= String.length protocol_prefix + String.length accumulated_path
         + joined_length path_parts)%nat ->
     returns_or_raises (create d opener)) ->
  returns_or_raises
    (create_each_level create protocol_prefix accumulated_path path_parts opener).
Proof.
  induction path_parts as [|part rest IH]; intros accumulated_path Hcreate;
    cbn [create_each_level].
  - apply returns_or_raises_ret.
  - apply returns_or_raises_bind.
    + apply returns_or_raises_try_catch.
      * apply Hcreate. rewrite !length_app_string. simpl. lia.
      * intros e.
        destruct (negb (find (what e) "Storage is full" 0 =? npos)
                  || negb (find (what e) "insufficient storage" 0 =? npos));
          [apply returns_or_raises_throw | apply returns_or_raises_ret].
    + intros _. apply IH. intros d Hd. apply Hcreate.
      rewrite !length_app_string in Hd. simpl in Hd |- *. lia.
Qed.

Lemma CreateDirectoryRecursive_with_returns_or_raises
    (create : string -> option FileOpener -> M unit)
    (directory : string) (opener : option FileOpener) :
  size directory < npos ->
  (forall d, (String.length d <= String.length directory)%nat ->
             returns_or_raises (create d opener)) ->
  returns_or_raises (CreateDirectoryRecursive_with create directory opener).
Proof.
  intros Hsize Hcreate. unfold CreateDirectoryRecursive_with.
  apply returns_or_raises_lift_bind; [apply ParseUrl_returns_or_raises|].
  intros u Hu. apply create_each_level_returns_or_raises.
  intros d Hd. apply Hcreate.
  pose proof (levels_fit_in_the_url directory u Hsize Hu).
  change (String.length "") with 0%nat in Hd. lia.
Qed.

(** [CreateDirectory] goes through [CreateDirectoryRecursive] and back with
    a shorter name each time: a bound above the length of the name is never
    used up. *)
Lemma CreateDirectory_returns_or_raises (fuel : nat) :
  forall (directory : string) (opener : option FileOpener),
  size directory < npos -> (String.length directory < fuel)%nat ->
  returns_or_raises (CreateDirectory server params fuel directory opener).
Proof.
  induction fuel as [|fuel IH]; intros directory opener Hsize Hfuel; [lia|].
  cbn [CreateDirectory].
  apply returns_or_raises_bind;
    [apply returns_or_raises_lift, ParseUrl_returns_or_raises|].
  intros u.
  apply returns_or_raises_bind; [apply CreateHandle_returns_or_raises|].
  intros handle.
  apply returns_or_raises_bind.
  { apply returns_or_raises_try_catch; [apply Initialize_returns_or_raises|].
    intros e. apply returns_or_raises_ret. }
  intros _.
  apply returns_or_raises_bind; [apply send_returns|].
  intros response.
  destruct (negb (is_created response)); [|apply returns_or_raises_ret].
  apply returns_or_raises_bind.
  { destruct (status response =? 507);
      [apply returns_or_raises_throw | apply returns_or_raises_ret]. }
  intros _.
  apply returns_or_raises_bind.
  - destruct ((status response =? 404) || (status response =? 409));
      [|apply returns_or_raises_ret].
    destruct (N.eqb_spec (rfind directory "/" npos) npos) as [He|Hne];
      cbn [negb andb]; [apply returns_or_raises_ret|].
    destruct (0 <? rfind directory "/" npos); [|apply returns_or_raises_ret].
    match goal with
    | |- context [if negb ?b then _ else _] => destruct (negb b)
    end; [|apply returns_or_raises_ret].
    match goal with
    | |- context [if ?b then _ else _] => destruct b
    end; [|apply returns_or_raises_ret].
    apply returns_or_raises_bind; [|intros _; apply send_returns].
    apply rfind_found in Hne.
    assert (Hparent : size (substr directory 0 (rfind directory "/" npos))
                      = N.min (rfind directory "/" npos) (size directory - 0))
      by (apply size_substr; lia).
    apply CreateDirectoryRecursive_with_returns_or_raises; [lia|].
    intros d Hd. apply IH; unfold size in *; lia.
  - intros response'.
    destruct (negb (is_created response')); [|apply returns_or_raises_ret].
    destruct (status response' =? 507); [apply returns_or_raises_throw|].
    destruct (negb (status response' =? 405));
      [apply returns_or_raises_throw | apply returns_or_raises_ret].
Qed.

(** [CreateDirectoryRecursive] returns or raises: the depth it allows is
    enough for every name. *)
Lemma CreateDirectoryRecursive_returns_or_raises (directory : string)
    (opener : option FileOpener) :
  size directory < npos ->
  returns_or_raises (CreateDirectoryRecursive server params directory opener).
Proof.
  intros Hsize. unfold CreateDirectoryRecursive.
  apply CreateDirectoryRecursive_with_returns_or_raises; [exact Hsize|].
  intros d Hd. apply CreateDirectory_returns_or_raises;
    unfold depth_bound, size in *; lia.
Qed.

End Totality.

(** *** The commit and the resolution of a pattern return or raise *)

Lemma returns_or_raises_get_handle {B : Type} (k : WebDAVFileHandle -> M B) :
  (forall h, returns_or_raises (k h)) -> returns_or_raises (get_handle ≫= k).
Proof. intros Hk. apply returns_or_raises_bind; [intros w; discriminate | exact Hk]. Qed.

Lemma returns_or_raises_get_disk {B : Type} (k : gmap string string -> M B) :
  (forall d, returns_or_raises (k d)) -> returns_or_raises (get_disk ≫= k).
Proof. intros Hk. apply returns_or_raises_bind; [intros w; discriminate | exact Hk]. Qed.

Lemma returns_or_raises_put_disk (d : gmap string string) :
  returns_or_raises (put_disk d).
Proof. intros w. discriminate. Qed.

Lemma returns_or_raises_modify_handle (f : WebDAVFileHandle -> WebDAVFileHandle) :
  returns_or_raises (modify_handle f).
Proof. intros w. discriminate. Qed.

Lemma subdirs_loop_terminates (fuel : nat) :
  forall (u : ParsedWebDAVUrl) (prefix_path xml : string) (pos : N)
         (subdirs : list string),
  size xml < npos ->
  (N.to_nat (size xml - pos) < fuel)%nat ->
  subdirs_loop fuel u prefix_path xml pos subdirs <> OutOfFuel.
Proof.
  induction fuel as [|fuel IH]; intros u prefix_path xml pos subdirs Hsize Hfuel;
    [lia|].
  cbn [subdirs_loop].
  destruct (N.eqb_spec (next_href xml pos) npos) as [He|Hne]; [discriminate|].
  destruct (next_href_found xml pos _ Hsize eq_refl Hne) as [H1 H2].
  set (p := next_href xml pos) in *.
  destruct (tag_sizes xml p) as [Ho Hc].
  destruct (N.eqb_spec (find xml (tag_close_of (tag_open_at xml p))
                          (p + size (tag_open_at xml p))) npos) as [He|Hne'];
    [discriminate|].
  destruct (find_found _ _ _ _ eq_refl Hne') as [H3 H4].
  set (e := find xml (tag_close_of (tag_open_at xml p))
              (p + size (tag_open_at xml p))) in *.
  pose proof (url_decode_terminates (substr xml (p + size (tag_open_at xml p))
                                       (e - (p + size (tag_open_at xml p))))) as Hd.
  destruct (url_decode _) as [decoded|ex|]; [|discriminate|congruence].
  apply IH; [exact Hsize | lia].
Qed.

Section TotalityOfCalls.
Variable server : list Request -> Request -> HTTPResponse.
Variable params : HTTPFSParams.
Variable fopen_ok : gmap string string -> string -> bool.
Variable Split : string -> string -> list string.
Variable duckdb_Glob : string -> string -> bool.

Lemma PutFromFile_returns_or_raises (url file_path : string) (file_size : N) :
  returns_or_raises (PutFromFile server fopen_ok url file_path file_size).
Proof.
  unfold PutFromFile. apply returns_or_raises_get_disk. intros d.
  destruct (d !! file_path); [|apply returns_or_raises_throw].
  destruct (fopen_ok d file_path);
    [apply send_returns | apply returns_or_raises_throw].
Qed.

Lemma upload_buffer_returns_or_raises (h : WebDAVFileHandle) (http_url : string) :
  returns_or_raises (upload_buffer server fopen_ok h http_url).
Proof.
  unfold upload_buffer. destruct (using_temp_file h); [|apply send_returns].
  apply returns_or_raises_bind.
  - destruct (negb (empty (write_buffer h))); [|apply returns_or_raises_ret].
    apply returns_or_raises_get_disk. intros d.
    destruct (fopen_ok d (temp_file_path h)); [|apply returns_or_raises_ret].
    apply returns_or_raises_bind; [apply returns_or_raises_put_disk|].
    intros _. apply returns_or_raises_modify_handle.
  - intros _. apply returns_or_raises_get_disk. intros d.
    destruct (d !! temp_file_path h);
      [apply PutFromFile_returns_or_raises | apply returns_or_raises_throw].
Qed.

Lemma retry_with_parents_returns_or_raises (h : WebDAVFileHandle)
    (http_url : string) (response : HTTPResponse) :
  size (path h) < npos ->
  returns_or_raises (retry_with_parents server params h http_url response).
Proof.
  intros Hsize. unfold retry_with_parents.
  destruct (wants_parent response); [|apply returns_or_raises_ret].
  destruct (negb (rfind (path h) "/" npos =? npos));
    [|apply returns_or_raises_ret].
  apply returns_or_raises_try_catch; [|intros e; apply returns_or_raises_ret].
  apply returns_or_raises_bind.
  - apply CreateDirectoryRecursive_returns_or_raises.
    destruct (N.ltb_spec (size (path h)) 0) as [Hlt|Hle]; [lia|].
    assert (H : size (substr (path h) 0 (rfind (path h) "/" npos))
                = N.min (rfind (path h) "/" npos) (size (path h) - 0))
      by (apply size_substr; lia).
    lia.
  - intros _. apply returns_or_raises_get_handle. intros h'. apply send_returns.
Qed.

(** The commit returns or raises, whatever the server answers. *)
Lemma FlushBuffer_returns_or_raises (w : World) :
  size (path (wfh w)) < npos ->
  (FlushBuffer server params fopen_ok w).1 <> OutOfFuel.
Proof.
  intros Hsize. unfold FlushBuffer.
  change ((get_handle ≫= ?k) w) with (k (wfh w) w). cbv beta.
  revert w Hsize. intros w. generalize (wfh w) as h. intros h Hsize. revert w.
  change (returns_or_raises
            (if negb (buffer_dirty h) && negb (using_temp_file h) then mret tt
             else
               parsed_url ← lift (ParseUrl (path h));
               response ← upload_buffer server fopen_ok h (GetHTTPUrl parsed_url);
               response ← retry_with_parents server params h
                            (GetHTTPUrl parsed_url) response;
               if negb (is_written response) then
                 throw (IOException ("Failed to write to file " +:+ path h
                                     +:+ ": HTTP " +:+ to_string (status response)))
               else
                 modify_handle (set_write_buffer "");;
                 modify_handle (set_buffer_dirty false))).
  destruct (negb (buffer_dirty h) && negb (using_temp_file h));
    [apply returns_or_raises_ret|].
  apply returns_or_raises_bind;
    [apply returns_or_raises_lift, ParseUrl_returns_or_raises|].
  intros u.
  apply returns_or_raises_bind; [apply upload_buffer_returns_or_raises|].
  intros response.
  apply returns_or_raises_bind;
    [apply retry_with_parents_returns_or_raises; exact Hsize|].
  intros response'.
  destruct (negb (is_written response')); [apply returns_or_raises_throw|].
  apply returns_or_raises_bind; intros; apply returns_or_raises_modify_handle.
Qed.

Lemma Close_returns_or_raises (w : World) :
  size (path (wfh w)) < npos ->
  (Close server params fopen_ok w).1 <> OutOfFuel.
Proof.
  intros Hsize. unfold Close. unfold mbind at 1, M_bind at 1.
  pose proof (FlushBuffer_returns_or_raises w Hsize) as H.
  destruct (FlushBuffer server params fopen_ok w) as [[[]|e|] w'];
    cbn [fst] in *; [|discriminate|congruence].
  revert w'. apply returns_or_raises_get_handle. intros h.
  destruct (using_temp_file h && negb (empty (temp_file_path h)));
    [|apply returns_or_raises_ret].
  apply returns_or_raises_get_disk. intros d.
  apply returns_or_raises_bind; [apply returns_or_raises_put_disk|]. intros _.
  apply returns_or_raises_bind; intros; apply returns_or_raises_modify_handle.
Qed.

(** Listings are bodies a [std::string] can hold. *)
Hypothesis bodies_fit : forall history request,
  size (body (server history request)) < npos.

Lemma list_subdirs_returns_or_raises (subdirs : list string)
    (prefix_path : string) :
  forall files, returns_or_raises (list_subdirs server subdirs prefix_path files).
Proof.
  induction subdirs as [|subdir_url rest IH]; intros files; cbn [list_subdirs].
  - apply returns_or_raises_ret.
  - intros w. unfold mbind at 1, M_bind at 1. cbn [send].
    destruct (is_listing (server (net w) (PropfindRequest subdir_url 1)));
      [|apply IH].
    apply returns_or_raises_bind; [|intros subdir_files; apply IH].
    apply returns_or_raises_lift, ParsePropfindResponse_terminates, bodies_fit.
Qed.

Lemma collect_matches_returns_or_raises (glob_pattern : string)
    (parsed_url : ParsedWebDAVUrl) (prefix_path : string)
    (response : HTTPResponse) :
  size (body response) < npos ->
  returns_or_raises
    (collect_matches server Split duckdb_Glob glob_pattern parsed_url
       prefix_path response).
Proof.
  intros Hsize. unfold collect_matches.
  destruct (empty (body response)); [apply returns_or_raises_ret|].
  apply returns_or_raises_bind;
    [apply returns_or_raises_lift, ParsePropfindResponse_terminates, Hsize|].
  intros files.
  apply returns_or_raises_bind.
  { apply returns_or_raises_lift, subdirs_loop_terminates; [exact Hsize|].
    unfold size. lia. }
  intros subdirs.
  apply returns_or_raises_bind; [apply list_subdirs_returns_or_raises|].
  intros files'. apply returns_or_raises_ret.
Qed.

(** The resolution of a pattern returns or raises. *)
Lemma Glob_returns_or_raises (glob_pattern : string)
    (opener : option FileOpener) :
  returns_or_raises (Glob server params Split duckdb_Glob glob_pattern opener).
Proof.
  unfold Glob. destruct opener as [o|]; [|apply returns_or_raises_ret].
  apply returns_or_raises_bind;
    [apply returns_or_raises_lift, ParseUrl_returns_or_raises|].
  intros u.
  destruct (find_first_of (url_path u) "*[\" =? npos);
    [apply returns_or_raises_ret|].
  apply returns_or_raises_bind.
  { apply returns_or_raises_try_catch; [|intros e; apply returns_or_raises_ret].
    apply returns_or_raises_bind; [apply CreateHandle_returns_or_raises|].
    intros handle.
    apply returns_or_raises_bind; [apply Initialize_returns_or_raises|].
    intros _. apply returns_or_raises_ret. }
  intros opened. destruct (negb opened); [apply returns_or_raises_ret|].
  intros w. unfold mbind at 1, M_bind at 1. cbn [send].
  match goal with
  | |- context [is_listing ?r] => destruct (is_listing r)
  end; cbn [negb]; [|discriminate].
  apply collect_matches_returns_or_raises, bodies_fit.
Qed.

End TotalityOfCalls.

(* ===================================================================== *)
(** ** Resolving a glob pattern *)
(* ===================================================================== *)



Section GlobFacts.
Variable server : list Request -> Request -> HTTPResponse.
Variable params : HTTPFSParams.
Variable Split : string -> string -> list string.
Variable G : string -> string -> bool.



Lemma Glob_without_opener (glob_pattern : string) (w : World) :
  Glob server params Split G glob_pattern None w = (Ok [glob_pattern], w).
Proof. reflexivity. Qed.



End GlobFacts.




(* ===================================================================== *)
(** ** Opening a handle *)
(* ===================================================================== *)

(** C10.  Flags that ask for reading and writing together, or for
    appending, make the constructor raise [NotImplementedException]; the
    handle is then not created and nothing has been sent.  A handle that
    is created is not open for both reading and writing nor for
    appending, so a handle opened for reading or writing is open for
    exactly one of the two. *)
Theorem C10_handle_is_never_read_write_nor_append
    (params : HTTPFSParams) (file_path : string) (fl : FileOpenFlags)
    (opener : option FileOpener) (u : ParsedWebDAVUrl) (w : World) :
  ParseUrl file_path = Ok u ->
  (OpenForReading fl && OpenForWriting fl = true ->
   WebDAVFileHandle_new (GetHTTPUrl u) fl params
   = Throw (NotImplementedException
              "Cannot open a WebDAV file for both reading and writing")
   /\ CreateHandle params file_path fl opener w
      = (Throw (NotImplementedException
                  "Cannot open a WebDAV file for both reading and writing"), w))
  /\ (OpenForReading fl && OpenForWriting fl = false ->
      OpenForAppending fl = true ->
      WebDAVFileHandle_new (GetHTTPUrl u) fl params
      = Throw (NotImplementedException "Cannot open a WebDAV file for appending")
      /\ CreateHandle params file_path fl opener w
         = (Throw (NotImplementedException
                     "Cannot open a WebDAV file for appending"), w))
  /\ (forall h w',
      CreateHandle params file_path fl opener w = (Ok h, w') ->
      w' = w /\ flags h = fl
      /\ OpenForReading fl && OpenForWriting fl = false
      /\ OpenForAppending fl = false
      /\ (OpenForReading fl || OpenForWriting fl = true ->
          xorb (OpenForReading fl) (OpenForWriting fl) = true)).
Proof.
  intros Hparse. unfold CreateHandle, WebDAVFileHandle_new.
  rewrite Hparse. cbv [mbind M_bind lift].
  destruct (OpenForReading fl), (OpenForWriting fl), (OpenForAppending fl);
    cbn; repeat split; try discriminate; try reflexivity;
    intros; try discriminate;
    match goal with
    | H : (Ok _, _) = (Ok _, _) |- _ => injection H as <- <-
    end; repeat split; auto; discriminate.
Qed.

Example C10_witness :
  CreateHandle default_params file_url (mkFlags true true false false false)
    None (fresh default_params)
  = (Throw (NotImplementedException
              "Cannot open a WebDAV file for both reading and writing"),
     fresh default_params).
Proof.
  refine (proj2 (proj1 (C10_handle_is_never_read_write_nor_append
                          default_params file_url
                          (mkFlags true true false false false) None
                          file_url_parsed (fresh default_params) _) _));
    reflexivity.
Defined.


(* ===================================================================== *)
(** ** URLs: [ParseUrl], [GetHTTPUrl], [IsWebDAVUrl] *)
(* ===================================================================== *)

(** *** Cutting a string at a character *)

Lemma prefix_split (p s : string) :
  String.prefix p s = true -> s = p +:+ drop (String.length p) s.
Proof.
  revert s. induction p as [|a p IH]; intros s H.
  - reflexivity.
  - destruct s as [|b s]; simpl in H; [discriminate|].
    destruct (ascii_dec a b) as [->|]; [|discriminate].
    rewrite str_app_cons. cbn [String.length drop]. f_equal. now apply IH.
Qed.

Lemma StartsWith_split (url p : string) :
  size url < npos -> StartsWith url p = true ->
  url = p +:+ substr_from url (size p).
Proof.
  intros Hsize Hp. unfold StartsWith in Hp.
  pose proof (prefix_size _ _ Hp) as Hle.
  rewrite substr_from_drop by assumption.
  unfold size. rewrite Nat2N.id. now apply prefix_split.
Qed.

Lemma char_cases (c : ascii) (s : string) :
  contains_any (String c "") s = false
  \/ exists a b, s = a +:+ String c b /\ contains_any (String c "") a = false.
Proof.
  induction s as [|x s IH]; [now left|].
  cbn [contains_any mem_char]. rewrite orb_false_r.
  destruct (Ascii.eqb c x) eqn:E.
  - right. apply Ascii.eqb_eq in E. subst x. exists "", s. split; reflexivity.
  - destruct IH as [IH|(a & b & -> & Ha)]; [now left|].
    right. exists (String x a), b. split; [reflexivity|].
    cbn [contains_any mem_char]. now rewrite E, orb_false_r.
Qed.

Lemma search_char_none (c : ascii) (s : string) (i : N) :
  contains_any (String c "") s = false -> search (String c "") s i = npos.
Proof.
  revert i. induction s as [|x s IH]; intros i H; cbn [search].
  - reflexivity.
  - cbn [contains_any mem_char] in H. rewrite orb_false_r in H.
    apply orb_false_iff in H as [Hx Hs].
    simpl String.prefix. destruct (ascii_dec c x) as [->|].
    + rewrite Ascii.eqb_refl in Hx. discriminate.
    + now apply IH.
Qed.

Lemma search_char_app (c : ascii) (a b : string) (i : N) :
  contains_any (String c "") a = false ->
  search (String c "") (a +:+ String c b) i = i + size a.
Proof.
  revert i. induction a as [|x a IH]; intros i H.
  - rewrite str_app_nil_l. cbn [search]. simpl String.prefix.
    destruct (ascii_dec c c); [|congruence].
    destruct b; simpl String.prefix; cbv iota; change (size "") with 0; lia.
  - cbn [contains_any mem_char] in H. rewrite orb_false_r in H.
    apply orb_false_iff in H as [Hx Ha].
    rewrite str_app_cons. cbn [search]. simpl String.prefix.
    destruct (ascii_dec c x) as [->|].
    + rewrite Ascii.eqb_refl in Hx. discriminate.
    + rewrite IH by exact Ha. rewrite size_cons. lia.
Qed.

Lemma find_char_none (c : ascii) (s : string) :
  contains_any (String c "") s = false -> find_char s c 0 = npos.
Proof.
  intros H. unfold find_char, find.
  assert (E : (size s <? 0) = false) by (apply N.ltb_ge; lia).
  rewrite E. change (N.to_nat 0) with 0%nat. cbn [drop].
  now apply search_char_none.
Qed.

Lemma find_char_app (c : ascii) (a b : string) :
  contains_any (String c "") a = false ->
  find_char (a +:+ String c b) c 0 = size a.
Proof.
  intros H. unfold find_char, find.
  assert (E : (size (a +:+ String c b) <? 0) = false) by (apply N.ltb_ge; lia).
  rewrite E. change (N.to_nat 0) with 0%nat. cbn [drop].
  rewrite search_char_app by exact H. lia.
Qed.

Lemma drop_app (a b : string) : drop (String.length a) (a +:+ b) = b.
Proof. induction a as [|x a IH]; [reflexivity|]. rewrite str_app_cons. exact IH. Qed.

Lemma substr_from_app (a b : string) :
  size (a +:+ b) < npos -> substr_from (a +:+ b) (size a) = b.
Proof.
  intros H. rewrite substr_from_drop; [|exact H|rewrite size_app; lia].
  unfold size. rewrite Nat2N.id. apply drop_app.
Qed.

Lemma substr_whole (s : string) (len : N) :
  size s <= len -> substr s 0 len = s.
Proof.
  intros H. unfold substr.
  assert (E : (size s <? 0) = false) by (apply N.ltb_ge; lia).
  rewrite E, N.sub_0_r.
  replace (N.min len (size s)) with (size s) by lia.
  unfold size. rewrite Nat2N.id.
  pose proof (substring_prefix s "") as P. rewrite str_app_empty_r in P. exact P.
Qed.

Lemma contains_any_app (chars a b : string) :
  contains_any chars (a +:+ b) = contains_any chars a || contains_any chars b.
Proof.
  induction a as [|x a IH]; [reflexivity|].
  rewrite str_app_cons. cbn [contains_any]. rewrite IH. now rewrite orb_assoc.
Qed.

(** *** The shape of a parsed URL *)

(** The schemes [ParseUrl] knows, with the protocol each stands for and
    what it appends to the authority to name the host. *)
Lemma cut_at_first_slash (rest : string) :
  size rest < npos ->
  (find_char rest "/" 0 = npos /\ contains_any "/" rest = false)
  \/ exists a t,
       rest = a +:+ String "/" t /\ contains_any "/" a = false
       /\ find_char rest "/" 0 = size a /\ size a <> npos
       /\ substr rest 0 (size a) = a
       /\ substr_from rest (size a) = String "/" t.
Proof.
  intros Hsize. destruct (char_cases "/" rest) as [Hn|(a & t & -> & Ha)].
  - left. split; [now apply find_char_none | exact Hn].
  - right. exists a, t. rewrite size_app in Hsize.
    repeat split; try assumption.
    + now apply find_char_app.
    + lia.
    + apply substr_prefix.
    + apply substr_from_app. rewrite size_app. exact Hsize.
Qed.

Lemma ParseUrl_cases (url : string) (u : ParsedWebDAVUrl) :
  size url < npos -> ParseUrl url = Ok u ->
  exists scheme authority t,
    contains_any "/" authority = false
    /\ original_prefix url u = scheme +:+ authority
    /\ url_path u = String "/" t
    /\ (url = scheme +:+ authority +:+ url_path u
        \/ (url = scheme +:+ authority /\ t = ""))
    /\ ((scheme = "storagebox://" /\ http_proto u = "https"
         /\ host u = authority +:+ ".your-storagebox.de")
        \/ (scheme = "webdav://" /\ http_proto u = "http" /\ host u = authority)
        \/ (scheme = "webdavs://" /\ http_proto u = "https" /\ host u = authority)
        \/ (scheme = "https://" /\ http_proto u = "https" /\ host u = authority)
        \/ (scheme = "http://" /\ http_proto u = "http" /\ host u = authority)).
Proof.
  intros Hsize Hu. unfold ParseUrl in Hu. unfold original_prefix.
  assert (Hrest : forall pre, StartsWith url pre = true ->
                  size (substr_from url (size pre)) < npos).
  { intros pre Hpre. pose proof (after_prefix url pre Hsize Hpre).
    unfold size in *. lia. }
  assert (Hcut : forall proto pre,
            StartsWith url pre = true ->
            (if negb (find_char (substr_from url (size pre)) "/" 0 =? npos)
             then Ok (mkParsed proto
                        (substr (substr_from url (size pre)) 0
                           (find_char (substr_from url (size pre)) "/" 0))
                        (substr_from (substr_from url (size pre))
                           (find_char (substr_from url (size pre)) "/" 0)))
             else Ok (mkParsed proto (substr_from url (size pre)) "/")) = Ok u ->
            exists authority t,
              contains_any "/" authority = false
              /\ url_path u = String "/" t
              /\ (url = pre +:+ authority +:+ url_path u
                  \/ (url = pre +:+ authority /\ t = ""))
              /\ http_proto u = proto /\ host u = authority).
  { intros proto pre Hpre Hp.
    pose proof (StartsWith_split url pre Hsize Hpre) as Hsplit.
    destruct (cut_at_first_slash _ (Hrest _ Hpre))
      as [[Hf Hn]|(a & t & Ha & Hna & Hf & Hnp & Hs1 & Hs2)]; rewrite Hf in Hp.
    - rewrite N.eqb_refl in Hp. cbn [negb] in Hp. injection Hp as <-.
      exists (substr_from url (size pre)), "". cbn [url_path http_proto host].
      repeat split; auto.
    - apply N.eqb_neq in Hnp. rewrite Hnp in Hp. cbn [negb] in Hp.
      rewrite Hs1, Hs2 in Hp. injection Hp as <-.
      exists a, t. cbn [url_path http_proto host].
      repeat split; auto. left. rewrite <- Ha. exact Hsplit. }
  destruct (StartsWith url "storagebox://") eqn:H1.
  - pose proof (StartsWith_split url _ Hsize H1) as Hsplit.
    change (size "storagebox://") with 13 in *.
    destruct (cut_at_first_slash _ (Hrest _ H1))
      as [[Hf Hn]|(a & t & Ha & Hna & Hf & Hnp & Hs1 & Hs2)];
      change (size "storagebox://") with 13 in *; rewrite Hf in *.
    + rewrite N.eqb_refl in Hu. cbn [negb] in Hu. injection Hu as <-.
      exists "storagebox://", (substr_from url 13), "".
      cbn [url_path http_proto host].
      rewrite substr_whole by (specialize (Hrest _ H1);
                               change (size "storagebox://") with 13 in Hrest; lia).
      repeat split; auto.
    + apply N.eqb_neq in Hnp. rewrite Hnp in Hu. cbn [negb] in Hu.
      rewrite Hs1, Hs2 in Hu. injection Hu as <-.
      exists "storagebox://", a, t. cbn [url_path http_proto host].
      rewrite Hs1. repeat split; auto. left. rewrite <- Ha. exact Hsplit.
  - destruct (StartsWith url "webdav://") eqn:H2.
    { destruct (Hcut _ _ H2 Hu) as (a & t & Ha & Hp & Hurl & Hproto & Hhost).
      exists "webdav://", a, t. rewrite Hhost. repeat split; auto. }
    destruct (StartsWith url "webdavs://") eqn:H3.
    { destruct (Hcut _ _ H3 Hu) as (a & t & Ha & Hp & Hurl & Hproto & Hhost).
      exists "webdavs://", a, t. rewrite Hhost. repeat split; auto 6. }
    destruct (StartsWith url "https://") eqn:H4.
    { destruct (Hcut _ _ H4 Hu) as (a & t & Ha & Hp & Hurl & Hproto & Hhost).
      exists "https://", a, t. rewrite Hhost, Hproto. repeat split; auto 7. }
    destruct (StartsWith url "http://") eqn:H5; [|discriminate].
    destruct (Hcut _ _ H5 Hu) as (a & t & Ha & Hp & Hurl & Hproto & Hhost).
    exists "http://", a, t. rewrite Hhost, Hproto. repeat split; auto 8.
Qed.

(** X1.  Whatever URL [ParseUrl] accepts, it names the protocol [http] or
    [https], a host that holds no ['/'] and a path that starts with
    ['/']. *)
Theorem ParseUrl_names_protocol_host_and_rooted_path
    (url : string) (u : ParsedWebDAVUrl) :
  size url < npos -> ParseUrl url = Ok u ->
  (http_proto u = "http" \/ http_proto u = "https")
  /\ contains_any "/" (host u) = false
  /\ exists t, url_path u = String "/" t.
Proof.
  intros Hsize Hu.
  destruct (ParseUrl_cases url u Hsize Hu)
    as (scheme & a & t & Ha & _ & Hp & _ & Hrow).
  split; [|split; [|now exists t]].
  - destruct Hrow as [(_ & H & _)|[(_ & H & _)|[(_ & H & _)|[(_ & H & _)|(_ & H & _)]]]];
      rewrite H; auto.
  - destruct Hrow as [(_ & _ & H)|[(_ & _ & H)|[(_ & _ & H)|[(_ & _ & H)|(_ & _ & H)]]]];
      rewrite H; [|assumption..].
    rewrite contains_any_app, Ha. reflexivity.
Qed.

Example ParseUrl_names_protocol_host_and_rooted_path_witness :
  (http_proto (mkParsed "https" "u1.your-storagebox.de" "/a/b.csv") = "http"
   \/ http_proto (mkParsed "https" "u1.your-storagebox.de" "/a/b.csv") = "https")
  /\ contains_any "/" (host (mkParsed "https" "u1.your-storagebox.de" "/a/b.csv"))
     = false
  /\ exists t, url_path (mkParsed "https" "u1.your-storagebox.de" "/a/b.csv")
               = String "/" t.
Proof.
  apply (ParseUrl_names_protocol_host_and_rooted_path
           "storagebox://u1/a/b.csv"); reflexivity.
Defined.

Lemma ParseUrl_https (h t : string) :
  contains_any "/" h = false ->
  size ("https://" +:+ h +:+ String "/" t) < npos ->
  ParseUrl ("https://" +:+ h +:+ String "/" t)
  = Ok (mkParsed "https" h (String "/" t)).
Proof.
  intros Hh Hsize. set (x := h +:+ String "/" t) in *.
  assert (Hx : size x < npos) by (rewrite size_app in Hsize; lia).
  unfold ParseUrl.
  replace (StartsWith ("https://" +:+ x) "storagebox://") with false by reflexivity.
  replace (StartsWith ("https://" +:+ x) "webdav://") with false by reflexivity.
  replace (StartsWith ("https://" +:+ x) "webdavs://") with false by reflexivity.
  replace (StartsWith ("https://" +:+ x) "https://") with true
    by (symmetry; apply prefix_app).
  change 8 with (size "https://"). rewrite substr_from_app by exact Hsize.
  unfold x. rewrite find_char_app by exact Hh.
  assert (Hn : (size h =? npos) = false)
    by (apply N.eqb_neq; unfold x in Hx; rewrite size_app in Hx; lia).
  rewrite Hn. cbn [negb].
  rewrite substr_prefix, substr_from_app by exact Hx. reflexivity.
Qed.

Lemma ParseUrl_http (h t : string) :
  contains_any "/" h = false ->
  size ("http://" +:+ h +:+ String "/" t) < npos ->
  ParseUrl ("http://" +:+ h +:+ String "/" t)
  = Ok (mkParsed "http" h (String "/" t)).
Proof.
  intros Hh Hsize. set (x := h +:+ String "/" t) in *.
  assert (Hx : size x < npos) by (rewrite size_app in Hsize; lia).
  unfold ParseUrl.
  replace (StartsWith ("http://" +:+ x) "storagebox://") with false by reflexivity.
  replace (StartsWith ("http://" +:+ x) "webdav://") with false by reflexivity.
  replace (StartsWith ("http://" +:+ x) "webdavs://") with false by reflexivity.
  replace (StartsWith ("http://" +:+ x) "https://") with false by reflexivity.
  replace (StartsWith ("http://" +:+ x) "http://") with true
    by (symmetry; apply prefix_app).
  change 7 with (size "http://"). rewrite substr_from_app by exact Hsize.
  unfold x. rewrite find_char_app by exact Hh.
  assert (Hn : (size h =? npos) = false)
    by (apply N.eqb_neq; unfold x in Hx; rewrite size_app in Hx; lia).
  rewrite Hn. cbn [negb].
  rewrite substr_prefix, substr_from_app by exact Hx. reflexivity.
Qed.

(** X2.  The URL a handle works with is the converted one
    ([GetHTTPUrl] of the parsed URL), and the commit parses it again:
    parsing the converted URL gives back the same protocol, host and
    path. *)
Theorem ParseUrl_of_the_converted_url (url : string) (u : ParsedWebDAVUrl) :
  size url < npos -> size (GetHTTPUrl u) < npos ->
  ParseUrl url = Ok u -> ParseUrl (GetHTTPUrl u) = Ok u.
Proof.
  intros Hsize Hsize' Hu.
  destruct (ParseUrl_cases url u Hsize Hu)
    as (scheme & a & t & Ha & _ & Hp & _ & Hrow).
  destruct u as [proto h p]. cbn [http_proto host url_path] in *. subst p.
  assert (Hh : contains_any "/" h = false).
  { destruct Hrow as [(_ & _ & H)|[(_ & _ & H)|[(_ & _ & H)|[(_ & _ & H)|(_ & _ & H)]]]];
      rewrite H; [|assumption..].
    rewrite contains_any_app, Ha. reflexivity. }
  assert (Hproto : proto = "http" \/ proto = "https").
  { destruct Hrow as [(_ & H & _)|[(_ & H & _)|[(_ & H & _)|[(_ & H & _)|(_ & H & _)]]]];
      rewrite H; auto. }
  destruct Hproto; subst proto.
  - exact (ParseUrl_http h t Hh Hsize').
  - exact (ParseUrl_https h t Hh Hsize').
Qed.

Example ParseUrl_of_the_converted_url_witness :
  ParseUrl (GetHTTPUrl (mkParsed "https" "u1.your-storagebox.de" "/a/b.csv"))
  = Ok (mkParsed "https" "u1.your-storagebox.de" "/a/b.csv").
Proof.
  apply (ParseUrl_of_the_converted_url "storagebox://u1/a/b.csv"); reflexivity.
Defined.

(** X3.  [CreateDirectoryRecursive] and [Glob] put the prefix
    [original_prefix] back in front of paths: in front of the parsed path
    it gives back the URL that was parsed, scheme included, or that URL
    with the ['/'] it lacked when it named no path. *)
Theorem original_prefix_and_path_give_back_the_url
    (url : string) (u : ParsedWebDAVUrl) :
  size url < npos -> ParseUrl url = Ok u ->
  original_prefix url u +:+ url_path u = url
  \/ (original_prefix url u = url /\ url_path u = "/").
Proof.
  intros Hsize Hu.
  destruct (ParseUrl_cases url u Hsize Hu)
    as (scheme & a & t & _ & Hpre & Hp & Hurl & _).
  rewrite Hpre. destruct Hurl as [Hurl|[Hurl Ht]].
  - left. now rewrite str_app_assoc.
  - right. subst t. split; [now symmetry | exact Hp].
Qed.

Example original_prefix_and_path_give_back_the_url_witness :
  original_prefix "webdavs://host/a/b.csv" (mkParsed "https" "host" "/a/b.csv")
    +:+ url_path (mkParsed "https" "host" "/a/b.csv")
  = "webdavs://host/a/b.csv"
  \/ (original_prefix "webdavs://host/a/b.csv" (mkParsed "https" "host" "/a/b.csv")
      = "webdavs://host/a/b.csv"
      /\ url_path (mkParsed "https" "host" "/a/b.csv") = "/").
Proof.
  apply (original_prefix_and_path_give_back_the_url "webdavs://host/a/b.csv");
    reflexivity.
Defined.

(** X4.  Every URL [CanHandleFile] takes is one [ParseUrl] accepts; and
    [ParseUrl] raises, with the URL in the message, exactly on the URLs
    that start with none of its five schemes. *)
Theorem CanHandleFile_urls_parse (url : string) :
  (CanHandleFile url = true -> exists u, ParseUrl url = Ok u)
  /\ (StartsWith url "storagebox://" || StartsWith url "webdav://"
      || StartsWith url "webdavs://" || StartsWith url "https://"
      || StartsWith url "http://" = false
      <-> ParseUrl url = Throw (IOException ("Invalid WebDAV URL: " +:+ url))).
Proof.
  unfold CanHandleFile, IsWebDAVUrl, ParseUrl.
  destruct (StartsWith url "storagebox://").
  { split.
    - intros _. destruct (negb _); eexists; reflexivity.
    - cbn [orb]. split; [discriminate|]. destruct (negb _); discriminate. }
  destruct (StartsWith url "webdav://").
  { split.
    - intros _. destruct (negb _); eexists; reflexivity.
    - cbn [orb]. split; [discriminate|]. destruct (negb _); discriminate. }
  destruct (StartsWith url "webdavs://").
  { split.
    - intros _. destruct (negb _); eexists; reflexivity.
    - cbn [orb]. split; [discriminate|]. destruct (negb _); discriminate. }
  destruct (StartsWith url "https://").
  { split.
    - intros _. destruct (negb _); eexists; reflexivity.
    - cbn [orb]. split; [discriminate|]. destruct (negb _); discriminate. }
  destruct (StartsWith url "http://").
  { split.
    - intros _. destruct (negb _); eexists; reflexivity.
    - cbn [orb]. split; [discriminate|]. destruct (negb _); discriminate. }
  cbn [orb andb]. split; [discriminate|]. split; reflexivity.
Qed.

(** X5.  A [storagebox://] URL always parses, to an [https] URL on the
    host [<user>.your-storagebox.de]; and the converted URL is itself one
    the file system takes. *)
Theorem storagebox_urls_convert_to_handled_urls (url : string) :
  size url < npos -> StartsWith url "storagebox://" = true ->
  exists u user,
    ParseUrl url = Ok u
    /\ http_proto u = "https"
    /\ host u = user +:+ ".your-storagebox.de"
    /\ contains_any "/" user = false
    /\ CanHandleFile (GetHTTPUrl u) = true.
Proof.
  intros Hsize Hsb.
  assert (Hok : exists u, ParseUrl url = Ok u).
  { unfold ParseUrl. rewrite Hsb. destruct (negb _); eexists; reflexivity. }
  destruct Hok as [u Hu]. 
  destruct (ParseUrl_cases url u Hsize Hu)
    as (scheme & a & t & Ha & _ & Hp & Hurl & Hrow).
  assert (Hstart : StartsWith (scheme +:+ a +:+ url_path u) "storagebox://" = true
                   \/ StartsWith (scheme +:+ a) "storagebox://" = true).
  { destruct Hurl as [E|[E _]]; rewrite <- E; auto. }
  assert (Hlen : size a + 13 <= size url).
  { pose proof (after_prefix url _ Hsize Hsb) as Hl.
    destruct Hrow as [(-> & _)|[(-> & _)|[(-> & _)|[(-> & _)|(-> & _)]]]];
      try (destruct Hstart as [F|F]; discriminate F).
    destruct Hurl as [E|[E _]]; rewrite E, !size_app;
      change (size "storagebox://") with 13; lia. }
  destruct Hrow as [(-> & Hproto & Hhost)|[(-> & _)|[(-> & _)|[(-> & _)|(-> & _)]]]];
    try (destruct Hstart as [F|F]; discriminate F).
  exists u, a. repeat split; try assumption.
  unfold CanHandleFile, IsWebDAVUrl, GetHTTPUrl. rewrite Hproto, Hhost, Hp.
  set (x := (a +:+ ".your-storagebox.de") +:+ String "/" t).
  replace (StartsWith ("https" +:+ "://" +:+ x) "storagebox://") with false
    by reflexivity.
  replace (StartsWith ("https" +:+ "://" +:+ x) "webdav://") with false
    by reflexivity.
  replace (StartsWith ("https" +:+ "://" +:+ x) "webdavs://") with false
    by reflexivity.
  replace (StartsWith ("https" +:+ "://" +:+ x) "https://") with true
    by (symmetry; apply (prefix_app "https://" x)).
  cbn [orb andb].
  assert (E : "https" +:+ "://" +:+ x
              = ("https://" +:+ a) +:+ ".your-storagebox.de/" +:+ t).
  { unfold x. rewrite !str_app_assoc. reflexivity. }
  rewrite E.
  pose proof (find_occurrence ".your-storagebox.de/" ("https://" +:+ a) t) as Hf.
  rewrite size_app in Hf. change (size "https://") with 8 in Hf.
  assert (Hne : (find (("https://" +:+ a) +:+ ".your-storagebox.de/" +:+ t)
                   ".your-storagebox.de/" 0 =? npos) = false)
    by (apply N.eqb_neq; lia).
  rewrite Hne. reflexivity.
Qed.

Example storagebox_urls_convert_to_handled_urls_witness :
  exists u user,
    ParseUrl "storagebox://u1/a/b.csv" = Ok u
    /\ http_proto u = "https"
    /\ host u = user +:+ ".your-storagebox.de"
    /\ contains_any "/" user = false
    /\ CanHandleFile (GetHTTPUrl u) = true.
Proof.
  apply (storagebox_urls_convert_to_handled_urls "storagebox://u1/a/b.csv");
    reflexivity.
Defined.

(* ===================================================================== *)
(** ** [Base64Encode] *)
(* ===================================================================== *)

(** *** The six bits pushed at each step *)

Lemma byte_value_range (c : ascii) : (0 <= byte_value c < 256)%Z.
Proof.
  unfold byte_value. pose proof (N_ascii_bounded c) as H. lia.
Qed.

Lemma land_63 (x : Z) : Z.land x 63 = (x mod 64)%Z.
Proof. change 63%Z with (Z.ones 6). now rewrite Z.land_ones by lia. Qed.

Ltac sextet_arith :=
  rewrite ?land_63, ?Z.shiftr_div_pow2, ?Z.shiftl_mul_pow2 by lia;
  unfold int32;
  change (2 ^ 0)%Z with 1%Z; change (2 ^ 2)%Z with 4%Z;
  change (2 ^ 4)%Z with 16%Z; change (2 ^ 6)%Z with 64%Z;
  change (2 ^ 8)%Z with 256%Z;
  change (2 ^ 31)%Z with 2147483648%Z; change (2 ^ 32)%Z with 4294967296%Z;
  Z.div_mod_to_equations; lia.

Lemma sextet_at_2 (val : Z) (c : ascii) :
  Z.land (Z.shiftr (int32 (int32 (Z.shiftl val 8) + byte_value c)) 2) 63
  = (byte_value c / 4)%Z.
Proof. pose proof (byte_value_range c). sextet_arith. Qed.

Lemma sextet_at_4 (val : Z) (c : ascii) :
  Z.land (Z.shiftr (int32 (int32 (Z.shiftl val 8) + byte_value c)) 4) 63
  = (val mod 4 * 16 + byte_value c / 16)%Z.
Proof. pose proof (byte_value_range c). sextet_arith. Qed.

Lemma sextet_at_6 (val : Z) (c : ascii) :
  Z.land (Z.shiftr (int32 (int32 (Z.shiftl val 8) + byte_value c)) 6) 63
  = (val mod 16 * 4 + byte_value c / 64)%Z.
Proof. pose proof (byte_value_range c). sextet_arith. Qed.

Lemma sextet_at_0 (val : Z) (c : ascii) :
  Z.land (Z.shiftr (int32 (int32 (Z.shiftl val 8) + byte_value c)) 0) 63
  = (byte_value c mod 64)%Z.
Proof. pose proof (byte_value_range c). sextet_arith. Qed.

Lemma low_bits_2 (val : Z) (c : ascii) :
  (int32 (int32 (Z.shiftl val 8) + byte_value c) mod 4 = byte_value c mod 4)%Z.
Proof. pose proof (byte_value_range c). sextet_arith. Qed.

Lemma low_bits_4 (val : Z) (c : ascii) :
  (int32 (int32 (Z.shiftl val 8) + byte_value c) mod 16 = byte_value c mod 16)%Z.
Proof. pose proof (byte_value_range c). sextet_arith. Qed.

Lemma last_sextet_after_one (val : Z) :
  Z.land (Z.shiftr (int32 (Z.shiftl val 8)) 4) 63 = (val mod 4 * 16)%Z.
Proof. sextet_arith. Qed.

Lemma last_sextet_after_two (val : Z) :
  Z.land (Z.shiftr (int32 (Z.shiftl val 8)) 6) 63 = (val mod 16 * 4)%Z.
Proof. sextet_arith. Qed.

(** *** The loop, three bytes at a time *)

Lemma encode_three (a b c : ascii) (rest : string) (val : Z) (result : string) :
  exists val',
    encode_bytes (String a (String b (String c rest))) val (-6) result
    = encode_bytes rest val' (-6)
        (result +:+ String (base64_char (byte_value a / 4))
           (String (base64_char (byte_value a mod 4 * 16 + byte_value b / 16))
              (String (base64_char (byte_value b mod 16 * 4 + byte_value c / 64))
                 (String (base64_char (byte_value c mod 64)) ""))))%Z.
Proof.
  eexists. cbn [encode_bytes].
  change (-6 + 8)%Z with 2%Z. change (Z.to_nat 2) with 2%nat.
  cbn [push_sextets]. change (2 >=? 0)%Z with true. cbv iota.
  change (2 - 6)%Z with (-4)%Z. change (-4 >=? 0)%Z with false. cbv iota.
  change (-4 + 8)%Z with 4%Z. change (Z.to_nat 4) with 4%nat.
  cbn [push_sextets]. change (4 >=? 0)%Z with true. cbv iota.
  change (4 - 6)%Z with (-2)%Z. change (-2 >=? 0)%Z with false. cbv iota.
  change (-2 + 8)%Z with 6%Z. change (Z.to_nat 6) with 6%nat.
  cbn [push_sextets]. change (6 >=? 0)%Z with true. cbv iota.
  change (6 - 6)%Z with 0%Z. change (0 >=? 0)%Z with true. cbv iota.
  change (0 - 6)%Z with (-6)%Z. change (-6 >=? 0)%Z with false. cbv iota.
  fold (byte_value a) (byte_value b) (byte_value c).
  rewrite sextet_at_2, sextet_at_4, sextet_at_6, sextet_at_0.
  rewrite low_bits_2, low_bits_4.
  rewrite !str_app_assoc. reflexivity.
Qed.

Lemma encode_one (a : ascii) (val : Z) (result : string) :
  exists val',
    encode_bytes (String a "") val (-6) result
    = (val', (-4)%Z, result +:+ String (base64_char (byte_value a / 4)) "")
    /\ (val' mod 4 = byte_value a mod 4)%Z.
Proof.
  eexists. cbn [encode_bytes].
  change (-6 + 8)%Z with 2%Z. change (Z.to_nat 2) with 2%nat.
  cbn [push_sextets]. change (2 >=? 0)%Z with true. cbv iota.
  change (2 - 6)%Z with (-4)%Z. change (-4 >=? 0)%Z with false. cbv iota.
  fold (byte_value a). rewrite sextet_at_2. split; [reflexivity|].
  apply low_bits_2.
Qed.

Lemma encode_two (a b : ascii) (val : Z) (result : string) :
  exists val',
    encode_bytes (String a (String b "")) val (-6) result
    = (val', (-2)%Z,
       result +:+ String (base64_char (byte_value a / 4))
         (String (base64_char (byte_value a mod 4 * 16 + byte_value b / 16)) ""))%Z
    /\ (val' mod 16 = byte_value b mod 16)%Z.
Proof.
  eexists. cbn [encode_bytes].
  change (-6 + 8)%Z with 2%Z. change (Z.to_nat 2) with 2%nat.
  cbn [push_sextets]. change (2 >=? 0)%Z with true. cbv iota.
  change (2 - 6)%Z with (-4)%Z. change (-4 >=? 0)%Z with false. cbv iota.
  change (-4 + 8)%Z with 4%Z. change (Z.to_nat 4) with 4%nat.
  cbn [push_sextets]. change (4 >=? 0)%Z with true. cbv iota.
  change (4 - 6)%Z with (-2)%Z. change (-2 >=? 0)%Z with false. cbv iota.
  fold (byte_value a) (byte_value b).
  rewrite sextet_at_2, sextet_at_4, low_bits_2.
  rewrite !str_app_assoc. split; [reflexivity|]. apply low_bits_4.
Qed.

(** *** The closing loop *)

Lemma pad_to_four_full (result : string) :
  size result mod 4 = 0 -> pad_to_four 4 result = result.
Proof. intros H. cbn [pad_to_four]. now rewrite H. Qed.

Lemma size_snoc (s : string) (c : ascii) : size (s +:+ String c "") = size s + 1.
Proof. rewrite size_app, size_cons. change (size "") with 0. lia. Qed.

Lemma pad_to_four_three (result : string) :
  size result mod 4 = 3 -> pad_to_four 4 result = result +:+ "=".
Proof.
  intros H. cbn [pad_to_four]. rewrite H. cbn [N.eqb negb].
  assert (E : size (result +:+ "=") mod 4 = 0).
  { rewrite size_snoc. rewrite <- N.Div0.add_mod_idemp_l, H. reflexivity. }
  now rewrite E.
Qed.

Lemma pad_to_four_two (result : string) :
  size result mod 4 = 2 -> pad_to_four 4 result = result +:+ "==".
Proof.
  intros H. cbn [pad_to_four]. rewrite H. cbn [N.eqb negb].
  assert (E1 : size (result +:+ "=") mod 4 = 3).
  { rewrite size_snoc. rewrite <- N.Div0.add_mod_idemp_l, H. reflexivity. }
  assert (E2 : size ((result +:+ "=") +:+ "=") mod 4 = 0).
  { rewrite size_snoc. rewrite <- N.Div0.add_mod_idemp_l, E1. reflexivity. }
  rewrite E1, E2. cbn [N.eqb negb Pos.eqb]. now rewrite str_app_assoc.
Qed.

(** *** Three bytes at a time *)

Lemma string_ind3 (P : string -> Prop) :
  P "" -> (forall a, P (String a "")) -> (forall a b, P (String a (String b ""))) ->
  (forall a b c rest, P rest -> P (String a (String b (String c rest)))) ->
  forall s, P s.
Proof.
  intros H0 H1 H2 H3.
  assert (H : forall n s, (String.length s <= n)%nat -> P s).
  { induction n as [|n IH]; intros s Hn.
    - destruct s; [exact H0 | simpl in Hn; lia].
    - destruct s as [|a [|b [|c rest]]]; auto.
      apply H3, IH. simpl in Hn. lia. }
  intros s. apply (H (String.length s)). lia.
Qed.

Lemma Base64Encode_from (input : string) :
  forall (val : Z) (result : string) (val' valb' : Z) (result' : string),
  size result mod 4 = 0 ->
  encode_bytes input val (-6) result = (val', valb', result') ->
  pad_to_four 4
    (if (valb' >? -6)%Z
     then result' +:+ String (base64_char
                                (Z.land (Z.shiftr (int32 (Z.shiftl val' 8))
                                           (valb' + 8)) 63)) ""
     else result')
  = result +:+ base64_rfc4648 input.
Proof.
  induction input as [|a|a b|a b c rest IH] using string_ind3;
    intros val result val' valb' result' Hsize Henc.
  - cbn [encode_bytes] in Henc. injection Henc as <- <- <-.
    change (-6 >? -6)%Z with false. cbv iota.
    rewrite pad_to_four_full by exact Hsize. now rewrite str_app_empty_r.
  - destruct (encode_one a val result) as (v & E & Hlow).
    rewrite E in Henc. injection Henc as <- <- <-.
    change (-4 >? -6)%Z with true. cbv iota. change (-4 + 8)%Z with 4%Z.
    rewrite last_sextet_after_one, Hlow.
    rewrite pad_to_four_two.
    + rewrite !str_app_assoc. reflexivity.
    + rewrite !size_snoc.
      rewrite <- N.add_assoc, <- N.Div0.add_mod_idemp_l, Hsize. reflexivity.
  - destruct (encode_two a b val result) as (v & E & Hlow).
    rewrite E in Henc. injection Henc as <- <- <-.
    change (-2 >? -6)%Z with true. cbv iota. change (-2 + 8)%Z with 6%Z.
    rewrite last_sextet_after_two, Hlow.
    rewrite pad_to_four_three.
    + rewrite !str_app_assoc. reflexivity.
    + rewrite size_snoc, size_app, !size_cons. change (size "") with 0.
      replace (size result + (1 + (1 + 0)) + 1) with (size result + 3) by lia.
      rewrite <- N.Div0.add_mod_idemp_l, Hsize. reflexivity.
  - destruct (encode_three a b c rest val result) as (v & E).
    rewrite E in Henc.
    match type of Henc with
    | encode_bytes _ _ _ ?r = _ => assert (Hs : size r mod 4 = 0)
    end.
    { rewrite size_app, !size_cons. change (size "") with 0.
      replace (size result + (1 + (1 + (1 + (1 + 0))))) with (size result + 4) by lia.
      rewrite <- N.Div0.add_mod_idemp_l, Hsize. reflexivity. }
    rewrite (IH _ _ _ _ _ Hs Henc).
    rewrite !str_app_assoc. reflexivity.
Qed.

Lemma Base64Encode_by_groups (input : string) :
  Base64Encode input = base64_rfc4648 input.
Proof.
  unfold Base64Encode.
  destruct (encode_bytes input 0 (-6) "") as [[val' valb'] result'] eqn:E.
  apply (Base64Encode_from input 0%Z "" val' valb' result'); [reflexivity | exact E].
Qed.

(** X6.  [Base64Encode] computes the Base64 encoding of RFC 4648 for
    inputs of any length: three bytes give four characters of the
    alphabet, a last group of one or two bytes gives two or three and is
    filled up with ['=']; the 32-bit accumulator wrapping around on long
    inputs changes nothing. *)
Theorem Base64Encode_is_rfc4648 (input : string) :
  Base64Encode input = base64_rfc4648 input.
Proof. exact (Base64Encode_by_groups input). Qed.

(** X7.  The encoding of [n] bytes is [4 * ceil(n / 3)] characters long:
    always a multiple of four, the filling included. *)
Theorem Base64Encode_length (input : string) :
  size (Base64Encode input) = 4 * ((size input + 2) / 3).
Proof.
  rewrite Base64Encode_by_groups.
  induction input as [|a|a b|a b c rest IH] using string_ind3.
  - reflexivity.
  - reflexivity.
  - reflexivity.
  - cbn [base64_rfc4648]. rewrite !size_cons, IH.
    replace (1 + (1 + (1 + size rest)) + 2) with (size rest + 2 + 1 * 3) by lia.
    rewrite N.div_add by discriminate. lia.
Qed.

(** *** Reading the encoding back *)

Lemma base64_index_of_char (i : Z) :
  (0 <= i < 64)%Z ->
  base64_index (base64_char i) = Some i
  /\ Ascii.eqb (base64_char i) "=" = false.
Proof.
  intros H. rewrite <- (Z2Nat.id i) by lia.
  assert (Hn : (Z.to_nat i < 64)%nat) by lia.
  generalize dependent (Z.to_nat i). clear H. intros n Hn.
  do 64 (destruct n as [|n]; [split; reflexivity|]). lia.
Qed.

Lemma byte_of_value (c : ascii) : byte_of (byte_value c) = c.
Proof.
  unfold byte_of, byte_value. rewrite N2Z.id. apply ascii_N_embedding.
Qed.

Lemma Base64Decode_rfc4648 (input : string) :
  Base64Decode (base64_rfc4648 input) = Some input.
Proof.
  induction input as [|a|a b|a b c rest IH] using string_ind3.
  - reflexivity.
  - pose proof (byte_value_range a) as Ha.
    cbn [base64_rfc4648 Base64Decode].
    destruct (base64_index_of_char (byte_value a / 4)) as [-> _];
      [Z.div_mod_to_equations; lia|].
    destruct (base64_index_of_char (byte_value a mod 4 * 16)) as [-> _];
      [Z.div_mod_to_equations; lia|].
    change (Ascii.eqb "=" "=") with true. cbn [andb empty].
    replace (byte_value a / 4 * 4 + byte_value a mod 4 * 16 / 16)%Z
      with (byte_value a) by (Z.div_mod_to_equations; lia).
    now rewrite byte_of_value.
  - pose proof (byte_value_range a) as Ha. pose proof (byte_value_range b) as Hb.
    cbn [base64_rfc4648 Base64Decode].
    destruct (base64_index_of_char (byte_value a / 4)) as [-> _];
      [Z.div_mod_to_equations; lia|].
    destruct (base64_index_of_char (byte_value a mod 4 * 16 + byte_value b / 16))
      as [-> _]; [Z.div_mod_to_equations; lia|].
    destruct (base64_index_of_char (byte_value b mod 16 * 4)) as [-> ->];
      [Z.div_mod_to_equations; lia|].
    change (Ascii.eqb "=" "=") with true. cbn [empty].
    replace (byte_value a / 4 * 4
             + (byte_value a mod 4 * 16 + byte_value b / 16) / 16)%Z
      with (byte_value a) by (Z.div_mod_to_equations; lia).
    replace ((byte_value a mod 4 * 16 + byte_value b / 16) mod 16 * 16
             + byte_value b mod 16 * 4 / 4)%Z
      with (byte_value b) by (Z.div_mod_to_equations; lia).
    now rewrite !byte_of_value.
  - pose proof (byte_value_range a) as Ha. pose proof (byte_value_range b) as Hb.
    pose proof (byte_value_range c) as Hc.
    cbn [base64_rfc4648 Base64Decode].
    destruct (base64_index_of_char (byte_value a / 4)) as [-> _];
      [Z.div_mod_to_equations; lia|].
    destruct (base64_index_of_char (byte_value a mod 4 * 16 + byte_value b / 16))
      as [-> _]; [Z.div_mod_to_equations; lia|].
    destruct (base64_index_of_char (byte_value b mod 16 * 4 + byte_value c / 64))
      as [-> ->]; [Z.div_mod_to_equations; lia|].
    destruct (base64_index_of_char (byte_value c mod 64)) as [-> ->];
      [Z.div_mod_to_equations; lia|].
    rewrite IH.
    replace (byte_value a / 4 * 4
             + (byte_value a mod 4 * 16 + byte_value b / 16) / 16)%Z
      with (byte_value a) by (Z.div_mod_to_equations; lia).
    replace ((byte_value a mod 4 * 16 + byte_value b / 16) mod 16 * 16
             + (byte_value b mod 16 * 4 + byte_value c / 64) / 4)%Z
      with (byte_value b) by (Z.div_mod_to_equations; lia).
    replace ((byte_value b mod 16 * 4 + byte_value c / 64) mod 4 * 64
             + byte_value c mod 64)%Z
      with (byte_value c) by (Z.div_mod_to_equations; lia).
    now rewrite !byte_of_value.
Qed.

(** X8.  Nothing is lost in the encoding: reading [Base64Encode input]
    back group by group gives [input], so two inputs with the same
    encoding are the same. *)
Theorem Base64Encode_loses_nothing :
  (forall input, Base64Decode (Base64Encode input) = Some input)
  /\ (forall a b, Base64Encode a = Base64Encode b -> a = b).
Proof.
  assert (H : forall input, Base64Decode (Base64Encode input) = Some input).
  { intros input. rewrite Base64Encode_by_groups. apply Base64Decode_rfc4648. }
  split; [exact H|].
  intros a b E. pose proof (H a) as Ha. rewrite E, H in Ha. congruence.
Qed.

(* ===================================================================== *)
(** ** The life of a handle: commit, close, destruction *)
(* ===================================================================== *)

Lemma same_handle_refl (w : World) : same_handle w w.
Proof. unfold same_handle. repeat split; reflexivity. Qed.

Lemma same_handle_remote (w w' : World) :
  wfh w' = wfh w -> disk w' = disk w -> same_handle w w'.
Proof. intros H1 H2. unfold same_handle. rewrite H1, H2. repeat split; reflexivity. Qed.

Lemma same_handle_trans (w1 w2 w3 : World) :
  same_handle w1 w2 -> same_handle w2 w3 -> same_handle w1 w3.
Proof.
  intros (A1 & A2 & A3 & A4 & A5 & A6 & A7) (B1 & B2 & B3 & B4 & B5 & B6 & B7).
  unfold same_handle. repeat split; try congruence.
  intros p Hp. rewrite B7, A7; congruence.
Qed.

Section Commit.
Variable server : list Request -> Request -> HTTPResponse.
Variable params : HTTPFSParams.
Variable fopen_ok : gmap string string -> string -> bool.

(** The end of the commit, from the answer to the first upload on. *)
Lemma FlushBuffer_end (h : WebDAVFileHandle) (http_url : string)
    (response : HTTPResponse) (w : World) :
  exists r w',
    (response' ← retry_with_parents server params h http_url response;
     if negb (is_written response') then
       throw (IOException ("Failed to write to file " +:+ path h +:+ ": HTTP "
                           +:+ to_string (status response')))
     else
       modify_handle (set_write_buffer "");;
       modify_handle (set_buffer_dirty false)) w = (r, w')
    /\ disk w' = disk w
    /\ wfh w' = after_flush r (wfh w).
Proof.
  unfold mbind at 1. unfold M_bind at 1.
  destruct (remote_only_retry_with_parents server params h http_url response w)
    as (H1 & H2 & l & H3).
  destruct (retry_with_parents server params h http_url response w)
    as [[response'|e|] w1]; cbn [snd] in *.
  - destruct (negb (is_written response')).
    + eexists _, _. split; [reflexivity|]. cbn. rewrite H1, H2. auto.
    + eexists _, _. run_M. split; [reflexivity|]. cbn. rewrite H1, H2. auto.
  - eexists _, _. split; [reflexivity|]. cbn. rewrite H1, H2. auto.
  - eexists _, _. split; [reflexivity|]. cbn. rewrite H1, H2. auto.
Qed.

(** The first upload leaves the handle with the same bytes to commit. *)
Lemma upload_buffer_effect (w : World) (http_url : string)
    (r : result HTTPResponse) (w1 : World) :
  upload_buffer server fopen_ok (wfh w) http_url w = (r, w1) ->
  same_handle w w1
  /\ pending_bytes w1 = pending_bytes w
  /\ buffer_dirty (wfh w1) = buffer_dirty (wfh w)
  /\ r <> OutOfFuel.
Proof.
  unfold upload_buffer, pending_bytes.
  destruct (using_temp_file (wfh w)) eqn:Hu.
  - assert (Hstage : exists w0,
              ((if negb (empty (write_buffer (wfh w))) then
                  d ← get_disk;
                  if fopen_ok d (temp_file_path (wfh w)) then
                    put_disk (<[temp_file_path (wfh w) :=
                                  default "" (d !! temp_file_path (wfh w))
                                  +:+ write_buffer (wfh w)]> d);;
                    modify_handle (set_write_buffer "")
                  else mret tt
                else mret tt) w = (Ok tt, w0))
              /\ same_handle w w0
              /\ using_temp_file (wfh w0) = true
              /\ temp_file_path (wfh w0) = temp_file_path (wfh w)
              /\ default "" (disk w0 !! temp_file_path (wfh w0))
                 +:+ write_buffer (wfh w0)
                 = default "" (disk w !! temp_file_path (wfh w))
                   +:+ write_buffer (wfh w)
              /\ buffer_dirty (wfh w0) = buffer_dirty (wfh w)).
    { destruct (write_buffer (wfh w)) as [|c b] eqn:Hb; cbn [empty negb].
      - exists w. rewrite Hb. repeat split; auto using same_handle_refl.
      - run_M. destruct (fopen_ok (disk w) (temp_file_path (wfh w))).
        + eexists. split; [reflexivity|]. cbn.
          rewrite lookup_insert_eq. cbn. rewrite str_app_empty_r.
          repeat split; auto.
          intros p Hp. cbn [disk set_wfh set_disk].
          now rewrite lookup_insert_ne by congruence.
        + exists w. rewrite Hb. repeat split; auto using same_handle_refl. }
    destruct Hstage as (w0 & E0 & S0 & U0 & T0 & P0 & D0).
    unfold mbind at 1. unfold M_bind at 1. rewrite E0. run_M.
    rewrite <- T0.
    destruct (disk w0 !! temp_file_path (wfh w0)) as [content|] eqn:Hc.
    + unfold PutFromFile. run_M. rewrite Hc.
      destruct (fopen_ok (disk w0) (temp_file_path (wfh w0))); cbv [send];
        intros E; injection E as <- <-; cbn [wfh disk set_net];
        rewrite U0, ?Hc, P0; repeat split; auto; try discriminate;
        try (rewrite T0; reflexivity); apply S0.
    + intros E. injection E as <- <-.
      rewrite U0, ?Hc, P0; repeat split; auto; try discriminate;
        try (rewrite T0; reflexivity); apply S0.
  - cbv [send]. intros E. injection E as <- <-. cbn [wfh disk set_net].
    rewrite Hu. repeat split; auto; discriminate.
Qed.

(** What a commit does to the handle and the local files, by outcome. *)
Lemma FlushBuffer_effect (w : World) (r : result unit) (w' : World) :
  FlushBuffer server params fopen_ok w = (r, w') ->
  same_handle w w'
  /\ match r with
     | Ok _ =>
         buffer_dirty (wfh w') = false
         /\ (using_temp_file (wfh w) = true \/ buffer_dirty (wfh w) = true ->
             write_buffer (wfh w') = "")
     | Throw _ =>
         pending_bytes w' = pending_bytes w
         /\ buffer_dirty (wfh w') = buffer_dirty (wfh w)
     | OutOfFuel => True
     end.
Proof.
  unfold FlushBuffer.
  change ((get_handle ≫= ?k) w) with (k (wfh w) w). cbv beta.
  destruct (negb (buffer_dirty (wfh w)) && negb (using_temp_file (wfh w))) eqn:Hclean.
  { intros E. injection E as <- <-. split; [apply same_handle_refl|].
    apply andb_true_iff in Hclean as [H1 H2].
    apply negb_true_iff in H1, H2. split; [exact H1|].
    intros [F|F]; congruence. }
  unfold mbind at 1. unfold M_bind at 1. unfold lift.
  destruct (ParseUrl (path (wfh w))) as [u|e|] eqn:Hp.
  2: { intros E. injection E as <- <-. split; [apply same_handle_refl | auto]. }
  2: { intros E. injection E as <- <-. split; [apply same_handle_refl | auto]. }
  unfold mbind at 1. unfold M_bind at 1.
  destruct (upload_buffer server fopen_ok (wfh w) (GetHTTPUrl u) w)
    as [[response|e|] w1] eqn:E1;
    destruct (upload_buffer_effect w _ _ _ E1) as (S1 & P1 & D1 & N1).
  - destruct (FlushBuffer_end (wfh w) (GetHTTPUrl u) response w1)
      as (r' & w2 & E2 & Hdisk & Hwfh).
    rewrite E2. intros E. injection E as <- <-.
    assert (S2 : same_handle w1 w2).
    { unfold same_handle. rewrite Hdisk, Hwfh.
      destruct r'; cbn; repeat split; reflexivity. }
    split; [exact (same_handle_trans _ _ _ S1 S2)|].
    destruct r' as [[]|e|]; cbn [after_flush] in Hwfh.
    + rewrite Hwfh. cbn. auto.
    + unfold pending_bytes in *. rewrite Hwfh, Hdisk. rewrite P1, D1. auto.
    + exact I.
  - intros E. injection E as <- <-. auto.
  - congruence.
Qed.

(** X9.  A commit that raises drops nothing: the handle holds the same
    bytes for the next commit as before (in the memory buffer, or in the
    staging file and the memory buffer), it is as dirty as it was, and
    its path, offset, mode and the other local files are untouched. *)
Theorem a_failed_commit_keeps_the_bytes (w : World) (e : exception) :
  (FlushBuffer server params fopen_ok w).1 = Throw e ->
  pending_bytes (FlushBuffer server params fopen_ok w).2 = pending_bytes w
  /\ buffer_dirty (wfh (FlushBuffer server params fopen_ok w).2)
     = buffer_dirty (wfh w)
  /\ same_handle w (FlushBuffer server params fopen_ok w).2.
Proof.
  destruct (FlushBuffer server params fopen_ok w) as [r w'] eqn:E.
  cbn [fst snd]. intros ->.
  destruct (FlushBuffer_effect w _ _ E) as (S & P & D). auto.
Qed.

(** What [Close] does after the commit. *)
Lemma Close_after_commit (w : World) (r : result unit) (w1 : World) :
  FlushBuffer server params fopen_ok w = (r, w1) ->
  Close server params fopen_ok w
  = match r with
    | Ok _ =>
        if using_temp_file (wfh w1) && negb (empty (temp_file_path (wfh w1)))
        then (Ok tt,
              set_wfh (set_using_temp_file false
                         (set_temp_file_path "" (wfh w1)))
                (set_disk (delete (temp_file_path (wfh w1)) (disk w1)) w1))
        else (Ok tt, w1)
    | Throw e => (Throw e, w1)
    | OutOfFuel => (OutOfFuel, w1)
    end.
Proof.
  intros E. unfold Close. unfold mbind at 1. unfold M_bind at 1. rewrite E.
  destruct r as [[]|e|]; try reflexivity.
  run_M. destruct (using_temp_file (wfh w1) && negb (empty (temp_file_path (wfh w1))));
    reflexivity.
Qed.

(** X10.  When [Close] returns on a handle that had spilled, the staging
    file is gone from the disk, the other files are as they were, and the
    handle is back in memory, clean and with an empty buffer. *)
Theorem Close_releases_the_staging_file (w : World) :
  using_temp_file (wfh w) = true -> temp_file_path (wfh w) <> "" ->
  (Close server params fopen_ok w).1 = Ok tt ->
  disk (Close server params fopen_ok w).2 !! temp_file_path (wfh w) = None
  /\ (forall p, p <> temp_file_path (wfh w) ->
      disk (Close server params fopen_ok w).2 !! p = disk w !! p)
  /\ using_temp_file (wfh (Close server params fopen_ok w).2) = false
  /\ temp_file_path (wfh (Close server params fopen_ok w).2) = ""
  /\ write_buffer (wfh (Close server params fopen_ok w).2) = ""
  /\ buffer_dirty (wfh (Close server params fopen_ok w).2) = false.
Proof.
  intros Hu Hp.
  destruct (FlushBuffer server params fopen_ok w) as [r w1] eqn:E.
  rewrite (Close_after_commit w r w1 E).
  destruct (FlushBuffer_effect w _ _ E) as ((_ & _ & _ & _ & T & U & D) & R).
  destruct r as [[]|e|]; cbn [fst]; try discriminate. intros _.
  destruct R as [Hclean Hbuf]. rewrite U, T, Hu.
  assert (Hne : negb (empty (temp_file_path (wfh w))) = true)
    by (destruct (temp_file_path (wfh w)); [congruence | reflexivity]).
  rewrite Hne. cbn.
  repeat split; auto.
  - apply lookup_delete_eq.
  - intros p Hp'. rewrite lookup_delete_ne by congruence. now apply D.
Qed.

(** X11.  The staging file never outlives the handle: whether [Close]
    returns or raises, once the handle is destroyed after it the staging
    file is no longer on the disk. *)
Theorem the_staging_file_does_not_outlive_the_handle (w : World) :
  using_temp_file (wfh w) = true -> temp_file_path (wfh w) <> "" ->
  disk (WebDAVFileHandle_destroy (Close server params fopen_ok w).2).2
    !! temp_file_path (wfh w) = None.
Proof.
  intros Hu Hp.
  assert (Hne : negb (empty (temp_file_path (wfh w))) = true)
    by (destruct (temp_file_path (wfh w)); [congruence | reflexivity]).
  destruct (FlushBuffer server params fopen_ok w) as [r w1] eqn:E.
  rewrite (Close_after_commit w r w1 E).
  destruct (FlushBuffer_effect w _ _ E) as ((_ & _ & _ & _ & T & U & D) & _).
  assert (Hgone : disk (WebDAVFileHandle_destroy w1).2 !! temp_file_path (wfh w)
                  = None).
  { unfold WebDAVFileHandle_destroy. run_M. rewrite U, T, Hu, Hne. cbn.
    apply lookup_delete_eq. }
  destruct r as [[]|e|]; cbn [snd]; try exact Hgone.
  rewrite U, T, Hu, Hne. cbn [andb snd].
  unfold WebDAVFileHandle_destroy. run_M. cbn. apply lookup_delete_eq.
Qed.

End Commit.

(** X12.  A staging file that cannot be opened right after it was created
    is left behind: the write raises with the handle still in memory, so
    neither [Close] nor the destructor removes the file [mkstemp] made. *)
Theorem an_unopened_staging_file_is_left_behind
    (mkstemp : gmap string string -> option string)
    (fopen_ok : gmap string string -> string -> bool)
    (buffer temp_template : string) (w : World) :
  using_temp_file (wfh w) = false ->
  streaming_threshold (wfh w) < wrap64 (size (write_buffer (wfh w)) + size buffer) ->
  mkstemp (disk w) = Some temp_template ->
  fopen_ok (<[temp_template := ""]> (disk w)) temp_template = false ->
  (Write mkstemp fopen_ok buffer (size (write_buffer (wfh w))) w).1
  = Throw (IOException ("Failed to open temp file " +:+ temp_template))
  /\ using_temp_file
       (wfh (Write mkstemp fopen_ok buffer (size (write_buffer (wfh w))) w).2)
     = false
  /\ disk (WebDAVFileHandle_destroy
             (Write mkstemp fopen_ok buffer (size (write_buffer (wfh w))) w).2).2
       !! temp_template = Some "".
Proof.
  intros Hu Hthr Hmk Hopen.
  unfold Write, WebDAVFileHandle_destroy. run_M. rewrite Hu.
  rewrite N.eqb_refl. cbn [negb andb].
  fold (streaming_threshold (wfh w)).
  apply N.ltb_lt in Hthr. rewrite Hthr, Hmk. run_M. rewrite Hopen.
  cbn. rewrite Hu. cbn. repeat split; auto.
  apply lookup_insert_eq.
Qed.

Example a_failed_commit_keeps_the_bytes_witness :
  pending_bytes
    (FlushBuffer (always 500) default_params fopen_fine
       (Write mkstemp_fixed fopen_fine "ab" 0 (fresh default_params)).2).2
  = "ab".
Proof.
  refine (proj1 (a_failed_commit_keeps_the_bytes (always 500) default_params
                   fopen_fine
                   (Write mkstemp_fixed fopen_fine "ab" 0 (fresh default_params)).2
                   (IOException
                      "Failed to write to file http://host/dir/file.csv: HTTP 500")
                   _)).
  vm_compute. reflexivity.
Defined.

Example Close_releases_the_staging_file_witness :
  disk (Close (always 201) spill_at_once fopen_fine
          (Write mkstemp_fixed fopen_fine "ab" 0 (fresh spill_at_once)).2).2
    !! temp_name = None.
Proof.
  refine (proj1 (Close_releases_the_staging_file (always 201) spill_at_once
                   fopen_fine
                   (Write mkstemp_fixed fopen_fine "ab" 0 (fresh spill_at_once)).2
                   _ _ _)).
  - reflexivity.
  - discriminate.
  - vm_compute. reflexivity.
Defined.

Example the_staging_file_does_not_outlive_the_handle_witness :
  disk (WebDAVFileHandle_destroy
          (Close (always 500) spill_at_once fopen_fine
             (Write mkstemp_fixed fopen_fine "ab" 0 (fresh spill_at_once)).2).2).2
    !! temp_name = None.
Proof.
  refine (the_staging_file_does_not_outlive_the_handle (always 500) spill_at_once
            fopen_fine
            (Write mkstemp_fixed fopen_fine "ab" 0 (fresh spill_at_once)).2 _ _).
  - reflexivity.
  - discriminate.
Defined.

Example an_unopened_staging_file_is_left_behind_witness :
  disk (WebDAVFileHandle_destroy
          (Write mkstemp_fixed (fun _ _ => false) "ab" 0 (fresh spill_at_once)).2).2
    !! temp_name = Some "".
Proof.
  refine (proj2 (proj2 (an_unopened_staging_file_is_left_behind mkstemp_fixed
                          (fun _ _ => false) "ab" temp_name (fresh spill_at_once)
                          _ _ _ _))); reflexivity.
Defined.

(* ===================================================================== *)
(** ** Creating the levels of a directory *)
(* ===================================================================== *)

Lemma ParseUrl_webdav (h t : string) :
  contains_any "/" h = false ->
  size ("webdav://" +:+ h +:+ String "/" t) < npos ->
  ParseUrl ("webdav://" +:+ h +:+ String "/" t)
  = Ok (mkParsed "http" h (String "/" t)).
Proof.
  intros Hh Hsize. set (x := h +:+ String "/" t) in *.
  assert (Hx : size x < npos) by (rewrite size_app in Hsize; lia).
  unfold ParseUrl.
  replace (StartsWith ("webdav://" +:+ x) "storagebox://") with false by reflexivity.
  replace (StartsWith ("webdav://" +:+ x) "webdav://") with true
    by (symmetry; apply prefix_app).
  change 9 with (size "webdav://"). rewrite substr_from_app by exact Hsize.
  unfold x. rewrite find_char_app by exact Hh.
  assert (Hn : (size h =? npos) = false)
    by (apply N.eqb_neq; unfold x in Hx; rewrite size_app in Hx; lia).
  rewrite Hn. cbn [negb].
  rewrite substr_prefix, substr_from_app by exact Hx. reflexivity.
Qed.

Lemma ParseUrl_webdavs (h t : string) :
  contains_any "/" h = false ->
  size ("webdavs://" +:+ h +:+ String "/" t) < npos ->
  ParseUrl ("webdavs://" +:+ h +:+ String "/" t)
  = Ok (mkParsed "https" h (String "/" t)).
Proof.
  intros Hh Hsize. set (x := h +:+ String "/" t) in *.
  assert (Hx : size x < npos) by (rewrite size_app in Hsize; lia).
  unfold ParseUrl.
  replace (StartsWith ("webdavs://" +:+ x) "storagebox://") with false by reflexivity.
  replace (StartsWith ("webdavs://" +:+ x) "webdav://") with false by reflexivity.
  replace (StartsWith ("webdavs://" +:+ x) "webdavs://") with true
    by (symmetry; apply prefix_app).
  change 10 with (size "webdavs://"). rewrite substr_from_app by exact Hsize.
  unfold x. rewrite find_char_app by exact Hh.
  assert (Hn : (size h =? npos) = false)
    by (apply N.eqb_neq; unfold x in Hx; rewrite size_app in Hx; lia).
  rewrite Hn. cbn [negb].
  rewrite substr_prefix, substr_from_app by exact Hx. reflexivity.
Qed.

Lemma ParseUrl_storagebox (user t : string) :
  contains_any "/" user = false ->
  size ("storagebox://" +:+ user +:+ String "/" t) < npos ->
  ParseUrl ("storagebox://" +:+ user +:+ String "/" t)
  = Ok (mkParsed "https" (user +:+ ".your-storagebox.de") (String "/" t)).
Proof.
  intros Hh Hsize. set (x := user +:+ String "/" t) in *.
  assert (Hx : size x < npos) by (rewrite size_app in Hsize; lia).
  unfold ParseUrl.
  replace (StartsWith ("storagebox://" +:+ x) "storagebox://") with true
    by (symmetry; apply prefix_app).
  change 13 with (size "storagebox://"). rewrite substr_from_app by exact Hsize.
  unfold x. rewrite find_char_app by exact Hh.
  assert (Hn : (size user =? npos) = false)
    by (apply N.eqb_neq; unfold x in Hx; rewrite size_app in Hx; lia).
  rewrite Hn. cbn [negb].
  rewrite substr_prefix, substr_from_app by exact Hx. reflexivity.
Qed.

(** A path put behind the prefix of a URL parses to the protocol and the
    host of that URL, with that path. *)
Lemma ParseUrl_of_prefix (url : string) (u : ParsedWebDAVUrl) (t : string) :
  size url < npos -> ParseUrl url = Ok u ->
  size (original_prefix url u +:+ String "/" t) < npos ->
  ParseUrl (original_prefix url u +:+ String "/" t)
  = Ok (mkParsed (http_proto u) (host u) (String "/" t)).
Proof.
  intros Hsize Hu.
  destruct (ParseUrl_cases url u Hsize Hu)
    as (scheme & a & t0 & Ha & Hpre & _ & _ & Hrow).
  rewrite Hpre, str_app_assoc. intros Hs.
  destruct Hrow as [(-> & -> & ->)|[(-> & -> & ->)|[(-> & -> & ->)
                   |[(-> & -> & ->)|(-> & -> & ->)]]]].
  - now apply ParseUrl_storagebox.
  - now apply ParseUrl_webdav.
  - now apply ParseUrl_webdavs.
  - now apply ParseUrl_https.
  - now apply ParseUrl_http.
Qed.

Section Levels.
Variable server : list Request -> Request -> HTTPResponse.
Variable params : HTTPFSParams.
Hypothesis cooperative : takes_every_mkcol server.

Lemma CreateDirectory_taken (fuel : nat) (directory : string)
    (opener : option FileOpener) (u : ParsedWebDAVUrl) (w : World) :
  ParseUrl directory = Ok u ->
  CreateDirectory server params (S fuel) directory opener w
  = (Ok tt,
     set_net (net w ++ [InitializeRequest (GetHTTPUrl u); MkcolRequest (mkcol_url u)])
       w).
Proof.
  intros Hu.
  destruct (CreateDirectory_first_answer server params fuel directory opener u w Hu)
    as [Hok _].
  rewrite Hok by apply cooperative.
  now rewrite <- app_assoc.
Qed.

Lemma create_each_level_taken (url : string) (u : ParsedWebDAVUrl)
    (fuel : nat) (opener : option FileOpener) (path_parts : list string) :
  size url < npos -> ParseUrl url = Ok u ->
  forall (accumulated_path : string) (w : World),
  (accumulated_path = "" \/ exists t, accumulated_path = String "/" t) ->
  N.of_nat (String.length (original_prefix url u)
            + String.length accumulated_path + joined_length path_parts) < npos ->
  create_each_level (CreateDirectory server params (S fuel))
    (original_prefix url u) accumulated_path path_parts opener w
  = (Ok tt,
     set_net (net w ++ level_requests (http_proto u) (host u) accumulated_path
                         path_parts) w).
Proof.
  intros Hsize Hu.
  induction path_parts as [|part rest IH]; intros acc w Hacc Hlen.
  - cbn [create_each_level level_requests]. rewrite app_nil_r.
    destruct w; reflexivity.
  - rewrite create_each_level_cons. cbv zeta.
    assert (Hacc' : exists t, acc +:+ ("/" +:+ part) = String "/" t).
    { destruct Hacc as [->|[t ->]]; eexists; reflexivity. }
    destruct Hacc' as [t Ht].
    assert (Hlen' : String.length (acc +:+ ("/" +:+ part))
                    = (String.length acc + S (String.length part))%nat).
    { rewrite length_app_string. reflexivity. }
    cbn [joined_length] in Hlen.
    rewrite Ht at 1.
    rewrite (CreateDirectory_taken fuel _ opener
               (mkParsed (http_proto u) (host u) (String "/" t))).
    2: { apply ParseUrl_of_prefix; try assumption.
         rewrite <- Ht. unfold size. rewrite length_app_string, Hlen'. lia. }
    rewrite IH.
    + cbn [level_requests]. rewrite Ht. cbn [net set_net].
      rewrite <- app_assoc. reflexivity.
    + right. now exists t.
    + rewrite Hlen'. lia.
Qed.

(** X13.  On a server that takes every [MKCOL] (created, or there
    already), [CreateDirectoryRecursive] returns after one probe and one
    [MKCOL] per level of the path, from the shortest level to the whole
    path, and nothing else is sent. *)
Theorem CreateDirectoryRecursive_makes_each_level_once
    (directory : string) (opener : option FileOpener)
    (u : ParsedWebDAVUrl) (w : World) :
  size directory < npos -> ParseUrl directory = Ok u ->
  CreateDirectoryRecursive server params directory opener w
  = (Ok tt,
     set_net (net w ++ level_requests (http_proto u) (host u) ""
                         (split_components (url_path u) "" [])) w).
Proof.
  intros Hsize Hu.
  unfold CreateDirectoryRecursive, CreateDirectoryRecursive_with, depth_bound.
  unfold mbind, M_bind, lift. rewrite Hu.
  apply create_each_level_taken; try assumption.
  - now left.
  - pose proof (levels_fit_in_the_url directory u Hsize Hu) as H.
    change (String.length "") with 0%nat. unfold size in Hsize. lia.
Qed.

End Levels.

Example CreateDirectoryRecursive_makes_each_level_once_witness :
  CreateDirectoryRecursive (always 201) default_params "storagebox://u1/a/b" None
    (fresh default_params)
  = (Ok tt,
     set_net [InitializeRequest "https://u1.your-storagebox.de/a";
              MkcolRequest "https://u1.your-storagebox.de/a/";
              InitializeRequest "https://u1.your-storagebox.de/a/b";
              MkcolRequest "https://u1.your-storagebox.de/a/b/"]
       (fresh default_params)).
Proof.
  refine (CreateDirectoryRecursive_makes_each_level_once (always 201)
            default_params _ "storagebox://u1/a/b" None
            (mkParsed "https" "u1.your-storagebox.de" "/a/b")
            (fresh default_params) _ _).
  - intros history url. left. reflexivity.
  - reflexivity.
  - reflexivity.
Defined.

(* ===================================================================== *)
(** ** Listings: decoding and scanning *)
(* ===================================================================== *)

Lemma url_decode_cons_plain (c : ascii) (s : string) :
  Ascii.eqb c "%" = false ->
  url_decode (String c s)
  = match url_decode s with
    | Ok decoded => Ok (String c decoded)
    | Throw e => Throw e
    | OutOfFuel => OutOfFuel
    end.
Proof.
  intros H. destruct s as [|h1 [|h2 rest]]; try reflexivity.
  rewrite url_decode_unfold, H. reflexivity.
Qed.

Lemma url_decode_without_percent (href : string) :
  contains_any "%" href = false -> url_decode href = Ok href.
Proof.
  induction href as [|c href IH]; intros H; [reflexivity|].
  cbn [contains_any mem_char] in H. rewrite orb_false_r in H.
  apply orb_false_iff in H as [Hc Hrest].
  rewrite url_decode_cons_plain by (rewrite Ascii.eqb_sym; exact Hc).
  now rewrite IH.
Qed.

Lemma url_decode_not_longer (href : string) :
  forall decoded, url_decode href = Ok decoded ->
  (String.length decoded <= String.length href)%nat.
Proof.
  assert (H : forall n s d, (String.length s <= n)%nat -> url_decode s = Ok d ->
                            (String.length d <= String.length s)%nat).
  { induction n as [|n IH]; intros s d Hn Hd.
    - destruct s; simpl in *; [injection Hd as <-; simpl; lia | lia].
    - destruct s as [|c [|h1 [|h2 rest]]].
      + injection Hd as <-. simpl. lia.
      + injection Hd as <-. simpl. lia.
      + injection Hd as <-. simpl. lia.
      + rewrite url_decode_unfold in Hd. simpl String.length in *.
        destruct (Ascii.eqb c "%").
        * destruct (stoi16 h1 h2); try discriminate.
          destruct (url_decode rest) as [d'| |] eqn:E; try discriminate.
          injection Hd as <-.
          assert (Hle : (String.length rest <= n)%nat) by lia.
          specialize (IH rest d' Hle E). simpl. lia.
        * destruct (url_decode (String h1 (String h2 rest))) as [d'| |] eqn:E;
            try discriminate.
          injection Hd as <-.
          assert (Hle : (String.length (String h1 (String h2 rest)) <= n)%nat)
            by (simpl; lia).
          specialize (IH _ d' Hle E). simpl in IH |- *. lia. }
  intros d. apply (H (String.length href)). lia.
Qed.

(** X14.  Decoding leaves a reference without ['%'] as it is, and never
    makes a reference longer. *)
Theorem url_decode_keeps_plain_references (href : string) :
  (contains_any "%" href = false -> url_decode href = Ok href)
  /\ (forall decoded, url_decode href = Ok decoded ->
      size decoded <= size href).
Proof.
  split; [apply url_decode_without_percent|].
  intros decoded H. apply url_decode_not_longer in H. unfold size. lia.
Qed.

(** X15.  A ['%'] that is followed by two characters which [std::stoi]
    cannot read as a number makes the decoding raise
    [std::invalid_argument], whatever comes after: the reference is not
    kept as it is. *)
Theorem url_decode_raises_on_a_bad_escape
    (before : string) (h1 h2 : ascii) (rest : string) (e : exception) :
  contains_any "%" before = false ->
  stoi16 h1 h2 = Throw e ->
  url_decode (before +:+ String "%" (String h1 (String h2 rest))) = Throw e.
Proof.
  intros Hb Hs. induction before as [|c before IH].
  - rewrite str_app_nil_l, url_decode_unfold. change (Ascii.eqb "%" "%") with true.
    cbv iota. now rewrite Hs.
  - cbn [contains_any mem_char] in Hb. rewrite orb_false_r in Hb.
    apply orb_false_iff in Hb as [Hc Hrest].
    rewrite str_app_cons.
    rewrite url_decode_cons_plain by (rewrite Ascii.eqb_sym; exact Hc).
    now rewrite IH.
Qed.

Example url_decode_raises_on_a_bad_escape_witness :
  url_decode ("/dir/100" +:+ String "%" (String "_" (String "d" "one.csv")))
  = Throw (InvalidArgument "stoi").
Proof.
  apply url_decode_raises_on_a_bad_escape; reflexivity.
Defined.

(** *** Collections are not files *)

Lemma parse_loop_files (fuel : nat) :
  forall (xml : string) (pos : N) (found files : list string),
  Forall (fun f => EndsWith f "/" = false) found ->
  parse_loop fuel xml pos found = Ok files ->
  Forall (fun f => EndsWith f "/" = false) files.
Proof.
  induction fuel as [|fuel IH]; intros xml pos found files Hfound Hp;
    [discriminate|].
  cbn [parse_loop] in Hp.
  destruct (next_href xml pos =? npos); [injection Hp as <-; exact Hfound|].
  match type of Hp with
  | context [if ?b then _ else _] => destruct b
  end; [injection Hp as <-; exact Hfound|].
  match type of Hp with
  | context [url_decode ?h] => destruct (url_decode h) as [decoded| |]
  end; try discriminate.
  apply IH in Hp; [exact Hp|].
  destruct (EndsWith decoded "/") eqn:E; cbn [negb]; [exact Hfound|].
  apply Forall_app. split; [exact Hfound|]. constructor; [exact E | constructor].
Qed.

(** X16.  [ParsePropfindResponse] never reports a collection: no path it
    returns ends with ['/']. *)
Theorem ParsePropfindResponse_reports_no_collection
    (xml_response base_path : string) (files : list string) (f : string) :
  ParsePropfindResponse xml_response base_path = Ok files ->
  In f files -> EndsWith f "/" = false.
Proof.
  intros Hp Hin. unfold ParsePropfindResponse in Hp.
  apply parse_loop_files in Hp; [|constructor].
  exact (proj1 (List.Forall_forall _ _) Hp f Hin).
Qed.

Example ParsePropfindResponse_reports_no_collection_witness :
  EndsWith "/dir/my file.csv" "/" = false.
Proof.
  apply (ParsePropfindResponse_reports_no_collection
           "<D:href>/dir/sub/</D:href><D:href>/dir/my%20file.csv</D:href>"
           "/dir/" ["/dir/my file.csv"]).
  - reflexivity.
  - left. reflexivity.
Defined.

(* ===================================================================== *)
(** ** What [Glob] and [ListFiles] report *)
(* ===================================================================== *)

Lemma returns_only_ret {A : Type} (P : A -> Prop) (a : A) :
  P a -> returns_only P (mret a).
Proof. intros H w a' E. injection E as <-. exact H. Qed.

Lemma returns_only_bind {A B : Type} (P : B -> Prop) (c : M A) (k : A -> M B) :
  (forall a, returns_only P (k a)) -> returns_only P (c ≫= k).
Proof.
  intros Hk w b. unfold mbind, M_bind.
  destruct (c w) as [[a|e|] w']; cbn [fst]; try discriminate. apply Hk.
Qed.

Section Reports.
Variable server : list Request -> Request -> HTTPResponse.
Variable params : HTTPFSParams.
Variable Split : string -> string -> list string.
Variable G : string -> string -> bool.

Lemma match_files_sound (glob_pattern : string) (u : ParsedWebDAVUrl)
    (pattern_splits files : list string) (f : string) :
  In f (match_files Split G glob_pattern u pattern_splits files) ->
  exists file_path,
    f = original_prefix glob_pattern u +:+ file_path
    /\ Match G (Split file_path "/") pattern_splits = true.
Proof.
  induction files as [|file_info files IH]; cbn [match_files]; [intros []|].
  cbv zeta.
  match goal with
  | |- context [Match G (Split ?fp "/") pattern_splits] =>
      destruct (Match G (Split fp "/") pattern_splits) eqn:E
  end; [|exact IH].
  intros [<-|Hin]; [|now apply IH].
  eexists. split; [reflexivity | exact E].
Qed.

(** X17.  Whatever the server lists, an entry [Glob] returns is either
    the pattern itself, returned as it is, or the prefix of the pattern
    followed by a path whose segments match the segments of the pattern's
    path. *)
Theorem Glob_returns_the_pattern_or_matching_paths
    (glob_pattern : string) (opener : option FileOpener) (u : ParsedWebDAVUrl)
    (w : World) (files : list string) :
  ParseUrl glob_pattern = Ok u ->
  (Glob server params Split G glob_pattern opener w).1 = Ok files ->
  files = [glob_pattern]
  \/ forall f, In f files ->
       exists file_path,
         f = original_prefix glob_pattern u +:+ file_path
         /\ Match G (Split file_path "/") (Split (url_path u) "/") = true.
Proof.
  intros Hu. revert w files.
  change (returns_only
            (fun files =>
               files = [glob_pattern]
               \/ forall f, In f files ->
                    exists file_path,
                      f = original_prefix glob_pattern u +:+ file_path
                      /\ Match G (Split file_path "/") (Split (url_path u) "/")
                         = true)
            (Glob server params Split G glob_pattern opener)).
  unfold Glob. destruct opener as [o|]; [|apply returns_only_ret; now left].
  rewrite Hu.
  intros w files. unfold mbind at 1. unfold M_bind at 1. unfold lift.
  revert w files.
  destruct (find_first_of (url_path u) "*[\" =? npos);
    [apply returns_only_ret; now left|].
  apply returns_only_bind. intros opened.
  destruct (negb opened); [apply returns_only_ret; right; intros f []|].
  apply returns_only_bind. intros response.
  destruct (negb (is_listing response));
    [apply returns_only_ret; right; intros f []|].
  unfold collect_matches.
  destruct (empty (body response)); [apply returns_only_ret; right; intros f []|].
  apply returns_only_bind. intros found.
  apply returns_only_bind. intros subdirs.
  apply returns_only_bind. intros found'.
  apply returns_only_ret. right. intros f. apply match_files_sound.
Qed.

(** X18.  From a listed reference [Glob] drops everything up to and
    including the first occurrence of the host name, wherever it stands:
    a reference [before ++ host ++ after] is matched, and reported, as
    [after]. *)
Theorem match_files_cuts_at_the_host_name
    (glob_pattern : string) (u : ParsedWebDAVUrl) (pattern_splits : list string)
    (before after : string) :
  size (before +:+ host u +:+ after) < npos ->
  find (before +:+ host u +:+ after) (host u) 0 = size before ->
  match_files Split G glob_pattern u pattern_splits
    [before +:+ host u +:+ after]
  = if Match G (Split after "/") pattern_splits
    then [original_prefix glob_pattern u +:+ after] else [].
Proof.
  intros Hsize Hfind. cbn [match_files]. cbv zeta. rewrite Hfind.
  assert (Hn : (size before =? npos) = false).
  { apply N.eqb_neq. rewrite size_app in Hsize. lia. }
  rewrite Hn. cbn [negb].
  replace (substr_from (before +:+ host u +:+ after) (size before + size (host u)))
    with after.
  - reflexivity.
  - rewrite <- size_app, <- str_app_assoc. symmetry. apply substr_from_app.
    now rewrite str_app_assoc.
Qed.

End Reports.

Example Glob_returns_the_pattern_or_matching_paths_witness :
  ["webdav://host/dir/a.csv"] = ["webdav://host/dir/*.csv"]
  \/ forall f, In f ["webdav://host/dir/a.csv"] ->
       exists file_path,
         f = original_prefix "webdav://host/dir/*.csv"
               (mkParsed "http" "host" "/dir/*.csv") +:+ file_path
         /\ Match duckdb_Glob_model (StringUtil_Split file_path "/")
              (StringUtil_Split (url_path (mkParsed "http" "host" "/dir/*.csv")) "/")
            = true.
Proof.
  apply (Glob_returns_the_pattern_or_matching_paths
           (fun _ _ => mkResponse 207
              "<D:href>/dir/</D:href><D:href>/dir/a.csv</D:href><D:href>/dir/b.txt</D:href>")
           default_params StringUtil_Split duckdb_Glob_model
           "webdav://host/dir/*.csv" (Some tt)
           (mkParsed "http" "host" "/dir/*.csv") (fresh default_params)).
  - reflexivity.
  - vm_compute. reflexivity.
Defined.

Example match_files_cuts_at_the_host_name_witness :
  match_files StringUtil_Split duckdb_Glob_model "webdav://data/*.csv"
    (mkParsed "http" "data" "/*.csv") ["*.csv"]
    ["/backup/" +:+ host (mkParsed "http" "data" "/*.csv") +:+ "/x.csv"]
  = ["webdav://data/x.csv"].
Proof.
  apply (match_files_cuts_at_the_host_name StringUtil_Split duckdb_Glob_model
           "webdav://data/*.csv" (mkParsed "http" "data" "/*.csv") ["*.csv"]
           "/backup/" "/x.csv"); reflexivity.
Defined.

(** *** [ListFiles] *)

Lemma EndsWith_slash_app (d : string) :
  size (d +:+ "/") < npos -> EndsWith (d +:+ "/") "/" = true.
Proof.
  intros Hsize. unfold EndsWith.
  rewrite size_app. change (size "/") with 1.
  replace (size d + 1 - 1) with (size d) by lia.
  rewrite substr_from_app by exact Hsize.
  assert (H : (1 <=? size d + 1) = true) by (apply N.leb_le; lia).
  now rewrite H.
Qed.

Section ListFilesFacts.
Variable server : list Request -> Request -> HTTPResponse.
Variable params : HTTPFSParams.
Variable Split : string -> string -> list string.
Variable G : string -> string -> bool.

(** X19.  A trailing ['/'] on the directory makes no difference to
    [ListFiles]: the directory is listed through the same pattern
    [<directory>/**], and the entries reported and the result are the
    same. *)
Theorem ListFiles_ignores_a_trailing_slash
    (directory : string) (opener : option FileOpener) :
  size (directory +:+ "/") < npos -> EndsWith directory "/" = false ->
  ListFiles server params Split G (directory +:+ "/") opener
  = ListFiles server params Split G directory opener.
Proof.
  intros Hsize Hend. unfold ListFiles.
  rewrite EndsWith_slash_app by exact Hsize. rewrite Hend.
  rewrite size_app in *. change (size "/") with 1 in *.
  replace (wrap64 (size directory + 1 + (2 ^ 64 - 1))) with (size directory).
  - now rewrite substr_prefix.
  - unfold wrap64.
    replace (size directory + 1 + (2 ^ 64 - 1)) with (size directory + 1 * 2 ^ 64)
      by lia.
    rewrite N.Div0.mod_add. symmetry. apply N.mod_small.
    unfold npos in Hsize. lia.
Qed.

(** X20.  Without an opener [ListFiles] lists nothing and still reports
    one entry, which is not a file of the directory but the pattern
    [<directory>/**] itself, and returns [true]. *)
Theorem ListFiles_without_opener_reports_the_pattern
    (directory : string) (w : World) :
  EndsWith directory "/" = false ->
  ListFiles server params Split G directory None w
  = (Ok (true, [(directory +:+ "/**", false)]), w).
Proof.
  intros Hend. unfold ListFiles. rewrite Hend. reflexivity.
Qed.

End ListFilesFacts.

Example ListFiles_ignores_a_trailing_slash_witness :
  ListFiles (always 207) default_params StringUtil_Split duckdb_Glob_model
    ("webdav://host/dir" +:+ "/") (Some tt)
  = ListFiles (always 207) default_params StringUtil_Split duckdb_Glob_model
      "webdav://host/dir" (Some tt).
Proof.
  apply ListFiles_ignores_a_trailing_slash; reflexivity.
Defined.

Example ListFiles_without_opener_reports_the_pattern_witness :
  ListFiles (always 207) default_params StringUtil_Split duckdb_Glob_model
    "webdav://host/dir" None (fresh default_params)
  = (Ok (true, [("webdav://host/dir/**", false)]), fresh default_params).
Proof.
  apply (ListFiles_without_opener_reports_the_pattern (always 207) default_params
           StringUtil_Split duckdb_Glob_model "webdav://host/dir"
           (fresh default_params)).
  reflexivity.
Defined.

(* ===================================================================== *)
(** ** Patterns without [**] *)
(* ===================================================================== *)

(** X21.  A pattern that holds no [**] segment matches a path exactly
    when both have the same number of segments and each segment of the
    path matches the segment of the pattern at the same place. *)
Theorem Match_without_double_star
    (G : string -> string -> bool) (pattern : list string) :
  forall key : list string,
  (forall p, In p pattern -> String.eqb p "**" = false) ->
  Match G key pattern = true
  <-> Forall2 (fun k p => G k p = true) key pattern.
Proof.
  induction pattern as [|p pattern IH]; intros key Hno.
  - destruct key; cbn [Match]; split; intros H;
      try discriminate; try constructor; inversion H.
  - assert (Hp : String.eqb p "**" = false) by (apply Hno; now left).
    assert (Hrest : forall q, In q pattern -> String.eqb q "**" = false)
      by (intros q Hq; apply Hno; now right).
    destruct key as [|k key]; cbn [Match].
    + split; intros H; [discriminate | inversion H].
    + rewrite Hp. destruct (G k p) eqn:Hg; cbn [negb].
      * rewrite (IH key Hrest). split; intros H.
        -- now constructor.
        -- now inversion H.
      * split; intros H; [discriminate|]. inversion H. congruence.
Qed.

Example Match_without_double_star_witness :
  Match duckdb_Glob_model ["dir"; "a.csv"] ["dir"; "*.csv"] = true
  <-> Forall2 (fun k p => duckdb_Glob_model k p = true)
        ["dir"; "a.csv"] ["dir"; "*.csv"].
Proof.
  apply Match_without_double_star.
  intros p [<-|[<-|[]]]; reflexivity.
Defined.

(* ===================================================================== *)
(** ** Calls that always end *)
(* ===================================================================== *)

Lemma returns_or_raises_cases {A : Type} (c : M A) (w : World) :
  returns_or_raises c ->
  (exists a, (c w).1 = Ok a) \/ (exists e, (c w).1 = Throw e).
Proof.
  intros H. specialize (H w).
  destruct (c w).1 as [a|e|]; [left; now exists a | right; now exists e | congruence].
Qed.

(** X22.  Creating a directory and its parents always ends, returning or
    raising, whatever the server answers: each call [CreateDirectory]
    makes back into [CreateDirectoryRecursive] is for a strictly shorter
    name, so the nesting is never deeper than the name is long. *)
Theorem CreateDirectoryRecursive_always_ends
    (server : list Request -> Request -> HTTPResponse) (params : HTTPFSParams)
    (directory : string) (opener : option FileOpener) (w : World) :
  size directory < npos ->
  (exists a, (CreateDirectoryRecursive server params directory opener w).1 = Ok a)
  \/ (exists e,
        (CreateDirectoryRecursive server params directory opener w).1 = Throw e).
Proof.
  intros Hsize. apply returns_or_raises_cases.
  now apply CreateDirectoryRecursive_returns_or_raises.
Qed.

Example CreateDirectoryRecursive_always_ends_witness :
  (exists a,
     (CreateDirectoryRecursive (always 404) default_params
        "webdav://host/a/b/c" None (fresh default_params)).1 = Ok a)
  \/ (exists e,
        (CreateDirectoryRecursive (always 404) default_params
           "webdav://host/a/b/c" None (fresh default_params)).1 = Throw e).
Proof.
  apply CreateDirectoryRecursive_always_ends. reflexivity.
Defined.

(** X23.  Resolving a pattern always ends, returning or raising, whatever
    the server lists: every round of the scan of a listing starts behind
    the reference the round before it read. *)
Theorem Glob_always_ends
    (server : list Request -> Request -> HTTPResponse) (params : HTTPFSParams)
    (Split : string -> string -> list string) (G : string -> string -> bool)
    (glob_pattern : string) (opener : option FileOpener) (w : World) :
  (forall history request, size (body (server history request)) < npos) ->
  (exists files,
     (Glob server params Split G glob_pattern opener w).1 = Ok files)
  \/ (exists e, (Glob server params Split G glob_pattern opener w).1 = Throw e).
Proof.
  intros Hfit. apply returns_or_raises_cases.
  now apply Glob_returns_or_raises.
Qed.

Example Glob_always_ends_witness :
  (exists files,
     (Glob (fun _ _ => mkResponse 207 "<D:href>/dir/a.csv</D:href><D:href>")
        default_params StringUtil_Split duckdb_Glob_model
        "webdav://host/dir/*.csv" (Some tt) (fresh default_params)).1 = Ok files)
  \/ (exists e,
        (Glob (fun _ _ => mkResponse 207 "<D:href>/dir/a.csv</D:href><D:href>")
           default_params StringUtil_Split duckdb_Glob_model
           "webdav://host/dir/*.csv" (Some tt) (fresh default_params)).1
        = Throw e).
Proof.
  apply Glob_always_ends. intros history request. reflexivity.
Defined.

(* ===================================================================== *)
(** ** The header callback of the curl client *)
(* ===================================================================== *)

Lemma back_snoc (s : string) (c : ascii) :
  CurlClient.back (s +:+ String c "") = Some c.
Proof.
  induction s as [|x s IH]; [reflexivity|].
  rewrite str_app_cons. cbn [CurlClient.back].
  destruct (s +:+ String c "") eqn:E; [|exact IH].
  destruct s; discriminate E.
Qed.

Lemma pop_back_snoc (s : string) (c : ascii) :
  CurlClient.pop_back (s +:+ String c "") = s.
Proof.
  unfold CurlClient.pop_back. rewrite size_snoc.
  replace (size s + 1 - 1) with (size s) by lia. apply substr_prefix.
Qed.

Lemma empty_snoc (s : string) (c : ascii) : empty (s +:+ String c "") = false.
Proof. destruct s; reflexivity. Qed.

(** The line the callback works on once the line end is cut off. *)
Lemma RequestHeaderCallback_line (line : string)
    (header_collection : list CurlClient.HTTPHeaders) :
  let contents := line +:+ String "013" (String "010" "") in
  CurlClient.RequestHeaderCallback contents header_collection
  = let header_collection :=
      if StartsWith line "HTTP/"
      then header_collection ++ [[("__RESPONSE_STATUS__", line)]]
      else header_collection in
    let colonPos := find_char line ":" 0 in
    if negb (colonPos =? npos) then
      match substr_from line (colonPos + 1) with
      | EmptyString => CurlClient.OutOfRange
      | String c part2' =>
          match CurlClient.insert_in_back (substr line 0 colonPos)
                  (if Ascii.eqb c " " then part2' else String c part2')
                  header_collection with
          | Some header_collection =>
              CurlClient.Returned (size contents) header_collection
          | None => CurlClient.BackOfEmpty
          end
      end
    else CurlClient.Returned (size contents) header_collection.
Proof.
  cbv zeta.
  replace (line +:+ String "013" (String "010" ""))
    with ((line +:+ String "013" "") +:+ String "010" "")
    by (now rewrite str_app_assoc).
  unfold CurlClient.RequestHeaderCallback.
  rewrite empty_snoc, back_snoc, pop_back_snoc.
  rewrite bool_decide_true by reflexivity. cbn [negb andb].
  rewrite empty_snoc, back_snoc, pop_back_snoc.
  rewrite bool_decide_true by reflexivity. cbn [negb andb].
  destruct (negb (find_char line ":" 0 =? npos)); [|reflexivity].
  destruct (substr_from line (find_char line ":" 0 + 1)); reflexivity.
Qed.

Lemma insert_in_back_last (key value : string)
    (earlier : list CurlClient.HTTPHeaders) (headers : CurlClient.HTTPHeaders) :
  CurlClient.insert_in_back key value (earlier ++ [headers])
  = Some (earlier ++ [headers ++ [(key, value)]]).
Proof.
  unfold CurlClient.insert_in_back. rewrite rev_unit, rev_involutive. reflexivity.
Qed.

(** X26.  A header line [name: value] that ends with CR LF is recorded
    in the newest header set under [name] with [value], the one blank
    after the colon left out, and the callback reports the whole line as
    taken. *)
Theorem RequestHeaderCallback_records_a_header
    (name value : string) (earlier : list CurlClient.HTTPHeaders)
    (headers : CurlClient.HTTPHeaders) :
  size (name +:+ ": " +:+ value) < npos ->
  contains_any ":" name = false ->
  StartsWith (name +:+ ": " +:+ value) "HTTP/" = false ->
  CurlClient.RequestHeaderCallback
    ((name +:+ ": " +:+ value) +:+ String "013" (String "010" ""))
    (earlier ++ [headers])
  = CurlClient.Returned
      (size ((name +:+ ": " +:+ value) +:+ String "013" (String "010" "")))
      (earlier ++ [headers ++ [(name, value)]]).
Proof.
  intros Hsize Hname Hstatus.
  rewrite RequestHeaderCallback_line. cbv zeta. rewrite Hstatus.
  change (name +:+ ": " +:+ value) with (name +:+ String ":" (" " +:+ value)) in *.
  rewrite find_char_app by exact Hname.
  assert (Hn : (size name =? npos) = false)
    by (apply N.eqb_neq; rewrite size_app in Hsize; lia).
  rewrite Hn. cbn [negb]. rewrite substr_prefix.
  replace (substr_from (name +:+ String ":" (" " +:+ value)) (size name + 1))
    with (" " +:+ value).
  - change (" " +:+ value) with (String " " value).
    change (Ascii.eqb " " " ") with true. cbv iota.
    now rewrite insert_in_back_last.
  - assert (E : name +:+ String ":" (" " +:+ value)
                = (name +:+ ":") +:+ " " +:+ value)
      by (now rewrite str_app_assoc).
    rewrite E. replace (size name + 1) with (size (name +:+ ":"))
      by (rewrite size_app; reflexivity).
    symmetry. apply substr_from_app. rewrite <- E. exact Hsize.
Qed.

Example RequestHeaderCallback_records_a_header_witness :
  CurlClient.RequestHeaderCallback
    (("Content-Length" +:+ ": " +:+ "42") +:+ String "013" (String "010" ""))
    ([] ++ [[("__RESPONSE_STATUS__", "HTTP/1.1 207 Multi-Status")]])
  = CurlClient.Returned 20
      ([] ++ [[("__RESPONSE_STATUS__", "HTTP/1.1 207 Multi-Status")]
                ++ [("Content-Length", "42")]]).
Proof.
  apply (RequestHeaderCallback_records_a_header "Content-Length" "42" []
           [("__RESPONSE_STATUS__", "HTTP/1.1 207 Multi-Status")]);
    reflexivity.
Defined.

(** X27.  A header line with nothing at all behind the colon is not
    recorded: [part2.at(0)] raises [std::out_of_range] inside the
    callback, whatever the collector holds. *)
Theorem RequestHeaderCallback_raises_on_an_empty_value
    (name : string) (header_collection : list CurlClient.HTTPHeaders) :
  size (name +:+ ":") < npos ->
  contains_any ":" name = false ->
  CurlClient.RequestHeaderCallback
    ((name +:+ ":") +:+ String "013" (String "010" "")) header_collection
  = CurlClient.OutOfRange.
Proof.
  intros Hsize Hname.
  rewrite RequestHeaderCallback_line. cbv zeta.
  rewrite find_char_app by exact Hname.
  assert (Hn : (size name =? npos) = false)
    by (apply N.eqb_neq; rewrite size_app in Hsize; lia).
  rewrite Hn. cbn [negb].
  replace (substr_from (name +:+ ":") (size name + 1)) with "".
  - reflexivity.
  - rewrite <- (str_app_empty_r (name +:+ ":")) at 1.
    replace (size name + 1) with (size (name +:+ ":"))
      by (rewrite size_app; reflexivity).
    symmetry. apply substr_from_app. now rewrite str_app_empty_r.
Qed.

Example RequestHeaderCallback_raises_on_an_empty_value_witness :
  CurlClient.RequestHeaderCallback
    (("X-Note" +:+ ":") +:+ String "013" (String "010" ""))
    [[("__RESPONSE_STATUS__", "HTTP/1.1 200 OK")]]
  = CurlClient.OutOfRange.
Proof.
  apply RequestHeaderCallback_raises_on_an_empty_value; reflexivity.
Defined.

(** X28.  A status line starts a new header set, which holds the line
    under [__RESPONSE_STATUS__]; the sets collected before (those of the
    responses that redirected here) are kept. *)
Theorem RequestHeaderCallback_starts_a_set_at_a_status_line
    (rest : string) (header_collection : list CurlClient.HTTPHeaders) :
  contains_any ":" rest = false ->
  CurlClient.RequestHeaderCallback
    (("HTTP/" +:+ rest) +:+ String "013" (String "010" "")) header_collection
  = CurlClient.Returned
      (size (("HTTP/" +:+ rest) +:+ String "013" (String "010" "")))
      (header_collection ++ [[("__RESPONSE_STATUS__", "HTTP/" +:+ rest)]]).
Proof.
  intros Hrest.
  rewrite RequestHeaderCallback_line. cbv zeta.
  replace (StartsWith ("HTTP/" +:+ rest) "HTTP/") with true
    by (symmetry; apply prefix_app).
  rewrite find_char_none; [reflexivity|].
  rewrite contains_any_app, Hrest. reflexivity.
Qed.

Example RequestHeaderCallback_starts_a_set_at_a_status_line_witness :
  CurlClient.RequestHeaderCallback
    (("HTTP/" +:+ "1.1 200 OK") +:+ String "013" (String "010" ""))
    [[("__RESPONSE_STATUS__", "HTTP/1.1 301 Moved Permanently")]]
  = CurlClient.Returned 17
      ([[("__RESPONSE_STATUS__", "HTTP/1.1 301 Moved Permanently")]]
       ++ [[("__RESPONSE_STATUS__", "HTTP/" +:+ "1.1 200 OK")]]).
Proof.
  apply RequestHeaderCallback_starts_a_set_at_a_status_line. reflexivity.
Defined.

(* ===================================================================== *)
(** ** Creating directories through an open handle *)
(* ===================================================================== *)

Section WithHandleFacts.
Variable server : list Request -> Request -> HTTPResponse.

Lemma CreateDirectoryWithHandle_one_request (directory : string)
    (u : ParsedWebDAVUrl) (w : World) :
  StartsWith directory "http://" || StartsWith directory "https://" = false ->
  ParseUrl directory = Ok u ->
  try_catch is_IOException (CreateDirectoryWithHandle server directory)
    (fun _ => mret tt) w
  = (Ok tt, set_net (net w ++ [MkcolRequest (mkcol_url u)]) w).
Proof.
  intros Hhttp Hu. unfold CreateDirectoryWithHandle, try_catch.
  rewrite Hhttp, Hu. cbv [mbind mret M_bind M_ret lift send throw].
  fold (mkcol_url u).
  destruct (negb (is_created (server (net w) (MkcolRequest (mkcol_url u)))));
    [|reflexivity].
  destruct (status (server (net w) (MkcolRequest (mkcol_url u))) =? 405);
    [reflexivity|].
  destruct (status (server (net w) (MkcolRequest (mkcol_url u))) =? 404);
    [reflexivity|].
  destruct (status (server (net w) (MkcolRequest (mkcol_url u))) =? 507);
    reflexivity.
Qed.

Lemma create_each_level_with_handle_requests (url : string) (u : ParsedWebDAVUrl)
    (path_parts : list string) :
  size url < npos -> ParseUrl url = Ok u ->
  StartsWith url "http://" || StartsWith url "https://" = false ->
  forall (accumulated_path : string) (w : World),
  (accumulated_path = "" \/ exists t, accumulated_path = String "/" t) ->
  N.of_nat (String.length (original_prefix url u)
            + String.length accumulated_path + joined_length path_parts) < npos ->
  create_each_level_with_handle server (original_prefix url u) accumulated_path
    path_parts w
  = (Ok tt,
     set_net (net w ++ level_mkcols (http_proto u) (host u) accumulated_path
                         path_parts) w).
Proof.
  intros Hsize Hu Hhttp.
  assert (Hpre : forall x,
            StartsWith (original_prefix url u +:+ x) "http://"
            || StartsWith (original_prefix url u +:+ x) "https://" = false).
  { intros x.
    destruct (ParseUrl_cases url u Hsize Hu)
      as (scheme & a & t0 & _ & -> & _ & Hurl & Hrow).
    rewrite str_app_assoc.
    destruct Hrow as [(-> & _)|[(-> & _)|[(-> & _)|[(-> & _)|(-> & _)]]]];
      try reflexivity; exfalso;
      apply orb_false_iff in Hhttp as [H1 H2];
      destruct Hurl as [E|[E _]]; rewrite E in H1, H2;
      unfold StartsWith in H1, H2; rewrite prefix_app in *; discriminate. }
  induction path_parts as [|part rest IH]; intros acc w Hacc Hlen.
  - cbn [create_each_level_with_handle level_mkcols]. rewrite app_nil_r.
    destruct w; reflexivity.
  - cbn [create_each_level_with_handle]. unfold mbind at 1. unfold M_bind at 1.
    assert (Hacc' : exists t, acc +:+ ("/" +:+ part) = String "/" t).
    { destruct Hacc as [->|[t ->]]; eexists; reflexivity. }
    destruct Hacc' as [t Ht].
    assert (Hlen' : String.length (acc +:+ ("/" +:+ part))
                    = (String.length acc + S (String.length part))%nat).
    { rewrite length_app_string. reflexivity. }
    cbn [joined_length] in Hlen.
    rewrite (CreateDirectoryWithHandle_one_request _
               (mkParsed (http_proto u) (host u) (acc +:+ ("/" +:+ part)))).
    + rewrite IH.
      * cbn [level_mkcols net set_net]. rewrite <- app_assoc. reflexivity.
      * right. now exists t.
      * rewrite Hlen'. lia.
    + apply Hpre.
    + rewrite Ht. apply ParseUrl_of_prefix; try assumption.
      rewrite <- Ht. unfold size. rewrite length_app_string, Hlen'. lia.
Qed.

(** X29.  For a [storagebox://], [webdav://] or [webdavs://] directory,
    [CreateDirectoryRecursiveWithHandle] sends one [MKCOL] per level of
    the path, shortest first, and returns whatever the answers are: an
    error at a level, a full storage (507) included, never stops it nor
    reaches the caller. *)
Theorem CreateDirectoryRecursiveWithHandle_never_raises
    (directory : string) (u : ParsedWebDAVUrl) (w : World) :
  size directory < npos -> ParseUrl directory = Ok u ->
  StartsWith directory "http://" || StartsWith directory "https://" = false ->
  CreateDirectoryRecursiveWithHandle server directory w
  = (Ok tt,
     set_net (net w ++ level_mkcols (http_proto u) (host u) ""
                         (split_components (url_path u) "" [])) w).
Proof.
  intros Hsize Hu Hhttp. unfold CreateDirectoryRecursiveWithHandle.
  cbv zeta. rewrite Hhttp. unfold mbind at 1. unfold M_bind at 1. unfold lift.
  rewrite Hu.
  apply create_each_level_with_handle_requests; try assumption.
  - now left.
  - pose proof (levels_fit_in_the_url directory u Hsize Hu) as H.
    change (String.length "") with 0%nat. unfold size in Hsize. lia.
Qed.

End WithHandleFacts.

Example CreateDirectoryRecursiveWithHandle_never_raises_witness :
  CreateDirectoryRecursiveWithHandle (always 507) "webdavs://host/a/b"
    (fresh default_params)
  = (Ok tt,
     set_net [MkcolRequest "https://host/a/"; MkcolRequest "https://host/a/b/"]
       (fresh default_params)).
Proof.
  apply (CreateDirectoryRecursiveWithHandle_never_raises (always 507)
           "webdavs://host/a/b" (mkParsed "https" "host" "/a/b")
           (fresh default_params)); reflexivity.
Defined.

End WebDAVFacts.
